(** * Omnivocal: the voice-activity-gated capture loop (src/omnivocal/audio.py)

    A shallow embedding of [Recorder._record_to_path], its audio [callback],
    [Recorder._write_wav] and [_float_to_pcm16], with the part of
    [cli._command_once] that drives them.

    - Python [float] is IEEE-754 binary64 and numpy [float32] is binary32;
      both are taken from the Standard Library's executable specification
      [SpecFloat] (round to nearest, ties to even), so every arithmetic step of
      the source is computed here with the rounding the interpreter performs.
    - Python [int] is [Z].
    - numpy arrays live in a heap indexed by object identity, because the
      audio backend reuses the buffer behind [indata] between callbacks.
    - The audio thread, the clock and the user are the environment: a run is a
      list of events (a delivered block, one turn of the supervising loop, an
      exception raised in the main thread).
    - Paths are [pathlib]'s pure POSIX paths, and the recordings on disk are
      a map from the string of a path to what was written there.

    Around the capture: the retry loop of the Chutes client
    ([ChutesClient._post_with_retries], src/omnivocal/api.py), the
    configuration dictionaries ([_merge_dicts], [_apply_env_overrides],
    [_coerce], [_split_key], [OmnivocalConfig.from_dict] and [load_config],
    src/omnivocal/config.py), and the rest of the [once] command
    ([_command_once], [_transcribe_file] and [main] of src/omnivocal/cli.py,
    [copy_to_clipboard] and [send_notification] of src/omnivocal/ui.py).
    There the server, the subprocesses and Python's own string conversions
    are the environment. *)

From Stdlib Require Import ZArith Zpower List Bool Lia SpecFloat.
From Stdlib Require Import Strings.String Strings.Ascii Strings.Byte DecimalString.
From stdpp Require Import base option list gmap strings.

Import ListNotations.
Local Open Scope Z_scope.

(* ===================================================================== *)
(** * Exceptions and results *)
(* ===================================================================== *)

Inductive exn :=
  | AudioError (msg : string)       (* omnivocal.audio.AudioError *)
  | KeyboardInterrupt               (* BaseException, not an Exception *)
  | CallbackStop                    (* sounddevice.CallbackStop(Exception) *)
  | ZeroDivisionError
  | OverflowError
  | ValueError
  | IndexError
  | VadError                        (* anything raised by webrtcvad *)
  | PortAudioError (msg : string).  (* sounddevice.PortAudioError(Exception) *)

(** [isinstance(e, Exception)]: what a bare [except Exception] catches. *)
Definition is_Exception (e : exn) : bool :=
  match e with
  | KeyboardInterrupt => false
  | _ => true
  end.

(** [str(exc)] as interpolated into the wrapping [AudioError]. *)
Definition exn_str (e : exn) : string :=
  match e with
  | AudioError msg => msg
  | PortAudioError msg => msg
  | ZeroDivisionError => "division by zero"
  | OverflowError => "int too large to convert to float"
  | ValueError => "cannot convert float NaN to integer"
  | IndexError => "index 0 is out of bounds"
  | _ => ""
  end%string.

Inductive result (A : Type) :=
  | Ok (a : A)
  | Raise (e : exn).
Arguments Ok {A} a.
Arguments Raise {A} e.

(* ===================================================================== *)
(** * Python numbers *)
(* ===================================================================== *)

Module Py.

(** Python [float]: binary64. *)
Definition float := spec_float.

Definition prec := 53.
Definition emax := 1024.

Definition zero : float := S754_zero false.

Definition add : float -> float -> float := SFadd prec emax.
Definition sub : float -> float -> float := SFsub prec emax.
Definition mul : float -> float -> float := SFmul prec emax.

Definition is_inf (x : float) : bool :=
  match x with S754_infinity _ => true | _ => false end.

(** [float(n)] for an [int] operand of a mixed operation: nearest double,
    [OverflowError] when [n] is beyond the finite range. *)
Definition float_of_int (n : Z) : result float :=
  let x := binary_normalize prec emax n 0 false in
  if is_inf x then Raise OverflowError else Ok x.

(** The literal [1000] converted for [silence_duration * 1000]. *)
Definition f1000 : float := S754_finite false 8796093022208000 (-43).

(** The literal [0.02] (0x3F947AE147AE147B). *)
Definition f0_02 : float := S754_finite false 5764607523034235 (-58).

(** [a / b] on two [int]s: the correctly rounded quotient. *)
Definition int_true_div (a b : Z) : result float :=
  if b =? 0 then Raise ZeroDivisionError
  else
    let s := xorb (a <? 0) (b <? 0) in
    if a =? 0 then Ok (S754_zero s)
    else
      let '(mz, ez, lz) := SFdiv_core_binary prec emax (Z.abs a) 0 (Z.abs b) 0 in
      let q := binary_round_aux prec emax s mz ez lz in
      if is_inf q then Raise OverflowError else Ok q.

(** Comparison of a [float] with an [int]: Python compares the two exactly,
    without rounding the integer. [None] for NaN. *)
Definition compare_int (x : float) (n : Z) : option comparison :=
  match x with
  | S754_nan => None
  | S754_infinity s => Some (if s then Lt else Gt)
  | S754_zero _ => Some (0 ?= n)
  | S754_finite s m e =>
      let v := cond_Zopp s (Zpos m) in
      if 0 <=? e then Some (v * 2 ^ e ?= n)
      else Some (v ?= n * 2 ^ (- e))
  end.

(** [x >= n] *)
Definition ge_int (x : float) (n : Z) : bool :=
  match compare_int x n with
  | Some Gt | Some Eq => true
  | _ => false
  end.

(** [x < n] *)
Definition lt_int (x : float) (n : Z) : bool :=
  match compare_int x n with
  | Some Lt => true
  | _ => false
  end.

(** Truncation toward zero of a finite float. *)
Definition trunc (x : float) : Z :=
  match x with
  | S754_finite s m e =>
      cond_Zopp s (if 0 <=? e then Zpos m * 2 ^ e else Zpos m / 2 ^ (- e))
  | _ => 0
  end.

(** [int(x)] *)
Definition int_of_float (x : float) : result Z :=
  match x with
  | S754_nan => Raise ValueError
  | S754_infinity _ => Raise OverflowError
  | _ => Ok (trunc x)
  end.

End Py.

(* ===================================================================== *)
(** * numpy: float32 samples, int16 casts, raw bytes *)
(* ===================================================================== *)

Module Np.

(** One [float32] sample. *)
Definition float32 := spec_float.

Definition prec := 24.
Definition emax := 128.

Definition one : float32 := S754_finite false 8388608 (-23).
Definition minus_one : float32 := S754_finite true 8388608 (-23).
(** [32767.0], exactly representable in binary32. *)
Definition f32767 : float32 := S754_finite false 16776704 (-9).

Definition is_nan (x : float32) : bool :=
  match x with S754_nan => true | _ => false end.

(** [np.clip(x, -1.0, 1.0)], elementwise [minimum(maximum(x, lo), hi)];
    NaN propagates. *)
Definition clip1 (x : float32) : float32 :=
  if is_nan x then x
  else if SFltb x minus_one then minus_one
  else if SFltb one x then one
  else x.

Definition clip (data : list float32) : list float32 := map clip1 data.

(** [data * 32767.0]: the product stays in float32. *)
Definition scale (data : list float32) : list float32 :=
  map (fun x => SFmul prec emax x f32767) data.

(** Reduction of an integer to the int16 range (two's complement). *)
Definition wrap16 (k : Z) : Z := (k + 32768) mod 65536 - 32768.

(** [.astype(np.int16)] on one element: the C conversion truncates toward
    zero. NaN and the infinities are outside the C standard; the cast does
    not raise, and on the usual x86-64 and AArch64 builds it yields 0. *)
Definition astype_int16_1 (x : float32) : Z :=
  match x with
  | S754_finite _ _ _ => wrap16 (Py.trunc x)
  | _ => 0
  end.

Definition astype_int16 (data : list float32) : list Z :=
  map astype_int16_1 data.

Definition byte_of_Z (z : Z) : byte :=
  match Byte.of_N (Z.to_N (z mod 256)) with
  | Some b => b
  | None => x00
  end.

(** The two bytes of one int16 on a little-endian host. *)
Definition int16_bytes (k : Z) : list byte :=
  let u := k mod 65536 in
  [byte_of_Z u; byte_of_Z (u / 256)].

(** [ndarray.tobytes()] of an int16 vector. *)
Definition tobytes (pcm : list Z) : list byte :=
  concat (map int16_bytes pcm).

(** Reading a little-endian signed 16-bit pair back. *)
Definition int16_of_bytes (lo hi : byte) : Z :=
  wrap16 (Z.of_N (Byte.to_N lo) + 256 * Z.of_N (Byte.to_N hi)).

(** A two-dimensional float32 array of shape (rows, channels), as the list
    of its rows. *)
Definition ndarray := list (list float32).

(** [a.size] *)
Definition size (a : ndarray) : nat := length (concat a).

(** [a[:, 0]]; [IndexError] when the second axis is empty. *)
Fixpoint column0 (a : ndarray) : result (list float32) :=
  match a with
  | [] => Ok []
  | row :: rest =>
      match row, column0 rest with
      | x :: _, Ok xs => Ok (x :: xs)
      | [], _ => Raise IndexError
      | _, Raise e => Raise e
      end
  end.

(** [a.reshape(-1)]: row-major flattening, channels interleaved. *)
Definition reshape_flat (a : ndarray) : list float32 := concat a.

(** [np.concatenate(arrays, axis=0)] *)
Definition concatenate (arrays : list ndarray) : ndarray := concat arrays.

End Np.

(* ===================================================================== *)
(** * The PCM encoder *)
(* ===================================================================== *)

(** audio.py, lines 154-158. *)
Definition _float_to_pcm16 (data : list Np.float32) : list byte :=
  let data := Np.clip data in
  let pcm := Np.astype_int16 (Np.scale data) in
  Np.tobytes pcm.

(** ** The encoder as the specification words it (section 4.3)
    These three definitions follow the specification, not the source; they
    are what [_float_to_pcm16] is compared with. *)

(** "clip each sample to [-1.0, 1.0]" *)
Definition clamp (x : Np.float32) : Np.float32 :=
  if SFltb x Np.minus_one then Np.minus_one
  else if SFltb Np.one x then Np.one
  else x.

(** "scale by 32767, truncate to a 16-bit signed integer" *)
Definition pcm16_value (x : Np.float32) : Z :=
  Py.trunc (SFmul Np.prec Np.emax (clamp x) Np.f32767).

(** "produce little-endian byte pairs in input order" *)
Definition ToPCM16 (samples : list Np.float32) : list byte :=
  flat_map (fun x => let k := pcm16_value x in
                     [Np.byte_of_Z k; Np.byte_of_Z (k / 256)]) samples.

(** A float32 that is a number: a well-formed binary32 datum other than
    NaN (the infinities included). *)
Definition float32_number (x : Np.float32) : Prop :=
  valid_binary Np.prec Np.emax x = true /\ Np.is_nan x = false.

(* ===================================================================== *)
(** * Configuration (config.py) and the serialized artifact *)
(* ===================================================================== *)

Record RecordingConfig := {
  sample_rate : Z;
  channels : Z;
  max_seconds : Z;
  temp_dir : string
}.

Record VadConfig := {
  enabled : bool;
  silence_ms_to_stop : Z;
  aggressiveness : Z
}.

(** What [_write_wav] hands to the [wave] writer: the three header
    parameters and the frames written. *)
Record wav_file := {
  nchannels : Z;
  sampwidth : Z;
  framerate : Z;
  wav_frames : list byte
}.

(** Files by path. *)
Abbreviation filesystem := (gmap string wav_file).

(* ===================================================================== *)
(** * pathlib: pure POSIX paths *)
(* ===================================================================== *)

(** [Path] on a POSIX system: the path is parsed into a root and the
    components after it, and printed back from them. *)
Module Pathlib.

(** [s.split("/")] *)
Fixpoint split_sep (s : string) : list string :=
  match s with
  | EmptyString => [EmptyString]
  | String c rest =>
      if Ascii.eqb c "/" then EmptyString :: split_sep rest
      else
        match split_sep rest with
        | part :: more => String c part :: more
        | [] => [String c EmptyString]
        end
  end.

(** The components a path string names: empty ones (doubled and trailing
    slashes) and ["."] are dropped, [".."] is kept. *)
Definition name_parts (s : string) : list string :=
  List.filter (fun x => negb (String.eqb x EmptyString) && negb (String.eqb x "."))
    (split_sep s).

(** The root of a path string: exactly two leading slashes are kept as
    they are, any other number of them is one. *)
Definition root_of (s : string) : string :=
  match s with
  | String "/" (String "/" (String "/" _)) => "/"
  | String "/" (String "/" _) => "//"
  | String "/" _ => "/"
  | _ => EmptyString
  end.

Record PurePosixPath := {
  root : string;
  parts : list string
}.

(** [Path(s)] *)
Definition Path (s : string) : PurePosixPath :=
  {| root := root_of s; parts := name_parts s |}.

(** [p / key]: an absolute [key] replaces [p]. *)
Definition truediv (p : PurePosixPath) (key : string) : PurePosixPath :=
  if String.eqb (root_of key) EmptyString
  then {| root := root p; parts := parts p ++ name_parts key |}
  else Path key.

(** [str(p)] *)
Definition str (p : PurePosixPath) : string :=
  match root p, parts p with
  | EmptyString, [] => "."
  | r, ps => r ++ String.concat "/" ps
  end.

End Pathlib.

(** numpy array objects by identity. *)
Abbreviation loc := positive.
Abbreviation heap_t := (gmap loc Np.ndarray).

(** The memory the audio backend exposes as [indata]; it is overwritten with
    the next block once the callback has returned. *)
Definition driver_buffer : loc := 1%positive.

(** How a delivered block was classified inside the callback. *)
Inductive verdict := Speech | Silence | Fault.

Inductive stop_reason := BySilence | ByTimeout | ByInactive.

(** Where the main thread is. *)
Inductive control :=
  | Waiting                       (* in the [while] loop *)
  | LoopDone (why : stop_reason)  (* left the loop; the stream is closing *)
  | Raised (e : exn).             (* an exception is leaving the [with] block *)

(** What the environment does while the stream is open. The callback runs
    on the audio thread and the loop on the main thread; the loop reads the
    shared variables only once per turn ([recording_finished], after the
    condition of the [while]), and the callback writes that flag in a single
    assignment, so every interleaving of the two is the same as one in which
    each callback runs wholly before or wholly after a turn of the loop: a
    run is a sequence of such events. *)
Inductive event :=
  | Deliver (data : Np.ndarray)          (* audio thread: one block, one callback *)
  | Poll (active : bool) (now : Py.float) (* main thread: one turn of the loop *)
  | MainRaise (e : exn).                  (* main thread: an exception arrives *)

(** Ctrl+C. *)
Definition Interrupt : event := MainRaise KeyboardInterrupt.

(** The blocks delivered during a run, in arrival order. *)
Fixpoint blocks_of (evs : list event) : list Np.ndarray :=
  match evs with
  | [] => []
  | Deliver data :: rest => data :: blocks_of rest
  | _ :: rest => blocks_of rest
  end.

(** The third-party classifier: the internal state [V] of a [webrtcvad.Vad]
    object, its constructor [Vad(aggressiveness)], and
    [is_speech(buf, sample_rate)], which answers [Some b] or raises ([None])
    and may update the object. *)
Class Classifier (V : Type) := {
  Vad : Z -> V;
  is_speech : V -> list byte -> Z -> V * option bool
}.

Section Capture.

Context `{Classifier V}.

Record Recorder := {
  recording_config : RecordingConfig;
  vad_config : VadConfig;
  vad : option V
}.

(** [Recorder.__init__] with every optional dependency installed. *)
Definition Recorder_init (rc : RecordingConfig) (vc : VadConfig) : Recorder :=
  {| recording_config := rc;
     vad_config := vc;
     vad := if enabled vc then Some (Vad (aggressiveness vc)) else None |}.

(** The variables [callback] closes over, the classifier object behind
    [self.vad], and the array heap. *)
Record state := {
  heap : heap_t;
  vad_obj : option V;
  frames : list loc;
  silence_duration : Py.float;
  has_detected_speech : bool;
  recording_finished : bool
}.

Definition set_heap (h : heap_t) (s : state) : state :=
  {| heap := h; vad_obj := vad_obj s; frames := frames s;
     silence_duration := silence_duration s;
     has_detected_speech := has_detected_speech s;
     recording_finished := recording_finished s |}.

Definition set_vad_obj (v : option V) (s : state) : state :=
  {| heap := heap s; vad_obj := v; frames := frames s;
     silence_duration := silence_duration s;
     has_detected_speech := has_detected_speech s;
     recording_finished := recording_finished s |}.

Definition set_frames (l : list loc) (s : state) : state :=
  {| heap := heap s; vad_obj := vad_obj s; frames := l;
     silence_duration := silence_duration s;
     has_detected_speech := has_detected_speech s;
     recording_finished := recording_finished s |}.

Definition set_silence_duration (x : Py.float) (s : state) : state :=
  {| heap := heap s; vad_obj := vad_obj s; frames := frames s;
     silence_duration := x;
     has_detected_speech := has_detected_speech s;
     recording_finished := recording_finished s |}.

Definition set_has_detected_speech (b : bool) (s : state) : state :=
  {| heap := heap s; vad_obj := vad_obj s; frames := frames s;
     silence_duration := silence_duration s;
     has_detected_speech := b;
     recording_finished := recording_finished s |}.

Definition set_recording_finished (b : bool) (s : state) : state :=
  {| heap := heap s; vad_obj := vad_obj s; frames := frames s;
     silence_duration := silence_duration s;
     has_detected_speech := has_detected_speech s;
     recording_finished := b |}.

(** ** Statements that read and write the state and may raise.
    An assignment made before a [raise] stays made. *)
Definition M (A : Type) : Type := state -> state * result A.

Definition ret {A} (a : A) : M A := fun s => (s, Ok a).
Definition raise {A} (e : exn) : M A := fun s => (s, Raise e).
Definition bind {A B} (m : M A) (k : A -> M B) : M B :=
  fun s =>
    match m s with
    | (s', Ok a) => k a s'
    | (s', Raise e) => (s', Raise e)
    end.
Definition gets {A} (f : state -> A) : M A := fun s => (s, Ok (f s)).
Definition modify (f : state -> state) : M unit := fun s => (f s, Ok tt).
Definition lift {A} (r : result A) : M A := fun s => (s, r).

Notation "'do' x <- m ;; k" := (bind m (fun x => k))
  (at level 10, x name, m at level 99, k at level 200, only parsing).

(** [try: body  except Exception: pass] *)
Definition try_except_pass (body : M unit) : M unit :=
  fun s =>
    match body s with
    | (s', Raise e) => if is_Exception e then (s', Ok tt) else (s', Raise e)
    | r => r
    end.

(** The array behind a reference. *)
Definition deref (h : heap_t) (l : loc) : Np.ndarray := default [] (h !! l).

(** [a.copy()]: a new array object with the present contents of [a]. *)
Definition ndarray_copy (a : loc) : M loc :=
  fun s =>
    let l := fresh (dom (heap s)) in
    (set_heap (<[l := deref (heap s) a]> (heap s)) s, Ok l).

(** [self.vad.is_speech(pcm16, sample_rate)] *)
Definition vad_is_speech (pcm16 : list byte) (rate : Z) : M bool :=
  fun s =>
    match vad_obj s with
    | None => (s, Raise VadError)
    | Some v =>
        match is_speech v pcm16 rate with
        | (v', Some b) => (set_vad_obj (Some v') s, Ok b)
        | (v', None) => (set_vad_obj (Some v') s, Raise VadError)
        end
    end.

(** ** [callback], audio.py lines 76-106 *)
Definition callback (self : Recorder) (indata : loc) (frame_count : Z) : M unit :=
  let sample_rate := sample_rate (recording_config self) in
  (* Always capture the audio frame *)
  do c <- ndarray_copy indata ;;
  do _ <- modify (fun s => set_frames (frames s ++ [c]) s) ;;
  (* VAD logic - only if VAD is enabled *)
  do v <- gets vad_obj ;;
  match v with
  | None => ret tt
  | Some _ =>
      try_except_pass (
        (* Convert to PCM16 for webrtcvad *)
        do col <- (fun s => (s, Np.column0 (deref (heap s) indata))) ;;
        let pcm16 := _float_to_pcm16 col in
        do speech <- vad_is_speech pcm16 sample_rate ;;
        if (speech : bool) then
          do _ <- modify (set_has_detected_speech true) ;;
          modify (set_silence_duration Py.zero)
        else
          (* Only count silence after we've detected speech *)
          do detected <- gets has_detected_speech ;;
          if (detected : bool) then
            do d <- lift (Py.int_true_div frame_count sample_rate) ;;
            do _ <- modify (fun s => set_silence_duration (Py.add (silence_duration s) d) s) ;;
            do sd <- gets silence_duration ;;
            if Py.ge_int (Py.mul sd Py.f1000) (silence_ms_to_stop (vad_config self)) then
              do _ <- modify (set_recording_finished true) ;;
              raise CallbackStop
            else ret tt
          else ret tt)
  end.

(** ** The supervising loop and the stream, audio.py lines 108-129 *)

Record run_state := {
  st : state;
  ctl : control
}.

(** The backend fills its buffer and invokes the callback with
    [frame_count = len(indata)]. *)
Definition deliver (self : Recorder) (data : Np.ndarray) (s : state) : state :=
  let s1 := set_heap (<[driver_buffer := data]> (heap s)) s in
  fst (callback self driver_buffer (Z.of_nat (length data)) s1).

(** One evaluation of
    [while stream.active and (time.time() - start_time) < max_duration:]
    followed by [if recording_finished: break]. *)
Definition poll (self : Recorder) (start_time : Py.float)
    (active : bool) (now : Py.float) (s : state) : control :=
  if negb active then LoopDone ByInactive
  else if negb (Py.lt_int (Py.sub now start_time) (max_seconds (recording_config self)))
  then LoopDone ByTimeout
  else if recording_finished s then LoopDone BySilence
  else Waiting.

Definition step (self : Recorder) (start_time : Py.float)
    (rs : run_state) (ev : event) : run_state :=
  match ev with
  | Deliver data => {| st := deliver self data (st rs); ctl := ctl rs |}
  | Poll active now =>
      match ctl rs with
      | Waiting => {| st := st rs; ctl := poll self start_time active now (st rs) |}
      | _ => rs
      end
  | MainRaise e =>
      match ctl rs with
      | Raised _ => rs
      | _ => {| st := st rs; ctl := Raised e |}
      end
  end.

Definition run (self : Recorder) (start_time : Py.float)
    (rs : run_state) (evs : list event) : run_state :=
  fold_left (step self start_time) evs rs.

(** Lines 71-74: the closure variables as first assigned. *)
Definition initial_state (self : Recorder) : state :=
  {| heap := ∅; vad_obj := vad self; frames := [];
     silence_duration := Py.zero;
     has_detected_speech := false;
     recording_finished := false |}.

Definition initial (self : Recorder) : run_state :=
  {| st := initial_state self; ctl := Waiting |}.

(** [int(sample_rate * 0.02)], line 69. *)
Definition block_size (sample_rate : Z) : result Z :=
  match Py.float_of_int sample_rate with
  | Raise e => Raise e
  | Ok x => Py.int_of_float (Py.mul x Py.f0_02)
  end.

(** Line 145: [data[:, 0] if channels == 1 else data.reshape(-1)]. *)
Definition flattened (self : Recorder) (data : Np.ndarray) : result (list Np.float32) :=
  if channels (recording_config self) =? 1 then Np.column0 data
  else Ok (Np.reshape_flat data).

(** ** [_write_wav], lines 139-151.
    From line 147 on, the operating system and the [wave] module are taken
    to accept what they are given, and the file is what a completed write
    leaves: the header parameters set and the frames written. ([wave.open]
    can fail; the writer refuses a channel count below 1 and a rate that is
    not positive, and cannot pack header fields beyond their width; what is
    left on disk then is not a recording, and is not part of this model.) *)
Definition _write_wav (self : Recorder) (file_path : string)
    (data : Np.ndarray) (fs : filesystem) : filesystem * result unit :=
  if (Np.size data =? 0)%nat then (fs, Raise (AudioError "No audio captured"))
  else
    let sample_rate := sample_rate (recording_config self) in
    let channels := channels (recording_config self) in
    match flattened self data with
    | Raise e => (fs, Raise e)
    | Ok flattened =>
        let pcm_data := _float_to_pcm16 flattened in
        (<[file_path := {| nchannels := channels; sampwidth := 2;
                           framerate := sample_rate;
                           wav_frames := pcm_data |}]> fs, Ok tt)
    end.

(** The arrays the frame buffer refers to, in buffer order. *)
Definition buffered (s : state) : list Np.ndarray :=
  map (deref (heap s)) (frames s).

(** ** [_record_to_path], lines 65-137.
    [None]: the events given end while the loop is still waiting. *)
Definition _record_to_path (self : Recorder) (file_path : string)
    (start_time : Py.float) (evs : list event) (fs : filesystem)
    : option (filesystem * result unit) :=
  match block_size (sample_rate (recording_config self)) with
  | Raise e => Some (fs, Raise e)
  | Ok _ =>
      let rs := run self start_time (initial self) evs in
      let finish :=
        let signal_data :=
          match frames (st rs) with
          | [] => []   (* empty((0, channels)) *)
          | _ => Np.concatenate (buffered (st rs))
          end in
        Some (_write_wav self file_path signal_data fs) in
      match ctl rs with
      | Waiting => None
      | LoopDone _ => finish
      | Raised CallbackStop => finish
      | Raised e =>
          if is_Exception e
          then Some (fs, Raise (AudioError ("Failed to capture audio: " ++ exn_str e)))
          else Some (fs, Raise e)
      end
  end.

(** ** [record_once], lines 55-63. [dir] is the path given, as the string
    it was made from; [timestamp] is the formatted [datetime.utcnow()]; the
    path returned is given by its [str], which is what [wave.open] is handed.
    Directories are not part of [filesystem], and [mkdir] is taken to
    succeed. *)
Definition record_once (self : Recorder) (dir : option string)
    (timestamp : string) (start_time : Py.float) (evs : list event)
    (fs : filesystem) : option (filesystem * result string) :=
  let temp_directory :=
    Pathlib.Path
      match dir with Some d => d | None => temp_dir (recording_config self) end in
  let file_path :=
    Pathlib.str
      (Pathlib.truediv temp_directory ("omnivocal-" ++ timestamp ++ ".wav")%string) in
  match _record_to_path self file_path start_time evs fs with
  | None => None
  | Some (fs', Ok _) => Some (fs', Ok file_path)
  | Some (fs', Raise e) => Some (fs', Raise e)
  end.

(** ** [_command_once] up to the end of recording, cli.py lines 91-116.
    What follows a successful recording (transcription, clipboard) is not
    part of this model. *)
Inductive once_outcome :=
  | Return (code : Z) (console : string)
  | Recorded (file_path : string)
  | Propagated (e : exn).

Definition _command_once (no_vad : bool) (arg_temp_dir : option string)
    (rc : RecordingConfig) (vc : VadConfig)
    (timestamp : string) (start_time : Py.float) (evs : list event)
    (fs : filesystem) : option (filesystem * once_outcome) :=
  let vc := {| enabled := negb no_vad;
               silence_ms_to_stop := silence_ms_to_stop vc;
               aggressiveness := aggressiveness vc |} in
  let recorder := Recorder_init rc vc in
  (* Path(args.temp_dir) if args.temp_dir else None *)
  let dir :=
    match arg_temp_dir with
    | Some EmptyString => None
    | d => d
    end in
  match record_once recorder dir timestamp start_time evs fs with
  | None => None
  | Some (fs', Raise KeyboardInterrupt) => Some (fs', Return 1 "Recording interrupted")
  | Some (fs', Raise (AudioError msg)) => Some (fs', Return 1 ("Recording failed: " ++ msg))
  | Some (fs', Raise e) => Some (fs', Propagated e)
  | Some (fs', Ok file_path) => Some (fs', Recorded file_path)
  end.

(** ** Reading a run: what the classifier answered, what the counter saw *)

(** The outcome of lines 89-90 on one block, with the classifier's next
    state: the classifier is given the PCM16 encoding of channel 0. *)
Definition classify (self : Recorder) (v : V) (data : Np.ndarray) : V * verdict :=
  match Np.column0 data with
  | Raise _ => (v, Fault)
  | Ok col =>
      match is_speech v (_float_to_pcm16 col) (sample_rate (recording_config self)) with
      | (v', Some true) => (v', Speech)
      | (v', Some false) => (v', Silence)
      | (v', None) => (v', Fault)
      end
  end.

(** The classification of each of a sequence of blocks; empty when
    [self.vad is None]. *)
Fixpoint verdicts (self : Recorder) (vo : option V) (blocks : list Np.ndarray)
    : list verdict :=
  match blocks, vo with
  | data :: rest, Some v =>
      snd (classify self v data) :: verdicts self (Some (fst (classify self v data))) rest
  | _, _ => []
  end.

(** [frame_count / sample_rate] for a block: its duration in seconds. *)
Definition block_seconds (self : Recorder) (data : Np.ndarray) : result Py.float :=
  Py.int_true_div (Z.of_nat (length data)) (sample_rate (recording_config self)).

(** The test of line 101 on a value of the counter. *)
Definition reaches (self : Recorder) (x : Py.float) : bool :=
  Py.ge_int (Py.mul x Py.f1000) (silence_ms_to_stop (vad_config self)).

(** Durations added up from zero, in order, as [+=] does. *)
Definition accumulate (ds : list Py.float) : Py.float :=
  fold_left Py.add ds Py.zero.

(** The clock test of line 121. *)
Definition in_time (self : Recorder) (start_time now : Py.float) : bool :=
  Py.lt_int (Py.sub now start_time) (max_seconds (recording_config self)).

(** The three variables the stop decision depends on. *)
Definition view (s : state) : Py.float * bool * bool :=
  (silence_duration s, has_detected_speech s, recording_finished s).

(** Lines 93-103 as a function of the classification. *)
Definition track (self : Recorder) (x : Py.float * bool * bool)
    (vd : verdict) (data : Np.ndarray) : Py.float * bool * bool :=
  let '(sd, detected, finished) := x in
  match vd with
  | Speech => (Py.zero, true, finished)
  | Fault => x
  | Silence =>
      if detected then
        match block_seconds self data with
        | Raise _ => x
        | Ok d =>
            let sd' := Py.add sd d in
            (sd', detected, if reaches self sd' then true else finished)
        end
      else x
  end.

(** The state in which the callback body starts once the backend has
    filled its buffer and the copy has been appended. *)
Definition buffered_state (data : Np.ndarray) (s : state) : state :=
  let h := <[driver_buffer := data]> (heap s) in
  let l := fresh (dom h) in
  set_frames (frames s ++ [l]) (set_heap (<[l := data]> h) s).

(** The effect of one delivery: buffer the block, advance the classifier,
    apply [track]. *)
Definition delivered (self : Recorder) (data : Np.ndarray) (s : state) : state :=
  let s1 := buffered_state data s in
  match vad_obj s with
  | None => s1
  | Some v =>
      let x := track self (view s) (snd (classify self v data)) data in
      {| heap := heap s1;
         vad_obj := Some (fst (classify self v data));
         frames := frames s1;
         silence_duration := fst (fst x);
         has_detected_speech := snd (fst x);
         recording_finished := snd x |}
  end.

(** [track] along a list of classified blocks. *)
Fixpoint tracks (self : Recorder) (x : Py.float * bool * bool)
    (vds : list verdict) (blocks : list Np.ndarray) : Py.float * bool * bool :=
  match vds, blocks with
  | vd :: vds', data :: rest => tracks self (track self x vd data) vds' rest
  | _, _ => x
  end.

(** The classifier object after a sequence of blocks. *)
Fixpoint vad_after (self : Recorder) (vo : option V) (blocks : list Np.ndarray) : option V :=
  match blocks, vo with
  | data :: rest, Some v => vad_after self (Some (fst (classify self v data))) rest
  | _, _ => vo
  end.

(** Every frame reference is a private copy: allocated, and not the
    backend's buffer. *)
Definition heap_ok (s : state) : Prop :=
  Forall (fun l => l ≠ driver_buffer ∧ l ∈ dom (heap s)) (frames s).

(** Events that leave the main thread alone: blocks, and turns of the loop
    that find the stream active. *)
Definition undisturbed (ev : event) : Prop :=
  match ev with
  | Deliver _ => True
  | Poll active _ => active = true
  | MainRaise _ => False
  end.

(** The clock readings of a run stay below [max_seconds]. *)
Definition timely (self : Recorder) (start : Py.float) (ev : event) : bool :=
  match ev with
  | Poll _ now => in_time self start now
  | _ => true
  end.

(** The run got past the [with] block to line 131. *)
Definition stopped (c : control) : bool :=
  match c with
  | LoopDone _ | Raised CallbackStop => true
  | _ => false
  end.

(** The same recorder around another classifier object. *)
Definition with_vad (self : Recorder) (vo : option V) : Recorder :=
  {| recording_config := recording_config self;
     vad_config := vad_config self;
     vad := vo |}.


End Capture.

Arguments Recorder V : clear implicits.
Arguments state V : clear implicits.
Arguments run_state V : clear implicits.

(* ===================================================================== *)
(** * A classifier that replays a script *)
(* ===================================================================== *)

(** Every sequence of answers is the behaviour of some classifier: the
    state of this one is the list of answers still to give, and each call
    hands out the next ([None]: the call raises). A freshly constructed one
    has nothing to say. *)
#[export] Instance replay : Classifier (list (option bool)) :=
  {| Vad := fun _ => [];
     is_speech := fun v _ _ =>
       match v with
       | [] => ([], None)
       | a :: rest => (rest, a)
       end |}.

(* ===================================================================== *)
(** * Concrete runs *)
(* ===================================================================== *)

Module Examples.

(** [RecordingConfig()] as config.py defaults it. *)
Definition recording : RecordingConfig :=
  {| sample_rate := 16000; channels := 1; max_seconds := 180;
     temp_dir := "/tmp/omnivocal" |}.

(** [VadConfig()] with a threshold of two blocks (40 ms). *)
Definition vad_40ms : VadConfig :=
  {| enabled := true; silence_ms_to_stop := 40; aggressiveness := 2 |}.

(** A recorder whose classifier object is about to answer [script]. *)
Definition recorder (script : list (option bool)) : Recorder (list (option bool)) :=
  {| recording_config := recording; vad_config := vad_40ms; vad := Some script |}.

(** One 20 ms mono block at 16 kHz, all samples equal to [x]. *)
Definition block (x : Np.float32) : Np.ndarray := repeat [x] 320.

Definition quiet : Np.ndarray := block (S754_zero false).
Definition loud : Np.ndarray := block Np.one.

(** A clock reading of [n] seconds. *)
Definition seconds (n : Z) : Py.float := binary_normalize Py.prec Py.emax n 0 false.

(** 0.02 s, the duration of one block. *)
Definition d20ms : Py.float := Py.f0_02.

End Examples.

(* ===================================================================== *)
(** * The Chutes client (api.py): posting with retries *)
(* ===================================================================== *)

Set Warnings "-register-all".

Module Api.

(** A decoded JSON document, as [response.json()] returns it. *)
Inductive json :=
  | JNull
  | JBool (b : bool)
  | JInt (n : Z)
  | JFloat (x : Py.float)
  | JStr (s : string)
  | JList (items : list json)
  | JDict (fields : list (string * json)).

(** [f"{type(data)}"] *)
Definition type_str (data : json) : string :=
  match data with
  | JNull => "<class 'NoneType'>"
  | JBool _ => "<class 'bool'>"
  | JInt _ => "<class 'int'>"
  | JFloat _ => "<class 'float'>"
  | JStr _ => "<class 'str'>"
  | JList _ => "<class 'list'>"
  | JDict _ => "<class 'dict'>"
  end.

(** The exceptions the [except] clause of line 94 names, with [str(exc)]. *)
Inductive error :=
  | RequestException (msg : string)   (* requests: no connection, timeout, ... *)
  | ChutesAPIError (msg : string)
  | ValueError (msg : string).        (* the body is not JSON *)

Definition error_str (e : error) : string :=
  match e with
  | RequestException msg | ChutesAPIError msg | ValueError msg => msg
  end.

(** What the client reads off a [requests.Response]: what
    [raise_for_status()] raises, if anything ([str] of the [HTTPError]),
    and what [json()] gives ([inl msg]: it raises [ValueError(msg)]). *)
Record Response := {
  http_error : option string;
  json_body : string + json
}.

(** What one [session.post(...)] comes to. *)
Inductive post_outcome :=
  | PostRaises (msg : string)   (* a [requests.RequestException] *)
  | Responds (r : Response).

(** config.py, [ChutesConfig]. *)
Record ChutesConfig := {
  api_key : string;
  endpoint : string;
  timeout_seconds : Z;
  max_retries : Z
}.

(** What the client does to the outside world, in order. *)
Inductive effect :=
  | Post (attempt : Z)     (* the request of the given attempt is sent *)
  | Sleep (seconds : Z).   (* [time.sleep(seconds)] *)

(** [_raise_for_status], lines 137-141. *)
Definition _raise_for_status (response : Response) : error + unit :=
  match http_error response with
  | Some exc => inl (ChutesAPIError ("API request failed: " ++ exc))
  | None => inr tt
  end.

(** [str(n)] for an [int]. *)
Definition str_of_int (n : Z) : string := NilZero.string_of_int (Z.to_int n).

(** [str(last_error)] *)
Definition last_error_str (last_error : option error) : string :=
  match last_error with
  | None => "None"
  | Some exc => error_str exc
  end.

(** The body of the [try], lines 74-93, given what the POST came to. *)
Definition attempt_body (posted : post_outcome) (expect_empty_audio : bool)
    : error + list json :=
  match posted with
  | PostRaises msg => inl (RequestException msg)
  | Responds response =>
      match _raise_for_status response with
      | inl exc => inl exc
      | inr _ =>
          match json_body response with
          | inl msg => inl (ValueError msg)
          | inr data =>
              if expect_empty_audio then inr []
              else
                match data with
                | JList items => inr items
                | _ => inl (ChutesAPIError
                              ("Unexpected API response format: expected list, got "
                               ++ type_str data))
                end
          end
      end
  end.

(** Line 99. *)
Definition failed (retries : Z) (last_error : option error) : error :=
  ChutesAPIError ("Failed to contact Chutes API after " ++ str_of_int retries
                  ++ " attempts: " ++ last_error_str last_error).

(** The [for] loop of lines 72-98 over the attempts still to make, and the
    [raise] after it. [session_post attempt] is what the server does with
    the request of that attempt. *)
Fixpoint attempts (session_post : Z -> post_outcome) (expect_empty_audio : bool)
    (retries : Z) (todo : list Z) (last_error : option error)
    : list effect * (error + list json) :=
  match todo with
  | [] => ([], inl (failed retries last_error))
  | attempt :: rest =>
      match attempt_body (session_post attempt) expect_empty_audio with
      | inr data => ([Post attempt], inr data)
      | inl exc =>
          if attempt >=? retries
          then ([Post attempt], inl (failed retries (Some exc)))
          else
            let '(trace, r) :=
              attempts session_post expect_empty_audio retries rest (Some exc) in
            (Post attempt :: Sleep (Z.min (2 ^ attempt) 8) :: trace, r)
      end
  end.

(** [range(a, b)] *)
Definition range (a b : Z) : list Z :=
  map (fun i => a + Z.of_nat i) (seq 0 (Z.to_nat (b - a))).

(** [ChutesClient._post_with_retries], lines 69-99. *)
Definition _post_with_retries (config : ChutesConfig)
    (session_post : Z -> post_outcome) (expect_empty_audio : bool)
    : list effect * (error + list json) :=
  let retries := Z.max (max_retries config) 1 in
  attempts session_post expect_empty_audio retries (range 1 (retries + 1)) None.

(** [ChutesClient.test_connection], lines 60-67. *)
Definition test_connection (config : ChutesConfig) (session_post : Z -> post_outcome)
    : list effect * (error + list json) :=
  _post_with_retries config session_post true.

(** The requests sent and the pauses between them when [m] attempts are
    made: the pauses are of 2, 4, 8, 8, ... seconds. *)
Definition schedule (m : Z) : list effect :=
  flat_map (fun i => [Post i; Sleep (Z.min (2 ^ i) 8)]) (range 1 m) ++ [Post m].

End Api.

(* ===================================================================== *)
(** * Configuration dictionaries (config.py) *)
(* ===================================================================== *)

Module Config.

(** What the dictionaries of config.py hold: the values [toml.load]
    builds and the defaults of the dataclasses. A [dict] is the list of its
    items in insertion order; its keys are distinct. *)
Inductive value :=
  | VBool (b : bool)
  | VInt (n : Z)
  | VFloat (x : Py.float)
  | VStr (s : string)
  | VDatetime (iso : string)
  | VList (elements : list value)
  | VDict (items : list (string * value)).

Abbreviation dict := (list (string * value)).

(** [d.get(key)] *)
Fixpoint dict_get (d : dict) (key : string) : option value :=
  match d with
  | [] => None
  | (k, v) :: rest => if String.eqb k key then Some v else dict_get rest key
  end.

(** [d[key] = v]: an existing key keeps its place, a new one goes last. *)
Fixpoint dict_set (d : dict) (key : string) (v : value) : dict :=
  match d with
  | [] => [(key, v)]
  | (k, v0) :: rest =>
      if String.eqb k key then (k, v) :: rest else (k, v0) :: dict_set rest key v
  end.

(** [list(d)] *)
Definition keys (d : dict) : list string := map fst d.

Inductive error :=
  | ValueError (msg : string)
  | TypeError.

(** The built-in string operations config.py relies on; [None] stands for
    [ValueError]. *)
Class Builtins := {
  str_strip : string -> string;              (* s.strip() *)
  str_lower : string -> string;              (* s.lower() *)
  repr : value -> string;                    (* repr(v) *)
  int_of_str : string -> option Z;           (* int(s) *)
  float_of_str : string -> option Py.float   (* float(s) *)
}.

(** [s.split(sep)] for a one-character separator. *)
Fixpoint str_split (sep : ascii) (s : string) : list string :=
  match s with
  | EmptyString => [EmptyString]
  | String c rest =>
      if Ascii.eqb c sep then EmptyString :: str_split sep rest
      else
        match str_split sep rest with
        | piece :: pieces => String c piece :: pieces
        | [] => [String c EmptyString]
        end
  end.

(** [s.split(sep, 1)] when [sep in s]; [None] when it is not. *)
Fixpoint str_split1 (sep : ascii) (s : string) : option (string * string) :=
  match s with
  | EmptyString => None
  | String c rest =>
      if Ascii.eqb c sep then Some (EmptyString, rest)
      else
        match str_split1 sep rest with
        | Some (before, after) => Some (String c before, after)
        | None => None
        end
  end.

(** [s[n:]] *)
Fixpoint str_drop (n : nat) (s : string) : string :=
  match n, s with
  | S n', String _ rest => str_drop n' rest
  | _, _ => s
  end.

(** [c in s] *)
Fixpoint str_contains (c : ascii) (s : string) : bool :=
  match s with
  | EmptyString => false
  | String c' rest => Ascii.eqb c' c || str_contains c rest
  end.

(** [not s] *)
Definition str_empty (s : string) : bool :=
  match s with EmptyString => true | _ => false end.

(** [_split_key], lines 152-158; [str_split1] answers the test of line 153
    and makes the split of line 155. *)
Definition _split_key (key : string) : error + string * string :=
  match str_split1 "." key with
  | None => inl (ValueError "Key must be in section.option format")
  | Some (section, option) =>
      if str_empty section || str_empty option
      then inl (ValueError "Invalid configuration key")
      else inr (section, option)
  end.

Section WithBuiltins.

Context `{Builtins}.

(** [_bool], lines 18-27. *)
Definition _bool (v : value) : error + bool :=
  let fail := inl (ValueError ("Cannot coerce " ++ repr v ++ " to bool")) in
  match v with
  | VBool b => inr b
  | VStr s =>
      let value_lower := str_lower (str_strip s) in
      if bool_decide (value_lower ∈ ["1"; "true"; "yes"; "on"]%string) then inr true
      else if bool_decide (value_lower ∈ ["0"; "false"; "no"; "off"]%string) then inr false
      else fail
  | _ => fail
  end.

(** [_coerce], lines 30-37: the string is converted to the type of the
    value it is to replace. *)
Definition _coerce (v : string) (target : value) : error + value :=
  match target with
  | VBool _ =>
      match _bool (VStr v) with
      | inr b => inr (VBool b)
      | inl e => inl e
      end
  | VInt _ =>
      match int_of_str v with
      | Some n => inr (VInt n)
      | None => inl (ValueError ("invalid literal for int() with base 10: "
                                 ++ repr (VStr v)))
      end
  | VFloat _ =>
      match float_of_str v with
      | Some x => inr (VFloat x)
      | None => inl (ValueError ("could not convert string to float: "
                                 ++ repr (VStr v)))
      end
  | _ => inr (VStr v)
  end.

(** Lines 175-181: the option an environment variable names, if any. *)
Definition env_target (env_key : string) : option (string * string) :=
  let prefix := "OMNIVOCAL_"%string in
  if String.prefix prefix env_key then
    let path := str_split "_" (str_lower (str_drop (String.length prefix) env_key)) in
    match path with
    | section :: (_ :: _) as rest => Some (section, String.concat "_" rest)
    | _ => None
    end
  else None.

(** One turn of the loop of [_apply_env_overrides], lines 174-186. A
    [KeyError] or [ValueError] leaves the dictionary alone; indexing a
    section that is not a table is a [TypeError], which is not caught. *)
Definition override (config : dict) (env_key env_value : string) : error + dict :=
  match env_target env_key with
  | None => inr config
  | Some (section, option) =>
      match dict_get config section with
      | None => inr config
      | Some (VDict options) =>
          match dict_get options option with
          | None => inr config
          | Some current =>
              match _coerce env_value current with
              | inr coerced =>
                  inr (dict_set config section (VDict (dict_set options option coerced)))
              | inl (ValueError _) => inr config
              | inl e => inl e
              end
          end
      | Some _ => inl TypeError
      end
  end.

(** [_apply_env_overrides], lines 171-187; [environ] is
    [os.environ.items()]. *)
Fixpoint _apply_env_overrides (environ : list (string * string)) (config : dict)
    : error + dict :=
  match environ with
  | [] => inr config
  | (env_key, env_value) :: rest =>
      match override config env_key env_value with
      | inl e => inl e
      | inr config' => _apply_env_overrides rest config'
      end
  end.

End WithBuiltins.

(** The loop of [_merge_dicts] over the items of [overrides], with
    [merged] as built so far. *)
Fixpoint merge_items (overrides : value) (merged : dict) {struct overrides} : dict :=
  match overrides with
  | VDict items =>
      (fix loop (items : dict) (merged : dict) {struct items} : dict :=
         match items with
         | [] => merged
         | (key, v) :: rest =>
             loop rest
               match v, dict_get merged key with
               | VDict _, Some (VDict d) => dict_set merged key (VDict (merge_items v d))
               | _, _ => dict_set merged key v
               end
         end) items merged
  | _ => merged
  end.

(** [_merge_dicts], lines 161-168. *)
Definition _merge_dicts (defaults overrides : dict) : dict :=
  merge_items (VDict overrides) defaults.

(** [_default_config_dict()], line 108: the dataclass defaults of lines
    40-91. *)
Definition _default_config_dict : dict :=
  [("chutes", VDict [("api_key", VStr EmptyString);
                     ("endpoint", VStr "https://chutes-whisper-large-v3.chutes.ai/transcribe");
                     ("timeout_seconds", VInt 30);
                     ("max_retries", VInt 3)]);
   ("recording", VDict [("sample_rate", VInt 16000);
                        ("channels", VInt 1);
                        ("max_seconds", VInt 180);
                        ("format", VStr "wav");
                        ("temp_dir", VStr "/tmp/omnivocal")]);
   ("vad", VDict [("enabled", VBool true);
                  ("silence_ms_to_stop", VInt 1200);
                  ("aggressiveness", VInt 2)]);
   ("clipboard", VDict [("enabled", VBool true);
                        ("command", VStr "wl-copy")]);
   ("notifications", VDict [("enabled", VBool true);
                            ("command", VStr "notify-send");
                            ("title", VStr "Omnivocal")]);
   ("ui", VDict [("show_segments", VBool false);
                 ("show_timing", VBool false);
                 ("auto_copy", VBool true)])]%string.

(** A dataclass constructor called as [section_type( **section_data)]:
    [fields] are the fields with their defaults. Anything but a mapping, and
    any keyword that is not a field, is a [TypeError]; the values are taken
    as they come. The instance is the list of its fields. *)
Definition dataclass_init (fields : dict) (section_data : value) : error + dict :=
  match section_data with
  | VDict kwargs =>
      if forallb (fun k => bool_decide (k ∈ keys fields)) (keys kwargs)
      then inr (map (fun '(k, v0) => (k, default v0 (dict_get kwargs k))) fields)
      else inl TypeError
  | _ => inl TypeError
  end.

(** The loop of [OmnivocalConfig.from_dict], lines 100-104, over the
    sections [classes] still to build. *)
Fixpoint from_dict_loop (classes : dict) (data : dict) : error + dict :=
  match classes with
  | [] => inr []
  | (section_name, section_type) :: rest =>
      let section_data := default (VDict []) (dict_get data section_name) in
      match section_type with
      | VDict fields =>
          match dataclass_init fields section_data with
          | inl e => inl e
          | inr instance =>
              match from_dict_loop rest data with
              | inl e => inl e
              | inr kwargs => inr ((section_name, VDict instance) :: kwargs)
              end
          end
      | _ => inl TypeError
      end
  end.

(** [OmnivocalConfig.from_dict], lines 96-105: the six section classes are
    those of [_default_config_dict]. *)
Definition from_dict (data : dict) : error + dict :=
  from_dict_loop _default_config_dict data.

(** [config[section][option]] where both exist. *)
Definition lookup2 (config : dict) (section name : string) : option value :=
  match dict_get config section with
  | Some (VDict options) => dict_get options name
  | _ => None
  end.

(** The Python type of a value. *)
Inductive kind := KBool | KInt | KFloat | KStr | KDatetime | KList | KDict.

Definition kind_of (v : value) : kind :=
  match v with
  | VBool _ => KBool
  | VInt _ => KInt
  | VFloat _ => KFloat
  | VStr _ => KStr
  | VDatetime _ => KDatetime
  | VList _ => KList
  | VDict _ => KDict
  end.

(** The type an option has once a string has been coerced to it. *)
Definition coerced_kind (k : kind) : kind :=
  match k with
  | KBool => KBool
  | KInt => KInt
  | KFloat => KFloat
  | _ => KStr
  end.

(** The shape a configuration keeps: the same keys, and values of the
    same type where a string can be coerced to it. *)
Definition same_shape (config config' : dict) : Prop :=
  keys config' = keys config
  /\ forall section name,
       match lookup2 config section name with
       | None => lookup2 config' section name = None
       | Some v =>
           exists v', lookup2 config' section name = Some v'
             /\ (v' = v \/ kind_of v' = coerced_kind (kind_of v))
       end.

(** [load_config], lines 120-126, from the parsed file on: [data] is
    [toml.load(config_path)]. *)
Definition load_config `{Builtins} (data : dict) (environ : list (string * string))
    : error + dict :=
  let defaults := _default_config_dict in
  let merged := _merge_dicts defaults data in
  match _apply_env_overrides environ merged with
  | inl e => inl e
  | inr merged => from_dict merged
  end.

(** The one step of [_merge_dicts] for an item [(key, v)]. *)
Definition merge_item (merged : dict) (key : string) (v : value) : dict :=
  match v, dict_get merged key with
  | VDict items, Some (VDict d) => dict_set merged key (VDict (_merge_dicts d items))
  | _, _ => dict_set merged key v
  end.

End Config.

(* ===================================================================== *)
(** * The [once] command from end to end (cli.py, ui.py) *)
(* ===================================================================== *)

Module Cli.

(** config.py: [ClipboardConfig], [NotificationsConfig] and [UIConfig];
    the fields [enabled] and [command] carry the name of their section. *)
Record ClipboardConfig := {
  clipboard_enabled : bool;
  clipboard_command : string
}.

Record NotificationsConfig := {
  notifications_enabled : bool;
  notifications_command : string;
  notifications_title : string
}.

Record UIConfig := {
  show_segments : bool;
  show_timing : bool;
  auto_copy : bool
}.

(** The exceptions that travel through cli.py. *)
Inductive error :=
  | UIError (msg : string)           (* omnivocal.ui.UIError *)
  | ChutesAPIError (msg : string)    (* omnivocal.api.ChutesAPIError *)
  | OtherError (msg : string)        (* any other subclass of Exception *)
  | FromRecorder (e : exn).          (* raised by audio.py, unchanged *)

(** [isinstance(e, Exception)] *)
Definition error_is_Exception (e : error) : bool :=
  match e with
  | FromRecorder e => is_Exception e
  | _ => true
  end.

(** [subprocess.run(argv, input=..., check=True)] *)
Record process := {
  argv : list string;
  input : option string
}.

Inductive run_outcome :=
  | Completed
  | FileNotFoundError
  | CalledProcessError (msg : string)
  | RunError (msg : string).         (* any other Exception, e.g. PermissionError *)

(** What [ChutesClient.transcribe] comes to. *)
Inductive transcription :=
  | Transcript (text : string) (segments : list string)
  | ApiFailure (msg : string)        (* ChutesAPIError *)
  | Crash (msg : string).            (* any other Exception *)

(** The world outside the program. *)
Record os := {
  which : string -> option string;                    (* shutil.which *)
  subprocess_run : process -> run_outcome;
  client_transcribe : option wav_file -> option string -> transcription;
                                    (* on the file read, with the language hint *)
  unlink_raises : string -> bool                      (* Path.unlink fails *)
}.

(** The processes started, in order, each with how it ended. *)
Abbreviation trace := (list (process * run_outcome)).

(** [ui.copy_to_clipboard], ui.py lines 20-29. *)
Definition copy_to_clipboard (env : os) (text : string) (config : ClipboardConfig)
    : trace * (error + unit) :=
  if negb (clipboard_enabled config) then ([], inr tt)
  else
    let command := default (clipboard_command config) (which env (clipboard_command config)) in
    let p := {| argv := [command]; input := Some text |} in
    match subprocess_run env p with
    | Completed => ([(p, Completed)], inr tt)
    | FileNotFoundError =>
        ([(p, FileNotFoundError)],
         inl (UIError ("Clipboard command not found: " ++ clipboard_command config)))
    | CalledProcessError exc =>
        ([(p, CalledProcessError exc)], inl (UIError ("Clipboard command failed: " ++ exc)))
    | RunError exc => ([(p, RunError exc)], inl (OtherError exc))
    end.

(** [ui.send_notification], ui.py lines 32-41. *)
Definition send_notification (env : os) (message : string) (config : NotificationsConfig)
    : trace * (error + unit) :=
  if negb (notifications_enabled config) then ([], inr tt)
  else
    let command :=
      default (notifications_command config) (which env (notifications_command config)) in
    let p := {| argv := [command; notifications_title config; message]; input := None |} in
    match subprocess_run env p with
    | Completed => ([(p, Completed)], inr tt)
    | FileNotFoundError =>
        ([(p, FileNotFoundError)],
         inl (UIError ("Notification command not found: " ++ notifications_command config)))
    | CalledProcessError exc =>
        ([(p, CalledProcessError exc)], inl (UIError ("Notification command failed: " ++ exc)))
    | RunError exc => ([(p, RunError exc)], inl (OtherError exc))
    end.

(** [try: send_notification(...)  except Exception: console.print(...)] *)
Definition notify (env : os) (message : string) (config : NotificationsConfig) : trace :=
  fst (send_notification env message config).

(** [_transcribe_file], cli.py lines 189-216. *)
Definition _transcribe_file (env : os) (fs : filesystem) (file_path : string)
    (notifications : NotificationsConfig) (language : option string)
    : trace * (error + string * list string) :=
  let t1 := notify env "Transcribing audio" notifications in
  match client_transcribe env (fs !! file_path) language with
  | ApiFailure exc => (t1, inl (ChutesAPIError exc))
  | Crash exc => (t1, inl (OtherError exc))
  | Transcript text segments =>
      let t2 := notify env "Transcription complete" notifications in
      (t1 ++ t2, inr (text, segments))
  end.

(** How a command ends: with a return code, or with an exception that
    nothing catches. *)
Inductive exit :=
  | Exit (code : Z)
  | Uncaught (e : error).

Section Once.

Context `{Classifier V}.

(** The whole of [_command_once], cli.py lines 90-129: the recording of
    lines 91-116 is [_command_once] above, and this adds the notification
    before it and what follows it. *)
Definition _command_once_whole (env : os)
    (no_vad auto : bool) (arg_temp_dir language : option string)
    (rc : RecordingConfig) (vc : VadConfig)
    (clipboard : ClipboardConfig) (notifications : NotificationsConfig) (ui : UIConfig)
    (timestamp : string) (start_time : Py.float) (evs : list event)
    (fs : filesystem) : option (filesystem * trace * (error + Z)) :=
  let t0 := notify env "Recording started" notifications in
  match _command_once (V := V) no_vad arg_temp_dir rc vc timestamp start_time evs fs with
  | None => None
  | Some (fs1, Return code _) => Some (fs1, t0, inr code)
  | Some (fs1, Propagated e) => Some (fs1, t0, inl (FromRecorder e))
  | Some (fs1, Recorded file_path) =>
      match _transcribe_file env fs1 file_path notifications language with
      | (t1, inl e) => Some (fs1, t0 ++ t1, inl e)
      | (t1, inr (text, _)) =>
          let '(t2, copied) :=
            if auto || auto_copy ui then copy_to_clipboard env text clipboard
            else ([], inr tt) in
          match copied with
          | inl e => Some (fs1, t0 ++ t1 ++ t2, inl e)
          | inr _ =>
              (* Cleanup temp file *)
              let fs2 := if unlink_raises env file_path then fs1
                         else delete file_path fs1 in
              Some (fs2, t0 ++ t1 ++ t2, inr 0)
          end
      end
  end.

(** [main] on the [once] command, cli.py lines 68-84, with the
    configuration loaded. *)
Definition main_once (env : os)
    (no_vad auto : bool) (arg_temp_dir language : option string)
    (rc : RecordingConfig) (vc : VadConfig)
    (clipboard : ClipboardConfig) (notifications : NotificationsConfig) (ui : UIConfig)
    (timestamp : string) (start_time : Py.float) (evs : list event)
    (fs : filesystem) : option (filesystem * trace * exit) :=
  match _command_once_whole env no_vad auto arg_temp_dir language rc vc
          clipboard notifications ui timestamp start_time evs fs with
  | None => None
  | Some (fs', t, inr code) => Some (fs', t, Exit code)
  | Some (fs', t, inl e) =>
      if error_is_Exception e then Some (fs', t, Exit 1)
      else Some (fs', t, Uncaught e)
  end.

End Once.

End Cli.

(* ===================================================================== *)
(** * More concrete data *)
(* ===================================================================== *)

Module MoreExamples.

Import Examples.

(** A server that refuses the connection, then answers 503, then answers
    with one segment. *)
Definition flaky_server (attempt : Z) : Api.post_outcome :=
  if attempt =? 1 then Api.PostRaises "Connection refused"
  else if attempt =? 2 then
    Api.Responds {| Api.http_error := Some "503 Server Error"; Api.json_body := inl EmptyString |}
  else
    Api.Responds {| Api.http_error := None;
                    Api.json_body :=
                      inr (Api.JList [Api.JDict [("text", Api.JStr "hello")]]) |}.

(** [ChutesConfig] with the given [max_retries]. *)
Definition chutes (n : Z) : Api.ChutesConfig :=
  {| Api.api_key := "key";
     Api.endpoint := "https://chutes-whisper-large-v3.chutes.ai/transcribe";
     Api.timeout_seconds := 30;
     Api.max_retries := n |}.

(** ASCII white space. *)
Definition is_space (c : ascii) : bool :=
  let n := nat_of_ascii c in
  ((9 <=? n) && (n <=? 13) || (n =? 32))%nat.

Fixpoint lstrip (s : string) : string :=
  match s with
  | String c rest => if is_space c then lstrip rest else s
  | EmptyString => s
  end.

Definition ascii_lower (c : ascii) : ascii :=
  let n := nat_of_ascii c in
  if ((65 <=? n) && (n <=? 90))%nat then ascii_of_nat (n + 32) else c.

Fixpoint lower (s : string) : string :=
  match s with
  | String c rest => String (ascii_lower c) (lower rest)
  | EmptyString => EmptyString
  end.

(** Decimal integers without a plus sign or underscores. *)
Definition parse_int (s : string) : option Z :=
  let t := String.rev (lstrip (String.rev (lstrip s))) in
  match NilEmpty.int_of_string t with
  | Some (Decimal.Pos Decimal.Nil) | Some (Decimal.Neg Decimal.Nil) | None => None
  | Some i => Some (Z.of_int i)
  end.

(** The built-ins on plain ASCII text: a part of what Python accepts. *)
#[export] Instance plain_ascii : Config.Builtins :=
  {| Config.str_strip := fun s => String.rev (lstrip (String.rev (lstrip s)));
     Config.str_lower := lower;
     Config.repr := fun v =>
       match v with
       | Config.VStr s => ("'" ++ s ++ "'")%string
       | _ => "..."%string
       end;
     Config.int_of_str := parse_int;
     Config.float_of_str := fun s =>
       match parse_int s with
       | Some n => match Py.float_of_int n with Ok x => Some x | Raise _ => None end
       | None => None
       end |}.

(** A configuration file that sets one option and has a section of its
    own. *)
Definition partial_file : Config.dict :=
  [("vad", Config.VDict [("silence_ms_to_stop", Config.VInt 800)]);
   ("profile", Config.VDict [("name", Config.VStr "quiet")])]%string.

(** A configuration file with a misspelt option. *)
Definition misspelt_file : Config.dict :=
  [("vad", Config.VDict [("silence_ms", Config.VInt 800)])]%string.

Definition environment : list (string * string) :=
  [("HOME", "/root"); ("OMNIVOCAL_VAD_SILENCE_MS_TO_STOP", " 800 ")]%string.

(** The [vad] section of the defaults with the threshold at 800 ms. *)
Definition vad_800 : Config.value :=
  Config.VDict [("enabled", Config.VBool true);
                ("silence_ms_to_stop", Config.VInt 800);
                ("aggressiveness", Config.VInt 2)]%string.

(** A block of two mono frames. *)
Definition two_frames : Np.ndarray := [[Np.one]; [Np.minus_one]].

(** The recording [two_frames] makes. *)
Definition two_frames_wav : wav_file :=
  {| nchannels := 1; sampwidth := 2; framerate := 16000;
     wav_frames := _float_to_pcm16 [Np.one; Np.minus_one] |}.

Definition wav_path : string := "/tmp/omnivocal/omnivocal-20240101T000000.wav".

Definition clipboard : Cli.ClipboardConfig :=
  {| Cli.clipboard_enabled := true; Cli.clipboard_command := "wl-copy" |}.

Definition notifications : Cli.NotificationsConfig :=
  {| Cli.notifications_enabled := true;
     Cli.notifications_command := "notify-send";
     Cli.notifications_title := "Omnivocal" |}.

Definition ui : Cli.UIConfig :=
  {| Cli.show_segments := false; Cli.show_timing := false; Cli.auto_copy := true |}.

(** A machine with [wl-copy] installed and no [notify-send], and a service
    that answers as given. *)
Definition machine (answer : Cli.transcription) : Cli.os :=
  {| Cli.which := fun command =>
       if String.eqb command "wl-copy" then Some "/usr/bin/wl-copy"%string else None;
     Cli.subprocess_run := fun p =>
       match Cli.argv p with
       | ["/usr/bin/wl-copy"%string] => Cli.Completed
       | _ => Cli.FileNotFoundError
       end;
     Cli.client_transcribe := fun _ _ => answer;
     Cli.unlink_raises := fun _ => false |}.

End MoreExamples.


(* ===================================================================== *)
(** * Facts about the floating-point operations *)
(* ===================================================================== *)

Lemma digits2_pos_size p : digits2_pos p = Pos.size p.
Proof. induction p as [p IH|p IH|]; simpl; congruence. Qed.

Lemma Zdigits2_log2 M : 0 < M -> Zdigits2 M = Z.log2 M + 1.
Proof.
  destruct M as [|p|p]; try lia. intros _. simpl.
  destruct p as [p|p|]; simpl; rewrite ?digits2_pos_size; lia.
Qed.

Lemma Zdigits2_bounds M :
  0 < M -> 0 < Zdigits2 M /\ 2 ^ (Zdigits2 M - 1) <= M < 2 ^ Zdigits2 M.
Proof.
  intros HM. rewrite (Zdigits2_log2 M HM).
  pose proof (Z.log2_spec M HM) as Hs.
  pose proof (Z.log2_nonneg M) as Hn.
  replace (Z.log2 M + 1 - 1) with (Z.log2 M) by lia.
  unfold Z.succ in Hs. lia.
Qed.

Lemma Zdigits2_unique M d :
  0 < d -> 2 ^ (d - 1) <= M < 2 ^ d -> Zdigits2 M = d.
Proof.
  intros Hd HM.
  assert (0 < M) by (pose proof (Z.pow_pos_nonneg 2 (d - 1)); lia).
  rewrite Zdigits2_log2 by done.
  rewrite (Z.log2_unique M (d - 1)); try lia.
  unfold Z.succ. replace (d - 1 + 1) with d by lia. exact HM.
Qed.

Lemma shr_1_nonneg m r s :
  0 <= m ->
  shr_1 {| shr_m := m; shr_r := r; shr_s := s |}
  = {| shr_m := m / 2; shr_r := Z.odd m; shr_s := r || s |}.
Proof.
  intros Hm. rewrite <- Z.div2_div.
  destruct m as [|p|p]; [reflexivity| |lia].
  destruct p; reflexivity.
Qed.

Lemma iter_pos_nat {A} (f : A -> A) p x :
  SpecFloat.iter_pos f p x = Nat.iter (Pos.to_nat p) f x.
Proof.
  revert x. induction p as [p IH|p IH|]; intros x; cbn [SpecFloat.iter_pos].
  - rewrite !IH, Pos2Nat.inj_xI, <- Nat.iter_add, Nat.iter_swap.
    replace (Pos.to_nat p + Pos.to_nat p)%nat with (2 * Pos.to_nat p)%nat by lia.
    reflexivity.
  - rewrite !IH, Pos2Nat.inj_xO, <- Nat.iter_add.
    replace (Pos.to_nat p + Pos.to_nat p)%nat with (2 * Pos.to_nat p)%nat by lia.
    reflexivity.
  - reflexivity.
Qed.

Lemma shr_iter k M r0 s0 :
  0 <= M ->
  let R := Nat.iter k shr_1 {| shr_m := M; shr_r := r0; shr_s := s0 |} in
  shr_m R = M / 2 ^ Z.of_nat k
  /\ ((0 < k)%nat -> shr_r R = Z.odd (M / 2 ^ (Z.of_nat k - 1))).
Proof.
  intros HM. induction k as [|k IH].
  - simpl. split; [by rewrite Z.div_1_r|lia].
  - cbv zeta in *. rewrite Nat.iter_succ.
    destruct (Nat.iter k shr_1 _) as [m r s]. simpl in IH.
    destruct IH as [Hm Hr].
    assert (0 <= m) by (subst m; apply Z.div_pos; [lia|apply Z.pow_pos_nonneg; lia]).
    rewrite shr_1_nonneg by done. cbn [shr_m shr_r].
    rewrite Nat2Z.inj_succ. unfold Z.succ.
    split.
    + subst m. rewrite Z.pow_add_r, Z.pow_1_r by lia.
      rewrite Z.div_div; try lia.
    + intros _. subst m. by replace (Z.of_nat k + 1 - 1) with (Z.of_nat k) by lia.
Qed.

Lemma shr_pos M E n :
  0 <= M -> 0 < n ->
  exists sticky,
    shr {| shr_m := M; shr_r := false; shr_s := false |} E n
    = ({| shr_m := M / 2 ^ n; shr_r := Z.odd (M / 2 ^ (n - 1)); shr_s := sticky |},
       E + n).
Proof.
  intros HM Hn. destruct n as [|p|p]; try lia.
  unfold shr. rewrite iter_pos_nat.
  destruct (shr_iter (Pos.to_nat p) M false false HM) as [Hm Hr].
  rewrite positive_nat_Z in Hm, Hr.
  destruct (Nat.iter _ _ _) as [m r s]. simpl in *.
  exists s. rewrite Hm, Hr by lia. reflexivity.
Qed.

Lemma round_nearest_even_bounds m l :
  m <= round_nearest_even m l <= m + 1.
Proof.
  destruct l as [|[]]; simpl; try lia. destruct (Z.even m); lia.
Qed.

Lemma round_nearest_even_down m s :
  round_nearest_even m
    (loc_of_shr_record {| shr_m := m; shr_r := false; shr_s := s |}) = m.
Proof. by destruct s. Qed.


Lemma shl_align_spec mx ex ex' :
  ex' <= ex ->
  shl_align mx ex ex' = (Z.to_pos (Zpos mx * 2 ^ (ex - ex')), ex').
Proof.
  intros Hle. unfold shl_align.
  destruct (ex' - ex) as [|d|d] eqn:Hd; try lia.
  - assert (ex' = ex) as -> by lia. rewrite Z.sub_diag, Z.mul_1_r. reflexivity.
  - replace (ex - ex') with (Zpos d) by lia.
    f_equal.
    change (Pos.iter xO mx d) with (shift_pos d mx).
    apply Pos2Z.inj. rewrite shift_pos_correct, Z.pow_pos_fold.
    rewrite Z2Pos.id; [lia|].
    pose proof (Z.pow_pos_nonneg 2 (Zpos d)). lia.
Qed.

Section Rounding.

Variables prec emax : Z.

Lemma shr_fexp_exact M E :
  fexp prec emax (Zdigits2 M + E) <= E ->
  shr_fexp prec emax M E loc_Exact
  = ({| shr_m := M; shr_r := false; shr_s := false |}, E).
Proof.
  intros Hle. unfold shr_fexp, shr. simpl.
  destruct (fexp prec emax (Zdigits2 M + E) - E) eqn:Hn; try reflexivity. lia.
Qed.

Lemma shr_fexp_shift M E :
  0 <= M ->
  E < fexp prec emax (Zdigits2 M + E) ->
  let n := fexp prec emax (Zdigits2 M + E) - E in
  exists sticky,
    shr_fexp prec emax M E loc_Exact
    = ({| shr_m := M / 2 ^ n; shr_r := Z.odd (M / 2 ^ (n - 1)); shr_s := sticky |},
       E + n).
Proof.
  intros HM Hlt n. unfold shr_fexp. simpl. apply shr_pos; [done|]. subst n. lia.
Qed.

(** A positive integer times a power of two that already fits the format
    is kept as it is. *)
Lemma round_aux_exact s M E :
  0 < M ->
  fexp prec emax (Zdigits2 M + E) <= E ->
  binary_round_aux prec emax s M E loc_Exact
  = if E <=? emax - prec then S754_finite s (Z.to_pos M) E else S754_infinity s.
Proof.
  intros HM Hle. unfold binary_round_aux.
  rewrite shr_fexp_exact by done. simpl.
  rewrite shr_fexp_exact by done. simpl.
  destruct M; try lia. reflexivity.
Qed.

(** Rounding to nearest when the first discarded bit is zero: the low bits
    are dropped. *)
Lemma round_aux_down s M E :
  0 < M ->
  E < fexp prec emax (Zdigits2 M + E) ->
  let n := fexp prec emax (Zdigits2 M + E) - E in
  Z.odd (M / 2 ^ (n - 1)) = false ->
  0 < M / 2 ^ n ->
  fexp prec emax (Zdigits2 (M / 2 ^ n) + (E + n)) <= E + n ->
  binary_round_aux prec emax s M E loc_Exact
  = if E + n <=? emax - prec then S754_finite s (Z.to_pos (M / 2 ^ n)) (E + n)
    else S754_infinity s.
Proof.
  intros HM Hlt n Hodd Hpos Hfit. unfold binary_round_aux.
  destruct (shr_fexp_shift M E (Z.lt_le_incl _ _ HM) Hlt) as [sticky ->].
  fold n. rewrite Hodd. cbn [shr_m].
  rewrite round_nearest_even_down, shr_fexp_exact by done. simpl.
  destruct (M / 2 ^ n); try lia. reflexivity.
Qed.

(** In general the result is the rounded mantissa, shifted once more if
    rounding carried into a new digit: never more than one unit of the
    rounding grid above the exact value. *)
Lemma round_aux_shape s M E :
  0 < M ->
  exists m2 e1 n2,
    0 <= n2 /\ 0 <= m2
    /\ (fexp prec emax (Zdigits2 M + E) <= E -> m2 = M /\ e1 = E)
    /\ (E < fexp prec emax (Zdigits2 M + E) ->
        e1 = fexp prec emax (Zdigits2 M + E)
        /\ M / 2 ^ (e1 - E) <= m2 <= M / 2 ^ (e1 - E) + 1)
    /\ binary_round_aux prec emax s M E loc_Exact
       = match m2 / 2 ^ n2 with
         | Z0 => S754_zero s
         | Zpos mf =>
             if e1 + n2 <=? emax - prec then S754_finite s mf (e1 + n2)
             else S754_infinity s
         | Zneg _ => S754_nan
         end.
Proof.
  intros HM. unfold binary_round_aux.
  assert (Hstage2 : forall m2 e1, 0 <= m2 ->
    exists n2, 0 <= n2 /\
      shr_fexp prec emax m2 e1 loc_Exact
      = (fst (shr_fexp prec emax m2 e1 loc_Exact), e1 + n2)
      /\ shr_m (fst (shr_fexp prec emax m2 e1 loc_Exact)) = m2 / 2 ^ n2).
  { intros m2 e1 Hm2.
    destruct (Z_le_gt_dec (fexp prec emax (Zdigits2 m2 + e1)) e1) as [Hle|Hgt].
    - exists 0. rewrite shr_fexp_exact by done. simpl.
      rewrite Z.add_0_r, Z.div_1_r. done.
    - destruct (shr_fexp_shift m2 e1 Hm2) as [sticky Hs]; [lia|].
      exists (fexp prec emax (Zdigits2 m2 + e1) - e1). rewrite Hs. simpl.
      split; [lia|done]. }
  destruct (Z_le_gt_dec (fexp prec emax (Zdigits2 M + E)) E) as [Hle|Hgt].
  - rewrite shr_fexp_exact by done. simpl.
    destruct (Hstage2 M E) as (n2 & Hn2 & Hs & Hm); [lia|].
    exists M, E, n2. rewrite Hs, Hm.
    split; [done|]. split; [lia|]. split; [done|]. split; [lia|done].
  - destruct (shr_fexp_shift M E) as [sticky Hs]; [lia|lia|]. rewrite Hs.
    cbn [shr_m].
    set (n := fexp prec emax (Zdigits2 M + E) - E) in *.
    set (m1 := M / 2 ^ n).
    set (m2 := round_nearest_even m1 _).
    assert (Hm1 : 0 <= m1) by (apply Z.div_pos; [lia|apply Z.pow_pos_nonneg; lia]).
    pose proof (round_nearest_even_bounds m1
      (loc_of_shr_record {| shr_m := m1; shr_r := Z.odd (M / 2 ^ (n - 1)); shr_s := sticky |}))
      as Hb.
    fold m2 in Hb.
    destruct (Hstage2 m2 (E + n)) as (n2 & Hn2 & Hs2 & Hm); [lia|].
    exists m2, (E + n), n2. rewrite Hs2, Hm.
    split; [done|]. split; [lia|]. split; [lia|]. split; [|done].
    intros _. split; [subst n; lia|].
    replace (E + n - E) with n by lia. done.
Qed.

End Rounding.


Lemma fexp64 e : fexp Py.prec Py.emax e = Z.max (e - 53) (-1074).
Proof. reflexivity. Qed.

(** An integer below 2^53 converts exactly. *)
Lemma float_of_int_exact n :
  0 < n < 2 ^ 53 ->
  Py.float_of_int n
  = Ok (S754_finite false (Z.to_pos (n * 2 ^ (53 - Zdigits2 n))) (Zdigits2 n - 53)).
Proof.
  intros Hn.
  destruct (Zdigits2_bounds n) as (Hd0 & Hlo & Hhi); [lia|].
  set (d := Zdigits2 n) in *.
  assert (Hd : d <= 53).
  { destruct (Z_le_gt_dec d 53); [done|].
    assert (2 ^ 53 <= 2 ^ (d - 1)) by (apply Z.pow_le_mono_r; lia). lia. }
  unfold Py.float_of_int, binary_normalize.
  destruct n as [|p|p]; try lia.
  unfold binary_round.
  change (Zpos (digits2_pos p)) with (Zdigits2 (Zpos p)). fold d.
  rewrite fexp64, Z.add_0_r.
  rewrite Z.max_l by lia.
  rewrite shl_align_spec by lia.
  replace (0 - (d - 53)) with (53 - d) by lia.
  assert (Hpow : 0 < 2 ^ (53 - d)) by (apply Z.pow_pos_nonneg; lia).
  assert (Hm : Zpos (Z.to_pos (Zpos p * 2 ^ (53 - d))) = Zpos p * 2 ^ (53 - d))
    by (apply Z2Pos.id; lia).
  rewrite Hm.
  assert (Hdig : Zdigits2 (Zpos p * 2 ^ (53 - d)) = 53).
  { apply Zdigits2_unique; [lia|].
    replace (2 ^ (53 - 1)) with (2 ^ (d - 1) * 2 ^ (53 - d))
      by (rewrite <- Z.pow_add_r by lia; f_equal; lia).
    replace (2 ^ 53) with (2 ^ d * 2 ^ (53 - d))
      by (rewrite <- Z.pow_add_r by lia; f_equal; lia).
    nia. }
  rewrite round_aux_exact; [|lia|rewrite Hdig, fexp64; lia].
  replace (d - 53 <=? Py.emax - Py.prec) with true
    by (symmetry; apply Z.leb_le; unfold Py.emax, Py.prec; lia).
  reflexivity.
Qed.


Lemma pow2_pos e : 0 <= e -> 0 < 2 ^ e.
Proof. intros. apply Z.pow_pos_nonneg; lia. Qed.

Lemma pow2_split a b : 0 <= a -> 0 <= b -> 2 ^ (a + b) = 2 ^ a * 2 ^ b.
Proof. intros. apply Z.pow_add_r; lia. Qed.

(** [int(sample_rate * 0.02)] is [sample_rate / 50] when 50 divides the
    rate: the double nearest to 0.02 exceeds 0.02 by less than half a unit
    in the last place of the product. *)
Lemma block_size_multiple_of_50 k :
  0 < k -> 50 * k < 2 ^ 53 -> block_size (50 * k) = Ok k.
Proof.
  intros Hk Hsr. unfold block_size.
  rewrite float_of_int_exact by lia.
  destruct (Zdigits2_bounds (50 * k)) as (Hd0 & Hdlo & Hdhi); [lia|].
  set (d := Zdigits2 (50 * k)) in *.
  assert (Hd : d <= 53).
  { destruct (Z_le_gt_dec d 53); [done|].
    assert (2 ^ 53 <= 2 ^ (d - 1)) by (apply Z.pow_le_mono_r; lia). lia. }
  set (j := 53 - d).
  assert (Hj : 0 <= j) by (subst j; lia).
  pose proof (pow2_pos j Hj) as Hpj.
  destruct (Zdigits2_bounds k Hk) as (Ha0 & Halo & Hahi).
  set (a := Zdigits2 k) in *.
  assert (Ha : a <= 48).
  { destruct (Z_le_gt_dec a 48); [done|].
    assert (2 ^ 48 <= 2 ^ (a - 1)) by (apply Z.pow_le_mono_r; lia).
    change (2 ^ 53) with (32 * 2 ^ 48) in Hsr. lia. }
  unfold Py.mul, SFmul, Py.f0_02. cbn [xorb].
  set (M := Zpos (Z.to_pos (50 * k * 2 ^ j) * 5764607523034235)).
  assert (HM : M = k * 2 ^ (j + 58) + 6 * k * 2 ^ j).
  { subst M. rewrite Pos2Z.inj_mul, Z2Pos.id by lia.
    rewrite pow2_split by lia. change (2 ^ 58) with 288230376151711744. lia. }
  assert (HMpos : 0 < M) by (subst M; lia).
  destruct (Zdigits2_bounds M HMpos) as (HD0 & HDlo & HDhi).
  set (D := Zdigits2 M) in *.
  (* the product has a + j + 58 or a + j + 59 digits *)
  pose proof (pow2_pos (j + 58)) as HP.
  pose proof (pow2_pos a) as HA.
  assert (HP58 : 2 ^ (j + 58) = 288230376151711744 * 2 ^ j)
    by (rewrite pow2_split by lia; change (2 ^ 58) with 288230376151711744; lia).
  assert (Hk1 : 2 ^ (a - 1) * 2 ^ (j + 58) <= k * 2 ^ (j + 58))
    by (apply Z.mul_le_mono_nonneg_r; lia).
  assert (Hk2 : k * 2 ^ (j + 58) <= 2 ^ a * 2 ^ (j + 58))
    by (apply Z.mul_le_mono_nonneg_r; lia).
  assert (Hk3 : k * 2 ^ j <= 2 ^ a * 2 ^ j)
    by (apply Z.mul_le_mono_nonneg_r; lia).
  assert (HDge : a + j + 58 <= D).
  { destruct (Z_le_gt_dec (a + j + 58) D); [done|].
    assert (H1 : 2 ^ D <= 2 ^ ((a - 1) + (j + 58))) by (apply Z.pow_le_mono_r; lia).
    rewrite pow2_split in H1 by lia. lia. }
  assert (HDle : D <= a + j + 59).
  { destruct (Z_le_gt_dec D (a + j + 59)); [done|].
    assert (H1 : 2 ^ (1 + (a + (j + 58))) <= 2 ^ (D - 1)) by (apply Z.pow_le_mono_r; lia).
    rewrite (pow2_split 1), (pow2_split a) in H1 by lia. change (2 ^ 1) with 2 in H1.
    assert (0 <= k * 2 ^ j) by lia. lia. }
  set (E := d - 53 + -58).
  set (n := D - 53).
  set (t := 111 + j - D).
  assert (Ht : 4 <= t) by (subst t; lia).
  assert (Hn : 0 < n) by (subst n; lia).
  assert (Hfexp : fexp Py.prec Py.emax (D + E) = D + E - 53)
    by (rewrite fexp64; subst E; lia).
  assert (Hnt : j + 58 = t + n) by (subst t n; lia).
  assert (Hlow : 0 <= 6 * k * 2 ^ j < 2 ^ (n - 1)).
  { split; [lia|].
    assert (H1 : 2 ^ (4 + (a + j)) <= 2 ^ (n - 1)) by (apply Z.pow_le_mono_r; subst n; lia).
    rewrite (pow2_split 4), (pow2_split a) in H1 by lia. change (2 ^ 4) with 16 in H1.
    lia. }
  assert (HMn : M = (k * 2 ^ t) * 2 ^ n + 6 * k * 2 ^ j).
  { rewrite HM, Hnt, pow2_split by lia. lia. }
  assert (Hpn : 0 < 2 ^ n) by (apply pow2_pos; lia).
  assert (Hpn1 : 0 < 2 ^ (n - 1)) by (apply pow2_pos; lia).
  assert (Hn2 : 2 ^ n = 2 * 2 ^ (n - 1)).
  { replace n with (1 + (n - 1)) at 1 by lia. rewrite pow2_split by lia. reflexivity. }
  assert (Hdiv : M / 2 ^ n = k * 2 ^ t).
  { rewrite HMn. rewrite Z.div_add_l by lia. rewrite Z.div_small by lia. lia. }
  assert (Hdiv1 : M / 2 ^ (n - 1) = 2 * (k * 2 ^ t)).
  { rewrite HMn, Hn2.
    replace (k * 2 ^ t * (2 * 2 ^ (n - 1))) with (2 * (k * 2 ^ t) * 2 ^ (n - 1)) by lia.
    rewrite Z.div_add_l by lia. rewrite Z.div_small by lia. lia. }
  pose proof (pow2_pos t) as Hpt.
  assert (Hdig : Zdigits2 (k * 2 ^ t) = 53).
  { apply Zdigits2_unique; [lia|]. rewrite <- Hdiv.
    split.
    - apply Z.div_le_lower_bound; [lia|].
      replace (2 ^ n * 2 ^ (53 - 1)) with (2 ^ (D - 1)); [lia|].
      rewrite <- pow2_split by lia. f_equal. subst n. lia.
    - apply Z.div_lt_upper_bound; [lia|].
      replace (2 ^ n * 2 ^ 53) with (2 ^ D); [lia|].
      rewrite <- pow2_split by lia. f_equal. subst n. lia. }
  rewrite (round_aux_down Py.prec Py.emax false M E); fold D.
  - rewrite Hfexp. replace (D + E - 53 - E) with n by (subst n; lia).
    replace (E + n) with (- t) by (subst E n t j; lia).
    replace (- t <=? Py.emax - Py.prec) with true
      by (symmetry; apply Z.leb_le; unfold Py.emax, Py.prec; lia).
    rewrite Hdiv. unfold Py.int_of_float, Py.trunc, cond_Zopp.
    replace (0 <=? - t) with false by (symmetry; apply Z.leb_gt; lia).
    rewrite Z2Pos.id by lia. rewrite Z.opp_involutive.
    rewrite Z.div_mul by lia. reflexivity.
  - done.
  - rewrite Hfexp. subst E. lia.
  - rewrite Hfexp. replace (D + E - 53 - E - 1) with (n - 1) by (subst n; lia).
    rewrite Hdiv1. rewrite Z.odd_mul. reflexivity.
  - rewrite Hfexp. replace (D + E - 53 - E) with n by (subst n; lia).
    rewrite Hdiv. lia.
  - rewrite Hfexp. replace (D + E - 53 - E) with n by (subst n; lia).
    rewrite Hdiv, Hdig, fexp64. subst E n j. lia.
Qed.


Lemma fexp32 e : fexp Np.prec Np.emax e = Z.max (e - 24) (-149).
Proof. reflexivity. Qed.

Lemma wrap16_small k : -32768 <= k < 32768 -> Np.wrap16 k = k.
Proof. intros Hk. unfold Np.wrap16. rewrite Z.mod_small; lia. Qed.

(** A sample of magnitude below one, scaled, stays within the positive
    int16 range: the cast neither wraps nor saturates. *)
Lemma scaled_in_range s m e :
  e < 0 -> Zpos m < 2 ^ (- e) ->
  let y := SFmul Np.prec Np.emax (S754_finite s m e) Np.f32767 in
  Np.astype_int16_1 y = Py.trunc y /\ -32767 <= Py.trunc y <= 32767.
Proof.
  intros He Hm y. subst y. unfold SFmul, Np.f32767.
  set (M := Zpos (m * 16776704)).
  set (E := e + -9).
  assert (HM : M = Zpos m * 32767 * 2 ^ 9)
    by (subst M; rewrite Pos2Z.inj_mul; change (2 ^ 9) with 512; lia).
  assert (HMpos : 0 < M) by (subst M; lia).
  assert (HE : E < 0) by (subst E; lia).
  assert (HMlt : M < 32767 * 2 ^ (- E)).
  { replace (- E) with (- e + 9) by (subst E; lia).
    rewrite pow2_split by lia. rewrite HM.
    pose proof (pow2_pos (- e)). lia. }
  destruct (Zdigits2_bounds M HMpos) as (HD0 & HDlo & HDhi).
  set (D := Zdigits2 M) in *.
  assert (HDE : D + E <= 15).
  { destruct (Z_le_gt_dec (D + E) 15); [done|].
    assert (H1 : 2 ^ (15 + (- E)) <= 2 ^ (D - 1)) by (apply Z.pow_le_mono_r; lia).
    rewrite pow2_split in H1 by lia. change (2 ^ 15) with 32768 in H1.
    pose proof (pow2_pos (- E)). lia. }
  destruct (round_aux_shape Np.prec Np.emax (xorb s false) M E HMpos)
    as (m2 & e1 & n2 & Hn2 & Hm2 & Hexact & Hshift & ->).
  fold D in Hexact, Hshift. rewrite fexp32 in Hexact, Hshift.
  assert (Hbound : e1 < 0 /\ m2 <= 32767 * 2 ^ (- e1)).
  { destruct (Z_le_gt_dec (Z.max (D + E - 24) (-149)) E) as [Hle|Hgt].
    - destruct (Hexact Hle) as [-> ->]. lia.
    - destruct Hshift as [He1 Hm2b]; [lia|].
      split; [lia|].
      assert (Hlt : M / 2 ^ (e1 - E) < 32767 * 2 ^ (- e1)).
      { apply Z.div_lt_upper_bound; [apply pow2_pos; lia|].
        replace (- E) with ((e1 - E) + (- e1)) in HMlt by lia.
        rewrite pow2_split in HMlt by lia. lia. }
      lia. }
  destruct Hbound as [He1 Hm2le].
  pose proof (pow2_pos n2 Hn2) as Hpn2.
  assert (Hmf : m2 / 2 ^ n2 * 2 ^ n2 <= m2).
  { rewrite Z.mul_comm. apply Z.mul_div_le. lia. }
  destruct (m2 / 2 ^ n2) as [|mf|mf] eqn:Hq; [simpl; lia| |simpl; lia].
  destruct (e1 + n2 <=? Np.emax - Np.prec); [|simpl; lia].
  assert (Hv : 0 <= (if 0 <=? e1 + n2 then Zpos mf * 2 ^ (e1 + n2)
                     else Zpos mf / 2 ^ (- (e1 + n2))) <= 32767).
  { destruct (0 <=? e1 + n2) eqn:Hef.
    - apply Z.leb_le in Hef.
      pose proof (pow2_pos (e1 + n2) Hef). split; [lia|].
      assert (Hp : 2 ^ n2 = 2 ^ (e1 + n2) * 2 ^ (- e1))
        by (rewrite <- pow2_split by lia; f_equal; lia).
      rewrite Hp in Hmf.
      pose proof (pow2_pos (- e1)).
      apply (Z.mul_le_mono_pos_r _ _ (2 ^ (- e1))); lia.
    - apply Z.leb_gt in Hef.
      pose proof (pow2_pos (- (e1 + n2))).
      split; [apply Z.div_pos; lia|].
      apply Z.div_le_upper_bound; [lia|].
      assert (Hp : 2 ^ (- e1) = 2 ^ (- (e1 + n2)) * 2 ^ n2)
        by (rewrite <- pow2_split by lia; f_equal; lia).
      rewrite Hp in Hm2le.
      apply (Z.mul_le_mono_pos_r _ _ (2 ^ n2)); lia. }
  unfold Np.astype_int16_1, Py.trunc.
  destruct (xorb s false); unfold cond_Zopp; (split; [apply wrap16_small|]); lia.
Qed.


Lemma valid32_mantissa s m e :
  valid_binary Np.prec Np.emax (S754_finite s m e) = true -> Zpos m < 2 ^ 24.
Proof.
  unfold valid_binary, bounded, canonical_mantissa.
  intros Hv. apply andb_prop in Hv as [Hc _]. apply Z.eqb_eq in Hc.
  rewrite fexp32 in Hc.
  change (Zpos (digits2_pos m)) with (Zdigits2 (Zpos m)) in Hc.
  destruct (Zdigits2_bounds (Zpos m)) as (_ & _ & Hhi); [lia|].
  assert (Hd : Zdigits2 (Zpos m) <= 24) by lia.
  assert (2 ^ Zdigits2 (Zpos m) <= 2 ^ 24) by (apply Z.pow_le_mono_r; lia).
  lia.
Qed.

(** What [clip1] returns on a float32: one of the two bounds, a zero, NaN,
    or a finite sample of magnitude below one. *)
Lemma clip1_cases x :
  valid_binary Np.prec Np.emax x = true ->
  Np.clip1 x = Np.one \/ Np.clip1 x = Np.minus_one
  \/ Np.clip1 x = S754_nan
  \/ (exists s, Np.clip1 x = S754_zero s)
  \/ (exists s m e, Np.clip1 x = S754_finite s m e /\ e < 0 /\ Zpos m < 2 ^ (- e)).
Proof.
  intros Hv. destruct x as [s|s| |s m e].
  - right. right. right. left. exists s. by destruct s.
  - destruct s; [right; left|left]; reflexivity.
  - right. right. left. reflexivity.
  - pose proof (valid32_mantissa s m e Hv) as Hm.
    unfold Np.clip1, SFltb, SFcompare, Np.one, Np.minus_one. cbn [Np.is_nan].
    rewrite !Pos.compare_cont_spec. cbn [Pos.switch_Eq].
    destruct s.
    + (* negative *)
      destruct (Z.compare_spec e (-23)) as [He|He|He]; cbn [CompOpp].
      * subst e. destruct (Pos.compare_spec m 8388608) as [Hc|Hc|Hc]; cbn [CompOpp].
        -- subst m. right. left. reflexivity.
        -- right. right. right. right. exists true, m, (-23).
           split; [done|]. split; [reflexivity|]. exact Hc.
        -- right. left. reflexivity.
      * right. right. right. right. exists true, m, e.
        split; [done|]. split; [lia|].
        assert (2 ^ 24 <= 2 ^ (- e)) by (apply Z.pow_le_mono_r; lia). lia.
      * right. left. reflexivity.
    + (* positive *)
      destruct (Z.compare_spec (-23) e) as [He|He|He]; cbn [CompOpp].
      * subst e. destruct (Pos.compare_spec 8388608 m) as [Hc|Hc|Hc]; cbn [CompOpp].
        -- subst m. left. reflexivity.
        -- left. reflexivity.
        -- right. right. right. right. exists false, m, (-23).
           split; [done|]. split; [reflexivity|]. exact Hc.
      * left. reflexivity.
      * right. right. right. right. exists false, m, e.
        split; [done|]. split; [lia|].
        assert (2 ^ 24 <= 2 ^ (- e)) by (apply Z.pow_le_mono_r; lia). lia.
Qed.

(** The int16 of one sample: no wrap-around, no saturation. *)
Lemma sample_in_range x :
  valid_binary Np.prec Np.emax x = true ->
  let y := SFmul Np.prec Np.emax (Np.clip1 x) Np.f32767 in
  Np.astype_int16_1 y = Py.trunc y /\ -32767 <= Py.trunc y <= 32767.
Proof.
  intros Hv.
  destruct (clip1_cases x Hv) as [->|[->|[->|[[s ->]|(s & m & e & -> & He & Hm)]]]].
  - vm_compute. split; [reflexivity|split; discriminate].
  - vm_compute. split; [reflexivity|split; discriminate].
  - vm_compute. split; [reflexivity|split; discriminate].
  - destruct s; vm_compute; (split; [reflexivity|split; discriminate]).
  - by apply scaled_in_range.
Qed.

Lemma byte_of_Z_unsigned z : Z.of_N (Byte.to_N (Np.byte_of_Z z)) = z mod 256.
Proof.
  unfold Np.byte_of_Z.
  pose proof (Z.mod_pos_bound z 256 eq_refl) as Hb.
  destruct (Byte.of_N (Z.to_N (z mod 256))) as [b|] eqn:Hof.
  - apply Byte.to_of_N in Hof. rewrite Hof. lia.
  - apply Byte.of_N_None_iff in Hof. lia.
Qed.

Lemma int16_roundtrip k lo hi :
  -32768 <= k < 32768 ->
  Np.int16_bytes k = [lo; hi] -> Np.int16_of_bytes lo hi = k.
Proof.
  intros Hk. unfold Np.int16_bytes, Np.int16_of_bytes. intros [= <- <-].
  rewrite !byte_of_Z_unsigned.
  pose proof (Z.mod_pos_bound k 65536 eq_refl) as Hu.
  set (u := k mod 65536) in *.
  assert (Hhi : (u / 256) mod 256 = u / 256).
  { apply Z.mod_small. split; [apply Z.div_pos; lia|].
    apply Z.div_lt_upper_bound; lia. }
  rewrite Hhi.
  assert (Hsum : u mod 256 + 256 * (u / 256) = u)
    by (pose proof (Z.div_mod u 256); lia).
  rewrite Hsum. unfold Np.wrap16. subst u.
  destruct (Z_lt_ge_dec k 0).
  - assert (H1 : k mod 65536 = k + 65536)
      by (symmetry; apply (Z.mod_unique _ _ (-1)); lia).
    rewrite H1.
    assert (H2 : (k + 65536 + 32768) mod 65536 = k + 32768)
      by (symmetry; apply (Z.mod_unique _ _ 1); lia).
    rewrite H2. lia.
  - rewrite (Z.mod_small k) by lia. rewrite Z.mod_small; lia.
Qed.

(* ===================================================================== *)
(** * Properties of the encoder and of the block size *)
(* ===================================================================== *)

Lemma clamp_clip1 x : clamp x = Np.clip1 x.
Proof. by destruct x. Qed.

Lemma byte_of_Z_mod z z' : z mod 256 = z' mod 256 -> Np.byte_of_Z z = Np.byte_of_Z z'.
Proof. unfold Np.byte_of_Z. by intros ->. Qed.

Lemma int16_bytes_pair k :
  Np.int16_bytes k = [Np.byte_of_Z k; Np.byte_of_Z (k / 256)].
Proof.
  unfold Np.int16_bytes.
  pose proof (Z.div_mod k 65536) as Hk.
  set (u := k mod 65536) in *. set (q := k / 65536) in *.
  clearbody u q. assert (Hk' : k = 65536 * q + u) by lia. clear Hk. subst k.
  f_equal; [|f_equal]; apply byte_of_Z_mod.
  - replace (65536 * q + u) with (u + (q * 256) * 256) by lia.
    by rewrite Z.mod_add.
  - replace (65536 * q + u) with ((q * 256) * 256 + u) by lia.
    rewrite Z.div_add_l by lia.
    by rewrite Z.add_comm, Z.mod_add.
Qed.

Lemma float_to_pcm16_cons x data :
  _float_to_pcm16 (x :: data)
  = Np.int16_bytes (Np.astype_int16_1 (SFmul Np.prec Np.emax (Np.clip1 x) Np.f32767))
    ++ _float_to_pcm16 data.
Proof. reflexivity. Qed.

Lemma float_to_pcm16_length data :
  length (_float_to_pcm16 data) = (2 * length data)%nat.
Proof.
  induction data as [|x data IH]; [done|].
  rewrite float_to_pcm16_cons, length_app, IH. simpl. lia.
Qed.

Lemma pcm16_value_range x :
  float32_number x ->
  Np.astype_int16_1 (SFmul Np.prec Np.emax (Np.clip1 x) Np.f32767) = pcm16_value x
  /\ -32767 <= pcm16_value x <= 32767.
Proof.
  intros [Hv _]. unfold pcm16_value. rewrite clamp_clip1.
  by apply sample_in_range.
Qed.


(** C5. [_float_to_pcm16] is a total function (no step of it can raise) and
    returns two bytes per sample. On float32 numbers it is the encoder of
    the specification: sample by sample, in input order, the sample clipped
    to [-1.0, 1.0], multiplied by 32767 (in float32, as numpy does) and
    truncated toward zero, a value between -32767 and 32767, stored as a
    little-endian two's-complement pair. In particular 1.0 and 1.5 encode
    alike, and so do -1.0 and -2.0. *)
Theorem C5_float_to_pcm16_encoding (data : list Np.float32) :
  length (_float_to_pcm16 data) = (2 * length data)%nat
  /\ _float_to_pcm16 [Np.one] = _float_to_pcm16 [S754_finite false 12582912 (-23)]
  /\ _float_to_pcm16 [Np.minus_one] = _float_to_pcm16 [S754_finite true 8388608 (-22)]
  /\ (Forall float32_number data ->
      _float_to_pcm16 data = ToPCM16 data
      /\ forall (i : nat) x, data !! i = Some x ->
           -32767 <= pcm16_value x <= 32767
           /\ exists lo hi,
               _float_to_pcm16 data !! (2 * i)%nat = Some lo
               /\ _float_to_pcm16 data !! (2 * i + 1)%nat = Some hi
               /\ Np.int16_of_bytes lo hi = pcm16_value x).
Proof.
  split; [apply float_to_pcm16_length|].
  split; [reflexivity|]. split; [reflexivity|].
  intros Hnum. split.
  - induction Hnum as [|x data Hx _ IH]; [done|].
    rewrite float_to_pcm16_cons, IH.
    destruct (pcm16_value_range x Hx) as [-> _].
    by rewrite int16_bytes_pair.
  - induction Hnum as [|y data Hy _ IH]; intros i x Hi; [done|].
    rewrite float_to_pcm16_cons.
    destruct (pcm16_value_range y Hy) as [-> Hrange].
    destruct i as [|i].
    + injection Hi as <-. split; [done|].
      exists (Np.byte_of_Z (pcm16_value y)), (Np.byte_of_Z (pcm16_value y / 256)).
      rewrite int16_bytes_pair. split; [done|]. split; [done|].
      apply int16_roundtrip; [lia|]. apply int16_bytes_pair.
    + destruct (IH i x Hi) as (Hr & lo & hi & Hlo & Hhi & Hval).
      split; [done|]. exists lo, hi.
      rewrite int16_bytes_pair.
      replace (2 * S i)%nat with (S (S (2 * i))) by lia.
      replace (S (S (2 * i)) + 1)%nat with (S (S (2 * i + 1))) by lia.
      done.
Qed.

(** The product is a float32 product: for the sample 2^-15 + 2^-30, a
    little below 1/32767, it rounds up to 1.0 and the encoder stores 1. *)
Remark scaling_is_rounded :
  let x := S754_finite false 8388864 (-38) in
  float32_number x
  /\ 8388864 * 32767 < 2 ^ 38
  /\ pcm16_value x = 1.
Proof. repeat split. Qed.

(** C9 (as the code has it). For every positive sample rate that is a
    multiple of 50 (and below 2^53, so that it is a double) the block size
    [int(sample_rate * 0.02)] is [sample_rate / 50]: exactly 20 ms of audio. *)
Theorem C9_block_size_20ms (sample_rate : Z) :
  0 < sample_rate < 2 ^ 53 ->
  sample_rate mod 50 = 0 ->
  exists b, block_size sample_rate = Ok b /\ b * 50 = sample_rate.
Proof.
  intros Hrange Hdiv.
  pose proof (Z.div_mod sample_rate 50) as Hk.
  assert (Hsr : sample_rate = 50 * (sample_rate / 50)) by lia.
  exists (sample_rate / 50). split; [|lia].
  rewrite Hsr at 1. apply block_size_multiple_of_50; lia.
Qed.

(* ===================================================================== *)
(** * The callback, one block at a time *)
(* ===================================================================== *)

Section CallbackFacts.

Context `{Classifier V}.
Implicit Types (self : Recorder V) (s : state V) (data : Np.ndarray).

Lemma deref_insert_eq (h : heap_t) l a : deref (<[l := a]> h) l = a.
Proof. unfold deref. by rewrite lookup_insert_eq. Qed.

Lemma deref_insert_ne (h : heap_t) l l' a :
  l ≠ l' -> deref (<[l := a]> h) l' = deref h l'.
Proof. intros Hne. unfold deref. by rewrite lookup_insert_ne. Qed.

Lemma fresh_not_driver (h : heap_t) data :
  fresh (dom (<[driver_buffer := data]> h)) ≠ driver_buffer.
Proof.
  intros Heq.
  pose proof (is_fresh (dom (<[driver_buffer := data]> h))) as Hf.
  rewrite Heq in Hf. apply Hf. rewrite dom_insert_L. set_solver.
Qed.

Lemma column0_raises a e : Np.column0 a = Raise e -> e = IndexError.
Proof.
  induction a as [|row rest IH]; simpl; [discriminate|].
  destruct row as [|x row].
  - intros [= <-]. reflexivity.
  - destruct (Np.column0 rest) as [xs|e']; [discriminate|].
    intros [= <-]. by apply IH.
Qed.

Lemma int_true_div_raises a b e :
  Py.int_true_div a b = Raise e -> is_Exception e = true.
Proof.
  unfold Py.int_true_div.
  destruct (b =? 0); [by intros [= <-]|].
  destruct (a =? 0); [discriminate|].
  destruct (SFdiv_core_binary _ _ _ _ _ _) as [[mz ez] lz].
  destruct (Py.is_inf _); [by intros [= <-]|discriminate].
Qed.

(** The callback never lets an exception out. *)
Lemma callback_delivered self data s :
  callback self driver_buffer (Z.of_nat (length data))
    (set_heap (<[driver_buffer := data]> (heap s)) s)
  = (delivered self data s, Ok tt).
Proof.
  destruct s as [h vo fr sd hd rf].
  unfold delivered, buffered_state, callback, bind, ndarray_copy, modify, gets,
    try_except_pass, vad_is_speech, lift, ret, raise, classify, track, view,
    block_seconds, reaches, set_frames, set_heap, set_vad_obj,
    set_silence_duration, set_has_detected_speech, set_recording_finished.
  simpl.
  rewrite deref_insert_eq.
  destruct vo as [v|]; simpl; [|reflexivity].
  rewrite deref_insert_ne by apply fresh_not_driver.
  rewrite deref_insert_eq.
  destruct (Np.column0 data) as [col|e0] eqn:Hcol; simpl.
  2:{ apply column0_raises in Hcol as ->. reflexivity. }
  destruct (is_speech v (_float_to_pcm16 col) _) as [v' [[|]|]]; simpl;
    try reflexivity.
  destruct hd; simpl; [|reflexivity].
  destruct (Py.int_true_div _ _) as [d|e1] eqn:Hdiv; simpl.
  2:{ apply int_true_div_raises in Hdiv as ->. reflexivity. }
  destruct (Py.ge_int _ _); reflexivity.
Qed.

Lemma deliver_delivered self data s : deliver self data s = delivered self data s.
Proof. unfold deliver. by rewrite callback_delivered. Qed.

Lemma deliver_frames self data s :
  frames (deliver self data s) = frames (buffered_state data s).
Proof. rewrite deliver_delivered. unfold delivered. by destruct (vad_obj s). Qed.

Lemma deliver_heap self data s :
  heap (deliver self data s) = heap (buffered_state data s).
Proof. rewrite deliver_delivered. unfold delivered. by destruct (vad_obj s). Qed.

Lemma deliver_vad_obj self data s :
  vad_obj (deliver self data s)
  = match vad_obj s with
    | None => None
    | Some v => Some (fst (classify self v data))
    end.
Proof.
  rewrite deliver_delivered. unfold delivered.
  by destruct (vad_obj s) eqn:Hv; simpl.
Qed.

Lemma deliver_view self data s :
  view (deliver self data s)
  = match vad_obj s with
    | None => view s
    | Some v => track self (view s) (snd (classify self v data)) data
    end.
Proof.
  rewrite deliver_delivered. unfold delivered.
  destruct (vad_obj s) as [v|]; [|reflexivity].
  by destruct (track self (view s) (snd (classify self v data)) data) as [[? ?] ?].
Qed.

End CallbackFacts.

(* ===================================================================== *)
(** * Whole runs *)
(* ===================================================================== *)

Section RunFacts.

Context `{Classifier V}.
Implicit Types (self : Recorder V) (s : state V) (rs : run_state V)
  (data : Np.ndarray) (evs : list event) (start : Py.float).

Lemma run_app self start rs evs1 evs2 :
  run self start rs (evs1 ++ evs2) = run self start (run self start rs evs1) evs2.
Proof. unfold run. apply fold_left_app. Qed.

Lemma run_cons self start rs ev evs :
  run self start rs (ev :: evs) = run self start (step self start rs ev) evs.
Proof. reflexivity. Qed.

Lemma blocks_of_app evs1 evs2 :
  blocks_of (evs1 ++ evs2) = blocks_of evs1 ++ blocks_of evs2.
Proof.
  induction evs1 as [|[d|a n|e] evs1 IH]; simpl; [done| |done|done].
  by rewrite IH.
Qed.

Lemma step_view_other self start rs ev :
  blocks_of [ev] = [] -> st (step self start rs ev) = st rs.
Proof.
  destruct ev as [d|a n|e]; simpl; [discriminate| |];
    intros _; by destruct (ctl rs).
Qed.

Lemma run_view self start rs evs :
  view (st (run self start rs evs))
  = tracks self (view (st rs))
      (verdicts self (vad_obj (st rs)) (blocks_of evs)) (blocks_of evs).
Proof.
  revert rs. induction evs as [|ev evs IH]; intros rs; [by destruct (vad_obj (st rs))|].
  rewrite run_cons, IH.
  destruct ev as [d|a n|e].
  - simpl. rewrite deliver_view, deliver_vad_obj.
    destruct (vad_obj (st rs)) as [v|]; simpl; [reflexivity|].
    by destruct (blocks_of evs).
  - by rewrite step_view_other.
  - by rewrite step_view_other.
Qed.

Lemma run_vad_obj self start rs evs :
  vad_obj (st (run self start rs evs))
  = vad_after self (vad_obj (st rs)) (blocks_of evs).
Proof.
  revert rs. induction evs as [|ev evs IH]; intros rs; [reflexivity|].
  rewrite run_cons, IH.
  destruct ev as [d|a n|e].
  - simpl. rewrite deliver_vad_obj.
    destruct (vad_obj (st rs)) as [v|]; simpl; [reflexivity|].
    by destruct (blocks_of evs).
  - by rewrite step_view_other.
  - by rewrite step_view_other.
Qed.

Lemma verdicts_app self vo b1 b2 :
  verdicts self vo (b1 ++ b2)
  = verdicts self vo b1 ++ verdicts self (vad_after self vo b1) b2.
Proof.
  revert vo. induction b1 as [|d b1 IH]; intros vo; simpl.
  - by destruct vo, b2.
  - destruct vo as [v|]; simpl; [by rewrite IH|]. by destruct b2.
Qed.

Lemma vad_after_Some self v blocks :
  exists v', vad_after self (Some v) blocks = Some v'.
Proof.
  revert v. induction blocks as [|d blocks IH]; intros v; simpl; eauto.
Qed.

Lemma verdicts_length self v blocks :
  length (verdicts self (Some v) blocks) = length blocks.
Proof.
  revert v. induction blocks as [|d blocks IH]; intros v; simpl; [done|].
  by rewrite IH.
Qed.

(** The flag is never taken back. *)
Lemma track_finished self x vd data :
  snd x = true -> snd (track self x vd data) = true.
Proof.
  destruct x as [[sd hd] rf]; simpl. intros ->.
  destruct vd; simpl; try done.
  destruct hd; [|done].
  destruct (block_seconds self data); [|done]. simpl.
  by destruct (reaches self _).
Qed.

Lemma tracks_finished self x vds blocks :
  snd x = true -> snd (tracks self x vds blocks) = true.
Proof.
  revert x blocks. induction vds as [|vd vds IH]; intros x [|d blocks] Hx;
    simpl; try done.
  apply IH. by apply track_finished.
Qed.

Lemma run_finished_mono self start rs evs :
  recording_finished (st rs) = true ->
  recording_finished (st (run self start rs evs)) = true.
Proof.
  intros Hf.
  change (snd (view (st (run self start rs evs))) = true).
  rewrite run_view. by apply tracks_finished.
Qed.

(** ** The frame buffer *)

Lemma deliver_buffered self data s :
  heap_ok s ->
  heap_ok (deliver self data s)
  ∧ buffered (deliver self data s) = buffered s ++ [data].
Proof.
  intros Hok. unfold heap_ok, buffered in *.
  rewrite deliver_frames, deliver_heap.
  unfold buffered_state, set_frames, set_heap; simpl.
  set (h := <[driver_buffer := data]> (heap s)).
  pose proof (is_fresh (dom h)) as Hfresh.
  pose proof (fresh_not_driver (heap s) data) as Hnd. fold h in Hnd.
  split.
  - apply Forall_app. split.
    + eapply Forall_impl; [exact Hok|]. intros l [Hl Hin]. split; [done|].
      rewrite dom_insert_L. subst h. rewrite dom_insert_L. set_solver.
    + constructor; [|constructor]. split; [done|].
      rewrite dom_insert_L. set_solver.
  - rewrite map_app. simpl. rewrite deref_insert_eq. f_equal.
    apply map_ext_Forall. eapply Forall_impl; [exact Hok|].
    intros l [Hl Hin]. simpl.
    rewrite deref_insert_ne.
    + subst h. by rewrite deref_insert_ne.
    + intros Heq. apply Hfresh. rewrite Heq. subst h.
      rewrite dom_insert_L. set_solver.
Qed.

Lemma run_buffered self start rs evs :
  heap_ok (st rs) ->
  heap_ok (st (run self start rs evs))
  ∧ buffered (st (run self start rs evs)) = buffered (st rs) ++ blocks_of evs.
Proof.
  revert rs. induction evs as [|ev evs IH]; intros rs Hok.
  - split; [done|]. simpl. by rewrite app_nil_r.
  - rewrite run_cons.
    destruct ev as [d|a n|e].
    + destruct (deliver_buffered self d (st rs) Hok) as [Hok' Hb].
      destruct (IH (step self start rs (Deliver d)) Hok') as [Hok'' Hb''].
      split; [done|]. rewrite Hb''. simpl. rewrite Hb. by rewrite <- app_assoc.
    + assert (Hs : st (step self start rs (Poll a n)) = st rs)
        by by apply step_view_other.
      destruct (IH (step self start rs (Poll a n))) as [Hok' Hb]; [by rewrite Hs|].
      split; [done|]. by rewrite Hb, Hs.
    + assert (Hs : st (step self start rs (MainRaise e)) = st rs)
        by by apply step_view_other.
      destruct (IH (step self start rs (MainRaise e))) as [Hok' Hb]; [by rewrite Hs|].
      split; [done|]. by rewrite Hb, Hs.
Qed.

Lemma initial_heap_ok self : heap_ok (initial_state self).
Proof. constructor. Qed.

Lemma run_initial_buffered self start evs :
  buffered (st (run self start (initial self) evs)) = blocks_of evs.
Proof.
  destruct (run_buffered self start (initial self) evs (initial_heap_ok self))
    as [_ Hb].
  exact Hb.
Qed.

Lemma run_frames_length self start rs evs :
  length (frames (st (run self start rs evs)))
  = (length (frames (st rs)) + length (blocks_of evs))%nat.
Proof.
  revert rs. induction evs as [|ev evs IH]; intros rs; [simpl; lia|].
  rewrite run_cons, IH.
  destruct ev as [d|a n|e].
  - simpl. rewrite deliver_frames. unfold buffered_state, set_frames; simpl.
    rewrite length_app. simpl. lia.
  - by rewrite step_view_other.
  - by rewrite step_view_other.
Qed.

End RunFacts.

(* ===================================================================== *)
(** * The silence counter and the supervising loop *)
(* ===================================================================== *)

Section StopFacts.

Context `{Classifier V}.
Implicit Types (self : Recorder V) (s : state V) (rs : run_state V)
  (data : Np.ndarray) (evs : list event) (start : Py.float).

Lemma poll_unfold self start active now s :
  poll self start active now s
  = if negb active then LoopDone ByInactive
    else if negb (in_time self start now) then LoopDone ByTimeout
    else if recording_finished s then LoopDone BySilence
    else Waiting.
Proof. reflexivity. Qed.

(** Before any speech, nothing but speech moves the three variables. *)
Lemma tracks_no_speech self sd rf vds blocks :
  Forall (fun vd => vd ≠ Speech) vds ->
  tracks self (sd, false, rf) vds blocks = (sd, false, rf).
Proof.
  revert blocks. induction vds as [|vd vds IH]; intros blocks Hall; [done|].
  destruct blocks as [|d blocks]; [done|].
  inversion Hall as [|? ? Hvd Hrest]; subst. simpl.
  destruct vd; try done; by apply IH.
Qed.

Lemma run_no_speech self start rs evs :
  has_detected_speech (st rs) = false ->
  Forall (fun vd => vd ≠ Speech) (verdicts self (vad_obj (st rs)) (blocks_of evs)) ->
  view (st (run self start rs evs)) = view (st rs).
Proof.
  intros Hd Hall. rewrite run_view.
  unfold view. rewrite Hd. by apply tracks_no_speech.
Qed.

(** After speech, a stretch of silence below the threshold only adds up. *)
Lemma tracks_silence self acc rf blocks ds :
  Forall2 (fun b x => block_seconds self b = Ok x) blocks ds ->
  (forall n, (0 < n <= length ds)%nat ->
     reaches self (fold_left Py.add (take n ds) acc) = false) ->
  tracks self (acc, true, rf) (replicate (length blocks) Silence) blocks
  = (fold_left Py.add ds acc, true, rf).
Proof.
  intros Hdur. revert acc.
  induction Hdur as [|b x blocks ds Hb Hrest IH]; intros acc Hlow; [done|].
  simpl. rewrite Hb.
  pose proof (Hlow 1%nat) as H1. simpl in H1. rewrite H1 by lia.
  apply IH. intros n Hn.
  specialize (Hlow (S n)). simpl in Hlow. apply Hlow. lia.
Qed.

(** Leaving the loop on silence takes the flag. *)
Lemma by_silence_flag self start rs evs :
  (ctl rs = LoopDone BySilence -> recording_finished (st rs) = true) ->
  ctl (run self start rs evs) = LoopDone BySilence ->
  recording_finished (st (run self start rs evs)) = true.
Proof.
  revert rs. induction evs as [|ev evs IH]; intros rs Hrs; [done|].
  rewrite run_cons. apply IH.
  destruct ev as [d|a n|e]; simpl.
  - intros Hc. change (snd (view (deliver self d (st rs))) = true).
    specialize (Hrs Hc).
    pose proof (run_finished_mono self start rs [Deliver d] Hrs) as Hm.
    exact Hm.
  - destruct (ctl rs) eqn:Hc; simpl; try (by rewrite Hc).
    rewrite poll_unfold.
    destruct (negb a); [done|].
    destruct (negb (in_time self start n)); [done|].
    by destruct (recording_finished (st rs)).
  - destruct (ctl rs) eqn:Hc; simpl; try done. by rewrite Hc.
Qed.

(** While the flag is down and the main thread is left alone, the loop
    goes on exactly as long as the clock allows. *)
Lemma waiting_while_unflagged self start evs : forall rs,
  ctl rs = Waiting ->
  (forall p, p `prefix_of` evs ->
     recording_finished (st (run self start rs p)) = false) ->
  Forall undisturbed evs ->
  ctl (run self start rs evs)
  = if forallb (timely self start) evs then Waiting else LoopDone ByTimeout.
Proof.
  induction evs as [|ev evs IH] using rev_ind; intros rs Hw Hflag Hund; [done|].
  rewrite run_app, forallb_app.
  apply Forall_app in Hund as [Hund Hev].
  inversion Hev as [|? ? Hev1 _]; subst.
  assert (Hpre : ctl (run self start rs evs)
    = if forallb (timely self start) evs then Waiting else LoopDone ByTimeout).
  { apply IH; try done. intros p Hp. apply Hflag. by apply prefix_app_r. }
  pose proof (Hflag evs (prefix_app_r evs evs [ev] (reflexivity _))) as Hf.
  destruct ev as [d|a n|e]; simpl in *; [| |done].
  - by rewrite andb_true_r.
  - subst a. rewrite andb_true_r, Hpre.
    destruct (forallb (timely self start) evs); simpl; [|done].
    rewrite poll_unfold. simpl.
    destruct (in_time self start n); simpl; [|done].
    by rewrite Hf.
Qed.

(** A stretch of blocks all classified as silence, below the threshold. *)
Lemma silent_stretch self start rs evs ds :
  has_detected_speech (st rs) = true ->
  verdicts self (vad_obj (st rs)) (blocks_of evs)
    = replicate (length (blocks_of evs)) Silence ->
  Forall2 (fun b x => block_seconds self b = Ok x) (blocks_of evs) ds ->
  (forall n, (0 < n <= length ds)%nat ->
     reaches self (fold_left Py.add (take n ds) (silence_duration (st rs))) = false) ->
  view (st (run self start rs evs))
  = (fold_left Py.add ds (silence_duration (st rs)), true, recording_finished (st rs)).
Proof.
  intros Hd Hv Hdur Hlow. rewrite run_view, Hv.
  unfold view. rewrite Hd. by apply tracks_silence.
Qed.

Lemma verdicts_replicate_prefix self vo b1 b2 vd :
  verdicts self vo (b1 ++ b2) = replicate (length (b1 ++ b2)) vd ->
  verdicts self vo b1 = replicate (length b1) vd
  ∧ verdicts self (vad_after self vo b1) b2 = replicate (length b2) vd.
Proof.
  rewrite verdicts_app, length_app, replicate_add. intros Heq.
  destruct vo as [v|].
  - apply app_inj_1 in Heq; [done|].
    by rewrite verdicts_length, length_replicate.
  - assert (Hnone : forall b, verdicts self None b = []) by by intros [|? ?].
    assert (Hafter : vad_after self None b1 = None) by by destruct b1.
    rewrite Hafter, !Hnone in *. simpl in Heq.
    destruct b1, b2; simpl in *; done.
Qed.

End StopFacts.

(* ===================================================================== *)
(** * Properties of the capture loop *)
(* ===================================================================== *)

Section CaptureProperties.

Context `{Classifier V}.
Implicit Types (self : Recorder V) (s : state V) (rs : run_state V)
  (data : Np.ndarray) (evs : list event) (start : Py.float).

(** C3. In any state and for any delivered block: a block classified as
    speech resets [silence_duration] to 0.0 (and sets
    [has_detected_speech]); the counter changes otherwise only when
    [has_detected_speech] already holds and the block is classified as
    silence, and then by exactly the block's duration
    [frame_count / sample_rate]. Consequently a run in which no block is
    classified as speech, however long, keeps the counter at 0.0, never
    raises [recording_finished] and never leaves the loop on silence. *)
Theorem C3_silence_counter_discipline self s data start evs :
  let s' := deliver self data s in
  (forall v, vad_obj s = Some v -> snd (classify self v data) = Speech ->
     silence_duration s' = Py.zero ∧ has_detected_speech s' = true)
  ∧ (silence_duration s' ≠ silence_duration s ->
     exists v, vad_obj s = Some v ∧
       ((snd (classify self v data) = Speech ∧ silence_duration s' = Py.zero)
        ∨ (snd (classify self v data) = Silence
           ∧ has_detected_speech s = true
           ∧ exists d, block_seconds self data = Ok d
               ∧ silence_duration s' = Py.add (silence_duration s) d)))
  ∧ (forall v d, vad_obj s = Some v -> snd (classify self v data) = Silence ->
     has_detected_speech s = true -> block_seconds self data = Ok d ->
     silence_duration s' = Py.add (silence_duration s) d)
  ∧ (Forall (fun vd => vd ≠ Speech) (verdicts self (vad self) (blocks_of evs)) ->
     let rs := run self start (initial self) evs in
     silence_duration (st rs) = Py.zero
     ∧ has_detected_speech (st rs) = false
     ∧ recording_finished (st rs) = false
     ∧ ctl rs ≠ LoopDone BySilence).
Proof.
  intros s'.
  assert (Hview : view s' = match vad_obj s with
    | None => view s
    | Some v => track self (view s) (snd (classify self v data)) data end)
    by apply deliver_view.
  unfold view in Hview.
  split; [|split; [|split]].
  - intros v Hv Hvd. rewrite Hv, Hvd in Hview. simpl in Hview.
    split; congruence.
  - intros Hne. destruct (vad_obj s) as [v|]; [|congruence].
    exists v. split; [done|].
    destruct (snd (classify self v data)); simpl in Hview.
    + left. split; [done|]. congruence.
    + right. split; [done|].
      destruct (has_detected_speech s); [|congruence].
      split; [done|].
      destruct (block_seconds self data) as [d|e]; [|congruence].
      exists d. split; [done|]. congruence.
    + congruence.
  - intros v d Hv Hvd Hdet Hd.
    rewrite Hv, Hvd, Hdet in Hview. simpl in Hview.
    rewrite Hd in Hview. congruence.
  - intros Hquiet rs.
    pose proof (run_no_speech self start (initial self) evs eq_refl Hquiet) as Hq.
    unfold view in Hq. simpl in Hq. fold rs in Hq.
    repeat split; try congruence.
    intros Hc. apply by_silence_flag in Hc; [|done].
    fold rs in Hc. congruence.
Qed.

(** C2. A run in which no block is ever classified as speech (or in which
    classification is off), with the stream active and no exception in the
    main thread, never raises [recording_finished]; its loop is still
    waiting exactly as long as every clock reading taken by the loop was
    below [max_seconds], and it leaves, by timeout, at the first turn whose
    reading is not. Every block delivered meanwhile is in the buffer. (The
    statement holds for every list of events, hence for every prefix of a
    run: the turn at which the loop leaves is the first one past the limit,
    one sleep of the loop after the last turn within it.) *)
Theorem C2_no_speech_runs_to_timeout self start evs :
  Forall (fun vd => vd ≠ Speech) (verdicts self (vad self) (blocks_of evs)) ->
  Forall undisturbed evs ->
  let rs := run self start (initial self) evs in
  recording_finished (st rs) = false
  ∧ ctl rs = (if forallb (timely self start) evs then Waiting else LoopDone ByTimeout)
  ∧ buffered (st rs) = blocks_of evs.
Proof.
  intros Hquiet Hund rs.
  assert (Hflag : forall p, p `prefix_of` evs ->
    recording_finished (st (run self start (initial self) p)) = false).
  { intros p [k ->].
    rewrite blocks_of_app, verdicts_app in Hquiet.
    apply Forall_app in Hquiet as [Hp _].
    pose proof (run_no_speech self start (initial self) p eq_refl Hp) as Hq.
    unfold view in Hq. simpl in Hq. congruence. }
  split; [|split].
  - apply Hflag. reflexivity.
  - by apply waiting_while_unflagged.
  - apply run_initial_buffered.
Qed.

(** C1 (as the code has it). The stop flag [recording_finished] is a latch:
    line 102 raises it and nothing lowers it, so the claim can hold only of
    speech that arrives while the flag is still down. Let block [speech] be
    classified as speech while [recording_finished] is false, and let every
    later block up to and including [last] be classified as silence, where
    [last] is the first block at which the silence added up since [speech]
    passes the test [silence_duration * 1000 >= silence_ms_to_stop]. Then:
    - before [last] the flag [recording_finished] is down, the loop has not
      been left on silence, and a turn of the loop that finds the stream
      active and the clock within [max_seconds] keeps waiting;
    - from [last] on the flag is up, and the next turn of the loop, whenever
      it comes, leaves the loop (on silence, if the stream is active and the
      clock within [max_seconds]). *)
Theorem C1_stop_on_trailing_silence self start pre speech quiet last ds d :
  let R := run self start (initial self) in
  recording_finished (st (R pre)) = false ->
  verdicts self (vad_obj (st (R pre))) (speech :: blocks_of quiet ++ [last])
    = Speech :: replicate (length (blocks_of quiet ++ [last])) Silence ->
  Forall2 (fun b x => block_seconds self b = Ok x) (blocks_of quiet) ds ->
  block_seconds self last = Ok d ->
  (forall n, (0 < n <= length ds)%nat -> reaches self (accumulate (take n ds)) = false) ->
  reaches self (accumulate (ds ++ [d])) = true ->
  (forall p now, p `prefix_of` quiet ->
     let rs := R (pre ++ Deliver speech :: p) in
     recording_finished (st rs) = false
     ∧ ctl rs ≠ LoopDone BySilence
     ∧ (in_time self start now = true -> poll self start true now (st rs) = Waiting))
  ∧ (forall q active now,
     let rs := R (pre ++ Deliver speech :: quiet ++ Deliver last :: q) in
     recording_finished (st rs) = true
     ∧ poll self start active now (st rs) ≠ Waiting
     ∧ (active = true -> in_time self start now = true ->
        poll self start active now (st rs) = LoopDone BySilence)
     ∧ ctl (step self start rs (Poll active now)) ≠ Waiting).
Proof.
  intros R Hpre Hverd Hdur Hlast Hlow Hreach.
  destruct (vad_obj (st (R pre))) as [v|] eqn:Hv; [|discriminate].
  simpl in Hverd. injection Hverd as Hspeech Hrest.
  apply verdicts_replicate_prefix in Hrest as [Hquiet Hlastv].
  set (rs1 := R (pre ++ [Deliver speech])).
  assert (Hv1 : vad_obj (st rs1) = Some (fst (classify self v speech))).
  { subst rs1 R. rewrite run_app. simpl. by rewrite deliver_vad_obj, Hv. }
  assert (Hview1 : view (st rs1) = (Py.zero, true, false)).
  { subst rs1 R. rewrite run_app. simpl. rewrite deliver_view, Hv, Hspeech.
    unfold view. simpl. by rewrite Hpre. }
  assert (Hstretch : forall p k, quiet = p ++ k ->
    view (st (run self start rs1 p))
    = (accumulate (take (length (blocks_of p)) ds), true, false)).
  { intros p k ->. rewrite blocks_of_app in Hquiet, Hdur.
    apply verdicts_replicate_prefix in Hquiet as [Hp _].
    pose proof (Forall2_take _ _ _ (length (blocks_of p)) Hdur) as Hdp.
    rewrite take_app_length in Hdp.
    pose proof (silent_stretch self start rs1 p (take (length (blocks_of p)) ds)) as Hs.
    unfold view in Hview1. injection Hview1 as Hsd Hhd Hrf.
    rewrite Hsd, Hrf, Hv1 in Hs. apply Hs; try done.
    intros n Hn. rewrite take_take. apply Hlow.
    rewrite length_take in Hn. lia. }
  assert (Hsplit : forall l, R (pre ++ Deliver speech :: l) = run self start rs1 l).
  { intros l. subst rs1 R. by rewrite (run_app _ _ _ pre), <- !run_app, <- app_assoc. }
  split.
  - intros p now [k Hk] rs. subst rs. rewrite Hsplit.
    specialize (Hstretch p k Hk). unfold view in Hstretch.
    injection Hstretch as _ _ Hrf.
    split; [done|]. split.
    + intros Hc. rewrite <- Hsplit in Hc. apply by_silence_flag in Hc; [|done].
      rewrite Hsplit in Hc. congruence.
    + intros Ht. rewrite poll_unfold, Ht, Hrf. reflexivity.
  - intros q active now rs.
    assert (Hup : recording_finished (st rs) = true).
    { subst rs. rewrite Hsplit.
      replace (quiet ++ Deliver last :: q) with ((quiet ++ [Deliver last]) ++ q)
        by by rewrite <- app_assoc.
      rewrite run_app. apply run_finished_mono. rewrite run_app.
      change (snd (view (st (run self start (run self start rs1 quiet) [Deliver last]))) = true).
      rewrite run_view, (Hstretch quiet [] (eq_sym (app_nil_r _))). simpl.
      assert (Hvq : vad_obj (st (run self start rs1 quiet))
        = vad_after self (Some (fst (classify self v speech))) (blocks_of quiet))
        by by rewrite run_vad_obj, Hv1.
      rewrite Hvq. simpl in Hlastv.
      destruct (vad_after self _ (blocks_of quiet)) as [v2|]; [|discriminate].
      simpl in *. injection Hlastv as ->. simpl. rewrite Hlast.
      rewrite (Forall2_length _ _ _ Hdur), firstn_all.
      unfold accumulate in Hreach. rewrite fold_left_app in Hreach. simpl in Hreach.
      unfold accumulate. by rewrite Hreach. }
    assert (Hpoll : poll self start active now (st rs) ≠ Waiting).
    { rewrite poll_unfold, Hup. destruct (negb active); [done|].
      by destruct (negb (in_time self start now)). }
    split; [done|]. split; [done|]. split.
    + intros -> Ht. by rewrite poll_unfold, Ht, Hup.
    + simpl. destruct (ctl rs) eqn:Hc; simpl; try done; by rewrite Hc.
Qed.

Lemma record_to_path_stopped self file_path start evs fs n :
  block_size (sample_rate (recording_config self)) = Ok n ->
  stopped (ctl (run self start (initial self) evs)) = true ->
  _record_to_path self file_path start evs fs
  = Some (_write_wav self file_path (Np.concatenate (blocks_of evs)) fs).
Proof.
  intros Hbs Hstop. unfold _record_to_path. rewrite Hbs.
  assert (Hdata : match frames (st (run self start (initial self) evs)) with
                  | [] => []
                  | _ => Np.concatenate (buffered (st (run self start (initial self) evs)))
                  end = Np.concatenate (blocks_of evs)).
  { rewrite run_initial_buffered.
    pose proof (run_frames_length self start (initial self) evs) as Hlen.
    destruct (frames _); [|done].
    simpl in Hlen. by destruct (blocks_of evs). }
  rewrite Hdata.
  destruct (ctl _) as [|why|e]; [done|done|].
  by destruct e.
Qed.

(** C6. When the capture stops (the loop is left, or a [CallbackStop]
    reaches the main thread) with no frame in the buffer,
    [_record_to_path], and so [record_once], raises
    [AudioError("No audio captured")] and the file system is exactly what
    it was: no file is opened or written. *)
Theorem C6_no_audio_captured self file_path dir timestamp start evs fs n :
  block_size (sample_rate (recording_config self)) = Ok n ->
  stopped (ctl (run self start (initial self) evs)) = true ->
  frames (st (run self start (initial self) evs)) = [] ->
  _record_to_path self file_path start evs fs
    = Some (fs, Raise (AudioError "No audio captured"))
  ∧ record_once self dir timestamp start evs fs
    = Some (fs, Raise (AudioError "No audio captured")).
Proof.
  intros Hbs Hstop Hnone.
  assert (Hblocks : blocks_of evs = []).
  { pose proof (run_frames_length self start (initial self) evs) as Hlen.
    rewrite Hnone in Hlen. simpl in Hlen. destruct (blocks_of evs); [done|].
    simpl in Hlen. lia. }
  assert (Hrec : forall p, _record_to_path self p start evs fs
    = Some (fs, Raise (AudioError "No audio captured"))).
  { intros p. rewrite (record_to_path_stopped _ _ _ _ _ n) by done.
    by rewrite Hblocks. }
  split; [apply Hrec|].
  unfold record_once. by rewrite Hrec.
Qed.






(** C7 (as the code has it). A [KeyboardInterrupt] that arrives while the
    loop is waiting is caught neither by [except sd.CallbackStop] nor by
    [except Exception]: it leaves [_record_to_path] and [record_once] at
    once, whatever the buffer holds; nothing is serialized, the file system
    is untouched, no [AudioError] is raised, and [_command_once] prints
    "Recording interrupted" and returns 1. *)
Theorem C7_interrupt_discards_recording no_vad arg_dir rc vc timestamp start
    evs1 evs2 fs n :
  let self := Recorder_init rc {| enabled := negb no_vad;
                                  silence_ms_to_stop := silence_ms_to_stop vc;
                                  aggressiveness := aggressiveness vc |} in
  block_size (sample_rate rc) = Ok n ->
  ctl (run self start (initial self) evs1) = Waiting ->
  ctl (run self start (initial self) (evs1 ++ [Interrupt])) = Raised KeyboardInterrupt
  ∧ record_once self arg_dir timestamp start (evs1 ++ Interrupt :: evs2) fs
    = Some (fs, Raise KeyboardInterrupt)
  ∧ _command_once no_vad arg_dir rc vc timestamp start (evs1 ++ Interrupt :: evs2) fs
    = Some (fs, Return 1 "Recording interrupted").
Proof.
  intros self Hbs Hwait.
  assert (Hint : ctl (run self start (initial self) (evs1 ++ [Interrupt]))
    = Raised KeyboardInterrupt).
  { rewrite run_app. simpl. by rewrite Hwait. }
  assert (Hkeep : forall evs rs, ctl rs = Raised KeyboardInterrupt ->
    ctl (run self start rs evs) = Raised KeyboardInterrupt).
  { induction evs as [|ev evs IH]; intros rs Hrs; [done|].
    rewrite run_cons. apply IH.
    destruct ev as [d|a t|e]; simpl; [done| |]; by rewrite Hrs. }
  assert (Hrec : forall p, _record_to_path self p start (evs1 ++ Interrupt :: evs2) fs
    = Some (fs, Raise KeyboardInterrupt)).
  { intros p. unfold _record_to_path. simpl. rewrite Hbs.
    replace (evs1 ++ Interrupt :: evs2) with ((evs1 ++ [Interrupt]) ++ evs2)
      by by rewrite <- app_assoc.
    rewrite run_app, (Hkeep _ _ Hint). reflexivity. }
  assert (Honce : forall dir,
    record_once self dir timestamp start (evs1 ++ Interrupt :: evs2) fs
    = Some (fs, Raise KeyboardInterrupt)).
  { intros dir. unfold record_once. by rewrite Hrec. }
  split; [done|]. split; [apply Honce|].
  unfold _command_once. fold self. by rewrite Honce.
Qed.

Lemma column0_length a c : Np.column0 a = Ok c -> length c = length a.
Proof.
  revert c. induction a as [|row a IH]; intros c; simpl; [by intros [= <-]|].
  destruct row as [|x row]; [discriminate|].
  destruct (Np.column0 a) as [xs|e]; [|discriminate].
  intros [= <-]. simpl. by rewrite (IH xs).
Qed.







Lemma tracks_with_vad self vo x vds blocks :
  tracks (with_vad self vo) x vds blocks = tracks self x vds blocks.
Proof.
  revert x blocks. induction vds as [|vd vds IH]; intros x [|d blocks]; try done.
  simpl. by rewrite IH.
Qed.

(** C4 (as the code has it). Take two runs of the same recorder over the
    same events whose classifier objects answer alike on every block but the
    last, where the first faults and the second says silence. The faulting
    block is buffered and changes nothing else: counter and flags are what
    they were before it, so it does not stop the capture. The silent run
    ends where one silent block takes the state the faulting run is in
    ([track]): the two agree whenever no earlier block was classified as
    speech, and once speech has been detected the silent run has added the
    block's duration to the counter (and may have raised the flag) while
    the faulting run has not. *)
Theorem C4_fault_changes_nothing self vo start evs data vds :
  let other := with_vad self vo in
  verdicts self (vad self) (blocks_of evs ++ [data]) = vds ++ [Fault] ->
  verdicts other (vad other) (blocks_of evs ++ [data]) = vds ++ [Silence] ->
  let a0 := st (run self start (initial self) evs) in
  let a1 := st (run self start (initial self) (evs ++ [Deliver data])) in
  let b1 := st (run other start (initial other) (evs ++ [Deliver data])) in
  view a1 = view a0
  ∧ buffered a1 = buffered a0 ++ [data]
  ∧ view b1 = track self (view a0) Silence data
  ∧ (Forall (fun vd => vd ≠ Speech) vds -> view a1 = view b1).
Proof.
  intros other HA HB a0 a1 b1.
  assert (Hsplit : forall (r : Recorder V) vd,
    verdicts r (vad r) (blocks_of evs ++ [data]) = vds ++ [vd] ->
    verdicts r (vad r) (blocks_of evs) = vds
    ∧ exists v, vad_after r (vad r) (blocks_of evs) = Some v
                ∧ snd (classify r v data) = vd).
  { intros r vd Hr. rewrite verdicts_app in Hr.
    destruct (vad r) as [v0|] eqn:Hv0.
    - destruct (vad_after_Some r v0 (blocks_of evs)) as [v Hv].
      rewrite Hv in *.
      apply app_inj_2 in Hr as [Hr1 Hr2]; [|done].
      split; [done|]. exists v. split; [done|]. simpl in Hr2. congruence.
    - destruct (blocks_of evs), vds; simpl in Hr; discriminate. }
  destruct (Hsplit self Fault HA) as (HvdsA & v & Hv & Hfault).
  destruct (Hsplit other Silence HB) as (HvdsB & w & Hw & Hsilence).
  assert (Hview : view a1 = view a0).
  { subst a1 a0. rewrite run_app. simpl.
    rewrite deliver_view, run_vad_obj.
    change (vad_obj (st (initial self))) with (vad self).
    rewrite Hv, Hfault.
    by destruct (view _) as [[? ?] ?]. }
  assert (HviewB : view b1 = track self (view a0) Silence data).
  { assert (H0 : view (st (run other start (initial other) evs)) = view a0).
    { subst a0. rewrite !run_view.
      change (vad_obj (st (initial other))) with (vad other).
      change (vad_obj (st (initial self))) with (vad self).
      rewrite HvdsA, HvdsB. apply tracks_with_vad. }
    subst b1. rewrite run_app. simpl.
    rewrite deliver_view, run_vad_obj.
    change (vad_obj (st (initial other))) with (vad other).
    by rewrite Hw, Hsilence, H0. }
  split; [done|]. split; [|split; [done|]].
  - subst a1 a0. rewrite !run_initial_buffered, blocks_of_app. done.
  - intros Hquiet. rewrite HviewB, Hview.
    assert (Hd : has_detected_speech a0 = false).
    { rewrite <- HvdsA in Hquiet.
      pose proof (run_no_speech self start (initial self) evs eq_refl Hquiet) as Hq.
      unfold view in Hq. simpl in Hq. subst a0. congruence. }
    unfold view. by rewrite Hd.
Qed.

End CaptureProperties.

(* ===================================================================== *)
(** * The block size at any sample rate *)
(* ===================================================================== *)

Section NormalRounding.

Variables prec emax : Z.

(** Rounding a mantissa with more than [prec] digits in the normal range:
    the result is the mantissa cut to [prec] digits, or the next one up, and
    a carry into digit [prec + 1] costs exactly one more shift. *)
Lemma round_aux_normal s M E :
  0 < prec -> 0 < M ->
  let n := Zdigits2 M - prec in
  0 < n ->
  3 - emax - prec <= E + n ->
  exists mf ef,
    E + n <= ef <= E + n + 1
    /\ M / 2 ^ n <= Zpos mf * 2 ^ (ef - (E + n)) <= M / 2 ^ n + 1
    /\ binary_round_aux prec emax s M E loc_Exact
       = if ef <=? emax - prec then S754_finite s mf ef else S754_infinity s.
Proof.
  intros Hprec HM n Hn Hmin.
  destruct (Zdigits2_bounds M HM) as (HD0 & HDlo & HDhi).
  set (D := Zdigits2 M) in *.
  assert (Hfexp : fexp prec emax (D + E) = E + n).
  { unfold fexp, emin. subst n. lia. }
  unfold binary_round_aux.
  destruct (shr_fexp_shift prec emax M E) as [sticky Hs]; [lia|fold D; lia|].
  fold D in Hs. rewrite Hfexp in Hs. replace (E + n - E) with n in Hs by lia.
  rewrite Hs. cbn [shr_m].
  set (m1 := M / 2 ^ n) in *.
  set (m2 := round_nearest_even m1 _).
  pose proof (round_nearest_even_bounds m1
    (loc_of_shr_record {| shr_m := m1; shr_r := Z.odd (M / 2 ^ (n - 1)); shr_s := sticky |}))
    as Hb.
  fold m2 in Hb.
  assert (Hpn : 0 < 2 ^ n) by (apply pow2_pos; lia).
  assert (Hm1 : 2 ^ (prec - 1) <= m1 < 2 ^ prec).
  { subst m1. split.
    - apply Z.div_le_lower_bound; [lia|].
      replace (2 ^ n * 2 ^ (prec - 1)) with (2 ^ (D - 1)); [lia|].
      rewrite <- pow2_split by lia. f_equal. subst n. lia.
    - apply Z.div_lt_upper_bound; [lia|].
      replace (2 ^ n * 2 ^ prec) with (2 ^ D); [lia|].
      rewrite <- pow2_split by lia. f_equal. subst n. lia. }
  assert (Hpp : 0 < 2 ^ (prec - 1)) by (apply pow2_pos; lia).
  assert (Hp2 : 2 ^ prec = 2 * 2 ^ (prec - 1)).
  { replace prec with (1 + (prec - 1)) at 1 by lia. rewrite pow2_split by lia.
    reflexivity. }
  destruct (Z_lt_le_dec m2 (2 ^ prec)) as [Hsmall|Hcarry].
  - (* no carry *)
    assert (Hdig : Zdigits2 m2 = prec) by (apply Zdigits2_unique; lia).
    rewrite shr_fexp_exact by (rewrite Hdig; unfold fexp, emin; lia).
    cbn [shr_m].
    destruct m2 as [|mf|mf] eqn:Hm2; try lia.
    exists mf, (E + n). rewrite Z.sub_diag, Z.mul_1_r.
    split; [lia|]. split; [lia|reflexivity].
  - (* the carry: m2 = 2 ^ prec *)
    assert (Hm2 : m2 = 2 ^ prec) by lia.
    assert (Hdig : Zdigits2 m2 = prec + 1).
    { apply Zdigits2_unique; [lia|].
      replace (prec + 1 - 1) with prec by lia.
      rewrite (pow2_split prec 1) by lia. change (2 ^ 1) with 2. lia. }
    destruct (shr_fexp_shift prec emax m2 (E + n)) as [sticky2 Hs2];
      [lia|rewrite Hdig; unfold fexp, emin; lia|].
    rewrite Hdig in Hs2.
    replace (fexp prec emax (prec + 1 + (E + n)) - (E + n)) with 1 in Hs2
      by (unfold fexp, emin; lia).
    rewrite Hs2. cbn [shr_m]. change (2 ^ 1) with 2.
    rewrite Hm2, Hp2.
    replace (2 * 2 ^ (prec - 1) / 2) with (2 ^ (prec - 1))
      by (symmetry; rewrite Z.mul_comm; apply Z.div_mul; lia).
    destruct (2 ^ (prec - 1)) as [|mf|mf] eqn:Hmf; try lia.
    exists mf, (E + n + 1).
    replace (E + n + 1 - (E + n)) with 1 by lia. change (2 ^ 1) with 2.
    split; [lia|]. split; [lia|reflexivity].
Qed.

End NormalRounding.

(** X8. [int(sample_rate * 0.02)] (audio.py, line 69) is the sample rate
    divided by 50 and rounded down, at every rate from 0 up to 2^52: the
    double product never reaches the next integer. *)
Theorem block_size_is_floor_of_fiftieth (sample_rate : Z) :
  0 <= sample_rate < 2 ^ 52 ->
  block_size sample_rate = Ok (sample_rate / 50).
Proof.
  intros [H0 Hlt].
  destruct (Z.eq_dec sample_rate 0) as [->|Hnz]; [reflexivity|].
  set (sr := sample_rate) in *.
  assert (Hsr : 0 < sr) by lia.
  unfold block_size.
  rewrite float_of_int_exact
    by (split; [done|]; change (2 ^ 53) with (2 * 2 ^ 52); lia).
  destruct (Zdigits2_bounds sr Hsr) as (Hd0 & Hdlo & Hdhi).
  set (d := Zdigits2 sr) in *.
  assert (Hd : d <= 52).
  { destruct (Z_le_gt_dec d 52); [done|].
    assert (2 ^ 52 <= 2 ^ (d - 1)) by (apply Z.pow_le_mono_r; lia). lia. }
  set (j := 53 - d).
  assert (Hj : 1 <= j) by (subst j; lia).
  set (T := 2 ^ j).
  assert (HT : 2 <= T).
  { subst T. change 2 with (2 ^ 1) at 1. apply Z.pow_le_mono_r; lia. }
  (* sr * T has exactly 53 digits *)
  assert (HA : 2 ^ 52 <= sr * T < 2 ^ 53).
  { replace (2 ^ 52) with (2 ^ (d - 1) * T)
      by (subst T; rewrite <- pow2_split by lia; f_equal; lia).
    replace (2 ^ 53) with (2 ^ d * T)
      by (subst T; rewrite <- pow2_split by lia; f_equal; subst j; lia).
    split.
    - apply Z.mul_le_mono_nonneg_r; lia.
    - apply Z.mul_lt_mono_pos_r; lia. }
  change (2 ^ 52) with 4503599627370496 in HA, Hlt.
  change (2 ^ 53) with 9007199254740992 in HA.
  set (k := sr / 50).
  set (r := sr mod 50).
  assert (Hkr : sr = 50 * k + r) by (subst k r; apply Z.div_mod; lia).
  assert (Hr : 0 <= r < 50) by (subst r; apply Z.mod_pos_bound; lia).
  assert (Hk : 0 <= k) by (subst k; apply Z.div_pos; lia).
  set (u := k * T).
  set (v := r * T).
  assert (Hu : 0 <= u) by (subst u; lia).
  assert (Hv : 0 <= v <= 49 * T) by (subst v; split; nia).
  assert (HsrT : sr * T = 50 * u + v) by (subst u v; lia).
  unfold Py.mul, SFmul, Py.f0_02. cbn [xorb].
  set (M := Zpos (Z.to_pos (sr * T) * 5764607523034235)).
  assert (HM : M = (50 * u + v) * 5764607523034235).
  { subst M. rewrite Pos2Z.inj_mul, Z2Pos.id by lia. by rewrite HsrT. }
  assert (HMpos : 0 < M) by lia.
  destruct (Zdigits2_bounds M HMpos) as (HD0 & HDlo & HDhi).
  set (D := Zdigits2 M) in *.
  assert (HD : D = 105 \/ D = 106).
  { assert (HDge : 105 <= D).
    { destruct (Z_le_gt_dec 105 D); [done|].
      assert (H1 : 2 ^ D <= 2 ^ 104) by (apply Z.pow_le_mono_r; lia).
      change (2 ^ 104) with (4503599627370496 * 4503599627370496) in H1. nia. }
    assert (HDle : D <= 106).
    { destruct (Z_le_gt_dec D 106); [done|].
      assert (H1 : 2 ^ 106 <= 2 ^ (D - 1)) by (apply Z.pow_le_mono_r; lia).
      change (2 ^ 106) with (9007199254740992 * 9007199254740992) in H1. nia. }
    lia. }
  set (E := d - 53 + -58).
  destruct (round_aux_normal Py.prec Py.emax false M E) as (mf & ef & Hef & Hmf & ->);
    [done|done|fold D; unfold Py.prec; lia
    |fold D; unfold Py.prec, Py.emax; subst E; lia|].
  fold D in Hef, Hmf. unfold Py.prec in Hef, Hmf.
  replace (ef <=? Py.emax - Py.prec) with true
    by (symmetry; apply Z.leb_le; unfold Py.emax, Py.prec; subst E; lia).
  unfold Py.int_of_float, Py.trunc, cond_Zopp.
  replace (0 <=? ef) with false by (symmetry; apply Z.leb_gt; subst E; lia).
  f_equal. symmetry.
  assert (Hgap : 6 * u + 5764607523034235 * v + 4503599627370496 * T
                 < 288230376151711744 * T).
  { assert (6 * k < 1000000000000000) by lia. subst u. nia. }
  destruct HD as [HD|HD]; rewrite HD in Hef, Hmf;
    change (105 - 53) with 52 in *; change (106 - 53) with 53 in *.
  - (* n = 52 *)
    change (2 ^ 52) with 4503599627370496 in Hmf.
    assert (Hlo : 64 * u <= M / 4503599627370496)
      by (apply Z.div_le_lower_bound; lia).
    assert (Hhi : M / 4503599627370496 < 64 * u + 64 * T - 1)
      by (apply Z.div_lt_upper_bound; lia).
    assert (Hcase : ef = E + 52 \/ ef = E + 52 + 1) by lia.
    destruct Hcase as [-> | ->].
    + rewrite Z.sub_diag, Z.mul_1_r in Hmf.
      replace (- (E + 52)) with (6 + j) by (subst E j; lia).
      rewrite pow2_split by lia. change (2 ^ 6) with 64. fold T.
      apply (Z.div_unique _ _ _ (Zpos mf - 64 * u)); subst u; lia.
    + replace (E + 52 + 1 - (E + 52)) with 1 in Hmf by lia.
      change (2 ^ 1) with 2 in Hmf.
      replace (- (E + 52 + 1)) with (5 + j) by (subst E j; lia).
      rewrite pow2_split by lia. change (2 ^ 5) with 32. fold T.
      apply (Z.div_unique _ _ _ (Zpos mf - 32 * u)); subst u; lia.
  - (* n = 53 *)
    change (2 ^ 53) with 9007199254740992 in Hmf.
    assert (Hlo : 32 * u <= M / 9007199254740992)
      by (apply Z.div_le_lower_bound; lia).
    assert (Hhi : M / 9007199254740992 < 32 * u + 32 * T - 1)
      by (apply Z.div_lt_upper_bound; lia).
    assert (Hcase : ef = E + 53 \/ ef = E + 53 + 1) by lia.
    destruct Hcase as [-> | ->].
    + rewrite Z.sub_diag, Z.mul_1_r in Hmf.
      replace (- (E + 53)) with (5 + j) by (subst E j; lia).
      rewrite pow2_split by lia. change (2 ^ 5) with 32. fold T.
      apply (Z.div_unique _ _ _ (Zpos mf - 32 * u)); subst u; lia.
    + replace (E + 53 + 1 - (E + 53)) with 1 in Hmf by lia.
      change (2 ^ 1) with 2 in Hmf.
      replace (- (E + 53 + 1)) with (4 + j) by (subst E j; lia).
      rewrite pow2_split by lia. change (2 ^ 4) with 16. fold T.
      apply (Z.div_unique _ _ _ (Zpos mf - 16 * u)); subst u; lia.
Qed.

(* ===================================================================== *)
(** * The encoder treats both signs alike *)
(* ===================================================================== *)

Section Symmetry.

Lemma binary_round_aux_opp prec emax s m e l :
  binary_round_aux prec emax (negb s) m e l
  = SFopp (binary_round_aux prec emax s m e l).
Proof.
  unfold binary_round_aux.
  destruct (shr_fexp prec emax m e l) as [mrs e1].
  destruct (shr_fexp prec emax _ e1 loc_Exact) as [mrs' e2].
  destruct (shr_m mrs'); try reflexivity.
  by destruct (e2 <=? emax - prec).
Qed.

Lemma scale_opp x :
  SFmul Np.prec Np.emax (SFopp x) Np.f32767
  = SFopp (SFmul Np.prec Np.emax x Np.f32767).
Proof.
  destruct x as [s|s| |s m e]; [by destruct s|by destruct s|reflexivity|].
  unfold SFmul, SFopp, Np.f32767. fold (SFopp (S754_finite s m e)).
  rewrite !xorb_false_r. apply binary_round_aux_opp.
Qed.

Lemma trunc_opp y : Py.trunc (SFopp y) = - Py.trunc y.
Proof.
  destruct y as [s|s| |s m e]; try reflexivity. simpl.
  destruct s; simpl; destruct (0 <=? e); lia.
Qed.

Lemma ltb_finite_opp (s : bool) m e c ec :
  SFltb (S754_finite (negb s) m e) (S754_finite true c ec)
  = SFltb (S754_finite false c ec) (S754_finite s m e).
Proof.
  unfold SFltb, SFcompare.
  rewrite (Z.compare_antisym e ec).
  pose proof (Pos.compare_cont_antisym m c Eq) as Ha. cbn [CompOpp] in Ha.
  rewrite <- Ha. clear Ha.
  destruct s; simpl; [reflexivity|].
  destruct (e ?= ec); simpl; try reflexivity.
Qed.

Lemma ltb_opp_finite (s : bool) m e c ec :
  SFltb (S754_finite false c ec) (S754_finite (negb s) m e)
  = SFltb (S754_finite s m e) (S754_finite true c ec).
Proof.
  rewrite <- (negb_involutive s) at 2. by rewrite ltb_finite_opp.
Qed.

Lemma clip1_opp x : Np.clip1 (SFopp x) = SFopp (Np.clip1 x).
Proof.
  destruct x as [s|s| |s m e]; [by destruct s|by destruct s|reflexivity|].
  unfold Np.clip1, Np.one, Np.minus_one. cbn [SFopp Np.is_nan].
  rewrite ltb_finite_opp, ltb_opp_finite.
  destruct (SFltb (S754_finite s m e) (S754_finite true 8388608 (-23))) eqn:Hlow;
    destruct (SFltb (S754_finite false 8388608 (-23)) (S754_finite s m e)) eqn:Hhigh;
    try reflexivity.
  (* below -1 and above 1 at once: impossible *)
  unfold SFltb, SFcompare in Hlow, Hhigh. by destruct s.
Qed.

Lemma valid_binary_opp prec emax x :
  valid_binary prec emax (SFopp x) = valid_binary prec emax x.
Proof. by destruct x. Qed.

(** X9. The encoder is odd: negating a sample negates the 16-bit value its two
    bytes hold. Clipping is symmetric, the product by 32767.0 rounds the
    same way on both sides of zero, and the cast truncates toward zero, so
    there is no bias between positive and negative samples. *)
Theorem float_to_pcm16_is_odd (x : Np.float32) :
  valid_binary Np.prec Np.emax x = true ->
  exists lo hi lo' hi',
    _float_to_pcm16 [x] = [lo; hi]
    /\ _float_to_pcm16 [SFopp x] = [lo'; hi']
    /\ Np.int16_of_bytes lo' hi' = - Np.int16_of_bytes lo hi.
Proof.
  intros Hv.
  assert (Hv' : valid_binary Np.prec Np.emax (SFopp x) = true)
    by by rewrite valid_binary_opp.
  destruct (sample_in_range x Hv) as [Hk Hrange].
  destruct (sample_in_range (SFopp x) Hv') as [Hk' Hrange'].
  rewrite clip1_opp, scale_opp, trunc_opp in Hk', Hrange'.
  rewrite !float_to_pcm16_cons, clip1_opp, scale_opp, Hk, Hk'.
  set (k := Py.trunc (SFmul Np.prec Np.emax (Np.clip1 x) Np.f32767)) in *.
  rewrite !int16_bytes_pair. do 4 eexists.
  split; [reflexivity|]. split; [reflexivity|].
  assert (Hr : -32768 <= k < 32768) by lia.
  assert (Hr' : -32768 <= - k < 32768) by lia.
  rewrite (int16_roundtrip k _ _ Hr (int16_bytes_pair k)).
  by rewrite (int16_roundtrip (- k) _ _ Hr' (int16_bytes_pair (- k))).
Qed.

End Symmetry.

(* ===================================================================== *)
(** * More about the capture: what a run cannot do, and what it leaves *)
(* ===================================================================== *)

Section CaptureInvariants.

Context `{Classifier V}.
Implicit Types (self : Recorder V) (s : state V) (rs : run_state V)
  (evs : list event) (data : Np.ndarray).

Lemma track_detected self x vd data :
  snd (fst x) = true -> snd (fst (track self x vd data)) = true.
Proof.
  destruct x as [[sd hd] rf]. simpl. intros ->.
  destruct vd; simpl; try reflexivity.
  by destruct (block_seconds self data).
Qed.

Lemma deliver_detected self data s :
  has_detected_speech s = true -> has_detected_speech (deliver self data s) = true.
Proof.
  intros Hd.
  assert (Hv : snd (fst (view (deliver self data s))) = true).
  { rewrite deliver_view. destruct (vad_obj s); [|exact Hd].
    by apply track_detected. }
  exact Hv.
Qed.

Lemma run_raised self start evs : forall rs e,
  ctl rs = Raised e -> ctl (run self start rs evs) = Raised e.
Proof.
  induction evs as [|ev evs IH]; intros rs e Hc; [exact Hc|].
  rewrite run_cons. apply IH.
  destruct ev; simpl; by rewrite ?Hc.
Qed.

Lemma flattened_raises self data e : flattened self data = Raise e -> e = IndexError.
Proof.
  unfold flattened. destruct (_ =? 1); [apply column0_raises|discriminate].
Qed.

(** X1. The audio callback (audio.py, lines 76-106) returns normally whatever
    block, frame count and state it is given and whatever the classifier
    does, and every call adds exactly one entry to the frame buffer: a
    classifier fault, a missing column, a zero sample rate and the
    [CallbackStop] it raises itself all end in the [except Exception: pass]. *)
Theorem callback_never_raises self (indata : loc) (frame_count : Z) s :
  snd (callback self indata frame_count s) = Ok tt
  ∧ length (frames (fst (callback self indata frame_count s)))
    = S (length (frames s)).
Proof.
  destruct s as [h vo fr sd hd rf].
  unfold callback, bind, ndarray_copy, modify, gets,
    try_except_pass, vad_is_speech, lift, ret, raise, set_frames, set_heap,
    set_vad_obj, set_silence_duration, set_has_detected_speech,
    set_recording_finished.
  simpl.
  assert (Hlen : length (fr ++ [fresh (dom h)]) = S (length fr))
    by (rewrite length_app; simpl; lia).
  destruct vo as [v|]; simpl; [|by split].
  destruct (Np.column0 _) as [col|e0] eqn:Hcol; simpl.
  2:{ apply column0_raises in Hcol as ->. by split. }
  destruct (is_speech v (_float_to_pcm16 col) _) as [v' [[|]|]]; simpl;
    try by split.
  destruct hd; simpl; [|by split].
  destruct (Py.int_true_div _ _) as [d|e1] eqn:Hdiv; simpl.
  2:{ apply int_true_div_raises in Hdiv as ->. by split. }
  destruct (Py.ge_int _ _); by split.
Qed.

(** X2. Nothing in a run goes back: once speech has been detected the flag
    stays up (only the counter is reset), once the stop flag is up it stays
    up, and once the main thread has left the loop it does not wait again,
    whatever blocks, loop turns and exceptions follow. *)
Theorem run_never_goes_back self start rs evs :
  let rs' := run self start rs evs in
  (has_detected_speech (st rs) = true -> has_detected_speech (st rs') = true)
  ∧ (recording_finished (st rs) = true -> recording_finished (st rs') = true)
  ∧ (ctl rs ≠ Waiting -> ctl rs' ≠ Waiting).
Proof.
  simpl. split; [|split].
  - revert rs. induction evs as [|ev evs IH]; intros rs Hd; [exact Hd|].
    rewrite run_cons. apply IH.
    destruct ev as [data|active now|e]; simpl.
    + by apply deliver_detected.
    + by destruct (ctl rs).
    + by destruct (ctl rs).
  - apply run_finished_mono.
  - revert rs. induction evs as [|ev evs IH]; intros rs Hc; [exact Hc|].
    rewrite run_cons. apply IH.
    destruct ev as [data|active now|e]; simpl.
    + exact Hc.
    + destruct (ctl rs) eqn:Hc'; simpl; rewrite ?Hc'; done.
    + destruct (ctl rs) eqn:Hc'; simpl; rewrite ?Hc'; done.
Qed.

Lemma tracks_no_silence self vds : forall blocks hd,
  Forall (fun vd => vd ≠ Silence) vds ->
  exists hd', tracks self (Py.zero, hd, false) vds blocks = (Py.zero, hd', false).
Proof.
  induction vds as [|vd vds IH]; intros blocks hd Hvds; [by exists hd|].
  apply Forall_cons in Hvds as [Hvd Hvds].
  destruct blocks as [|data rest]; [by exists hd|]. simpl.
  destruct vd; [by apply IH|done|by apply IH].
Qed.

(** X3. Speech without a pause is never cut short: as long as no block is
    classified as silence (every block is speech, or the classifier
    faults), the silence counter stays at 0.0, the stop flag stays down, and
    a loop that finds the stream active keeps waiting until the clock
    passes [max_seconds]. *)
Theorem speech_without_pause_is_never_cut self start evs :
  Forall (fun vd => vd ≠ Silence) (verdicts self (vad self) (blocks_of evs)) ->
  Forall undisturbed evs ->
  let rs := run self start (initial self) evs in
  silence_duration (st rs) = Py.zero
  ∧ recording_finished (st rs) = false
  ∧ ctl rs = (if forallb (timely self start) evs then Waiting else LoopDone ByTimeout).
Proof.
  intros Hvds Hund rs.
  assert (Hview : forall p, p `prefix_of` evs ->
    exists hd, view (st (run self start (initial self) p)) = (Py.zero, hd, false)).
  { intros p [k ->].
    rewrite blocks_of_app, verdicts_app in Hvds.
    apply Forall_app in Hvds as [Hp _].
    rewrite run_view. by apply tracks_no_silence. }
  assert (Hflag : forall p, p `prefix_of` evs ->
    recording_finished (st (run self start (initial self) p)) = false).
  { intros p Hp. destruct (Hview p Hp) as [hd Hv]. unfold view in Hv. congruence. }
  destruct (Hview evs) as [hd Hv]; [reflexivity|].
  unfold view in Hv. fold rs in Hv.
  split; [congruence|]. split; [congruence|].
  by apply waiting_while_unflagged.
Qed.

(** X4. An exception other than [CallbackStop] that reaches the main thread
    while the stream is open (the stream cannot be opened, the device
    disappears) ends [_record_to_path] with [AudioError("Failed to capture
    audio: ...")] and nothing is written, whatever was buffered and whatever
    happens afterwards; [cli._command_once] then prints "Recording failed:
    ..." and returns 1. *)
Theorem stream_error_is_audio_error no_vad arg_dir rc vc timestamp start
    evs1 evs2 e fs n file_path :
  let self := Recorder_init rc {| enabled := negb no_vad;
                                  silence_ms_to_stop := silence_ms_to_stop vc;
                                  aggressiveness := aggressiveness vc |} in
  block_size (sample_rate rc) = Ok n ->
  (forall e', ctl (run self start (initial self) evs1) ≠ Raised e') ->
  is_Exception e = true -> e ≠ CallbackStop ->
  _record_to_path self file_path start (evs1 ++ MainRaise e :: evs2) fs
    = Some (fs, Raise (AudioError ("Failed to capture audio: " ++ exn_str e)))
  ∧ _command_once no_vad arg_dir rc vc timestamp start (evs1 ++ MainRaise e :: evs2) fs
    = Some (fs, Return 1 ("Recording failed: Failed to capture audio: " ++ exn_str e)).
Proof.
  intros self Hbs Hno He Hstop.
  assert (Hctl : ctl (run self start (initial self) (evs1 ++ MainRaise e :: evs2))
                 = Raised e).
  { rewrite run_app, run_cons. apply run_raised. simpl.
    destruct (ctl (run self start (initial self) evs1)) eqn:Hc; try reflexivity.
    by destruct (Hno e0). }
  assert (Hrec : forall p, _record_to_path self p start (evs1 ++ MainRaise e :: evs2) fs
    = Some (fs, Raise (AudioError ("Failed to capture audio: " ++ exn_str e)))).
  { intros p. unfold _record_to_path. simpl. rewrite Hbs, Hctl.
    destruct e; try done. }
  split; [apply Hrec|].
  unfold _command_once, record_once. fold self. by rewrite Hrec.
Qed.

(** X5. Once the stream has closed, [_record_to_path] fails with "No audio
    captured" exactly when the blocks delivered hold no sample at all: also
    when blocks did arrive but every one of them was empty. *)
Theorem no_audio_iff_no_samples self file_path start evs fs n :
  block_size (sample_rate (recording_config self)) = Ok n ->
  stopped (ctl (run self start (initial self) evs)) = true ->
  _record_to_path self file_path start evs fs
    = Some (fs, Raise (AudioError "No audio captured"))
  <-> Np.size (Np.concatenate (blocks_of evs)) = 0%nat.
Proof.
  intros Hbs Hstop. rewrite (record_to_path_stopped _ _ _ _ _ _ Hbs Hstop).
  unfold _write_wav.
  destruct (Nat.eqb_spec (Np.size (Np.concatenate (blocks_of evs))) 0) as [Hz|Hnz].
  - by split.
  - split; [|done].
    destruct (flattened self _) as [fl|e0] eqn:Hfl.
    + discriminate.
    + apply flattened_raises in Hfl as ->. discriminate.
Qed.

(** What [_record_to_path] does to the files. *)
Lemma record_to_path_effect self path start evs fs fs' r :
  _record_to_path self path start evs fs = Some (fs', r) ->
  match r with
  | Ok _ =>
      exists pcm,
        fs' = <[path := {| nchannels := channels (recording_config self);
                           sampwidth := 2;
                           framerate := sample_rate (recording_config self);
                           wav_frames := pcm |}]> fs
  | Raise _ => fs' = fs
  end.
Proof.
  assert (Hw : forall data fs1 r1, _write_wav self path data fs = (fs1, r1) ->
    match r1 with
    | Ok _ =>
        exists pcm,
          fs1 = <[path := {| nchannels := channels (recording_config self);
                             sampwidth := 2;
                             framerate := sample_rate (recording_config self);
                             wav_frames := pcm |}]> fs
    | Raise _ => fs1 = fs
    end).
  { intros data fs1 r1. unfold _write_wav.
    destruct (_ =? _)%nat; [by intros [= <- <-]|].
    destruct (flattened self data) as [fl|e0]; [|by intros [= <- <-]].
    intros [= <- <-]. by eexists. }
  unfold _record_to_path.
  destruct (block_size _) as [b|e0]; [|by intros [= <- <-]].
  destruct (ctl _) as [|why|e0].
  - discriminate.
  - intros [= Hwav]. by apply Hw in Hwav.
  - destruct e0; try (intros [= Hwav]; by apply Hw in Hwav);
      simpl; by intros [= <- <-].
Qed.

Lemma record_once_effect self dir timestamp start evs fs fs' r :
  record_once self dir timestamp start evs fs = Some (fs', r) ->
  match r with
  | Ok p =>
      exists pcm,
        fs' = <[p := {| nchannels := channels (recording_config self);
                        sampwidth := 2;
                        framerate := sample_rate (recording_config self);
                        wav_frames := pcm |}]> fs
  | Raise _ => fs' = fs
  end.
Proof.
  unfold record_once.
  destruct (_record_to_path _ _ _ _ _) as [[fs1 [[]|e]]|] eqn:Hrec;
    intros [= <- <-]; by apply record_to_path_effect in Hrec.
Qed.

(** X7. A recording that is written is a whole number of frames: when every
    row of every delivered block has [channels] samples, the file holds
    [sampwidth * nchannels] bytes for each row captured, so its duration is
    the number of rows over the sample rate. (The rate is such as the
    [wave] module accepts.) *)
Theorem artifact_is_whole_frames self file_path start evs fs fs' :
  0 < sample_rate (recording_config self) ->
  Forall (Forall (fun row => Z.of_nat (length row) = channels (recording_config self)))
    (blocks_of evs) ->
  _record_to_path self file_path start evs fs = Some (fs', Ok tt) ->
  exists w, fs' !! file_path = Some w
    ∧ Z.of_nat (length (wav_frames w))
      = sampwidth w * nchannels w * Z.of_nat (length (concat (blocks_of evs))).
Proof.
  intros _ Hshape Hrec.
  assert (Hrun : stopped (ctl (run self start (initial self) evs)) = true
                 ∧ exists n, block_size (sample_rate (recording_config self)) = Ok n).
  { unfold _record_to_path in Hrec.
    destruct (block_size _) as [b|e0]; [|discriminate].
    split; [|by eexists].
    destruct (ctl _) as [|why|e0]; [discriminate|reflexivity|].
    destruct e0; try reflexivity; simpl in Hrec; discriminate. }
  destruct Hrun as [Hstop [n Hbs]].
  rewrite (record_to_path_stopped _ _ _ _ _ _ Hbs Hstop) in Hrec.
  unfold _write_wav in Hrec.
  destruct (_ =? _)%nat; [discriminate|].
  destruct (flattened self _) as [fl|e0] eqn:Hfl; [|discriminate].
  injection Hrec as <-.
  eexists. rewrite lookup_insert_eq. split; [reflexivity|]. simpl.
  rewrite float_to_pcm16_length.
  unfold Np.concatenate in *.
  assert (Hrows : Forall (fun row => Z.of_nat (length row) = channels (recording_config self))
                    (concat (blocks_of evs))).
  { apply Forall_concat. exact Hshape. }
  revert Hfl Hrows. generalize (concat (blocks_of evs)) as rows.
  intros rows Hfl Hrows. unfold flattened in Hfl.
  destruct (Z.eqb_spec (channels (recording_config self)) 1) as [Hone|Hmany].
  - apply column0_length in Hfl. rewrite Hone. lia.
  - injection Hfl as <-. unfold Np.reshape_flat.
    induction Hrows as [|row rows Hrow _ IH]; [simpl; lia|].
    simpl. rewrite length_app. nia.
Qed.

End CaptureInvariants.

(* ===================================================================== *)
(** * Facts about the retry loop *)
(* ===================================================================== *)

Section RetryFacts.

Import Api.

Lemma range_cons a b : a < b -> range a b = a :: range (a + 1) b.
Proof.
  intros Hab. unfold range.
  replace (Z.to_nat (b - a)) with (S (Z.to_nat (b - (a + 1)))) by lia.
  simpl. rewrite Z.add_0_r. f_equal.
  rewrite <- seq_shift, map_map. apply map_ext. intros i. lia.
Qed.

Lemma range_nil a b : b <= a -> range a b = [].
Proof. intros Hab. unfold range. by replace (Z.to_nat (b - a)) with 0%nat by lia. Qed.

(** The loop from attempt [a] on: [m] is the attempt at which it ends. *)
Lemma attempts_spec post expect retries : forall (n : nat) (a : Z) last,
  a + Z.of_nat n = retries + 1 -> (0 < n)%nat ->
  exists m : Z,
    a <= m <= retries
    /\ (forall i, a <= i < m -> exists exc, attempt_body (post i) expect = inl exc)
    /\ (forall exc, attempt_body (post m) expect = inl exc -> m = retries)
    /\ attempts post expect retries (range a (retries + 1)) last
       = (flat_map (fun i => [Post i; Sleep (Z.min (2 ^ i) 8)]) (range a m) ++ [Post m],
          match attempt_body (post m) expect with
          | inr data => inr data
          | inl exc => inl (failed retries (Some exc))
          end).
Proof.
  induction n as [|n IH]; intros a last Hsum Hn; [lia|].
  rewrite (range_cons a) by lia. simpl.
  destruct (attempt_body (post a) expect) as [exc|data] eqn:Hbody.
  - destruct (Z.geb_spec a retries) as [Hge|Hlt].
    + assert (a = retries) as -> by lia.
      exists retries. rewrite range_nil by lia. simpl. rewrite Hbody.
      split; [lia|]. split; [intros i Hi; lia|]. by split.
    + destruct (IH (a + 1) (Some exc)) as (m & Hm & Hfail & Hlast & ->); [lia|lia|].
      exists m. split; [lia|]. split.
      { intros i Hi. destruct (Z.eq_dec i a) as [->|Hne]; [by eexists|].
        apply Hfail. lia. }
      split; [exact Hlast|].
      by rewrite (range_cons a m) by lia.
  - exists a. rewrite range_nil by lia. simpl. rewrite Hbody.
    split; [lia|]. split; [intros i Hi; lia|]. by split.
Qed.

Lemma post_with_retries_spec config post expect :
  let retries := Z.max (max_retries config) 1 in
  exists m : Z,
    1 <= m <= retries
    /\ (forall i, 1 <= i < m -> exists exc, attempt_body (post i) expect = inl exc)
    /\ (forall exc, attempt_body (post m) expect = inl exc -> m = retries)
    /\ _post_with_retries config post expect
       = (schedule m,
          match attempt_body (post m) expect with
          | inr data => inr data
          | inl exc => inl (failed retries (Some exc))
          end).
Proof.
  intros retries. unfold _post_with_retries. fold retries.
  apply (attempts_spec post expect retries (Z.to_nat retries) 1 None); subst retries; lia.
Qed.

(** X10. [_post_with_retries] sends between one and [max(max_retries, 1)]
    requests, one at a time; between two requests it sleeps
    [min(2 ** attempt, 8)] seconds and it never sleeps after the last one;
    and whatever goes wrong (no connection, an HTTP error status, a body
    that is not JSON or not a list), the only exception that leaves it is
    [ChutesAPIError]. *)
Theorem post_with_retries_schedule config post expect :
  exists m : Z,
    1 <= m <= Z.max (max_retries config) 1
    /\ fst (_post_with_retries config post expect) = schedule m
    /\ (forall exc, snd (_post_with_retries config post expect) = inl exc ->
          exists msg, exc = ChutesAPIError msg).
Proof.
  destruct (post_with_retries_spec config post expect) as (m & Hm & _ & _ & ->).
  exists m. split; [exact Hm|]. split; [reflexivity|].
  simpl. intros exc. destruct (attempt_body (post m) expect); [|discriminate].
  intros [= <-]. by eexists.
Qed.

(** X11. The first attempt whose response is accepted ends the loop: its data
    is returned, each attempt before it was followed by its pause, and no
    later request is sent. *)
Theorem first_accepted_attempt_wins config post expect (m : Z) data :
  1 <= m <= Z.max (max_retries config) 1 ->
  (forall i, 1 <= i < m -> exists exc, attempt_body (post i) expect = inl exc) ->
  attempt_body (post m) expect = inr data ->
  _post_with_retries config post expect = (schedule m, inr data).
Proof.
  intros Hm Hbefore Hok.
  destruct (post_with_retries_spec config post expect) as (m' & Hm' & Hfail & Hlast & ->).
  assert (m' = m) as ->.
  { destruct (Z.lt_trichotomy m' m) as [Hlt|[Heq|Hgt]]; [|exact Heq|].
    - destruct (Hbefore m') as [exc Hexc]; [lia|].
      specialize (Hlast exc Hexc). lia.
    - destruct (Hfail m) as [exc Hexc]; [lia|]. congruence. }
  by rewrite Hok.
Qed.

(** X12. When every attempt fails, the request has been sent exactly
    [max(max_retries, 1)] times, with a pause after each attempt but the
    last, and the [ChutesAPIError] raised names that number and the error of
    the last attempt. *)
Theorem retries_exhausted config post expect exc :
  let retries := Z.max (max_retries config) 1 in
  (forall i, 1 <= i < retries -> exists exc', attempt_body (post i) expect = inl exc') ->
  attempt_body (post retries) expect = inl exc ->
  _post_with_retries config post expect
  = (schedule retries,
     inl (ChutesAPIError ("Failed to contact Chutes API after " ++ str_of_int retries
                          ++ " attempts: " ++ error_str exc))).
Proof.
  intros retries Hbefore Hfailed.
  destruct (post_with_retries_spec config post expect) as (m' & Hm' & Hfail & Hlast & ->).
  fold retries in Hm', Hlast |- *.
  assert (m' = retries) as ->.
  { destruct (Z.eq_dec m' retries) as [Heq|Hne]; [exact Heq|].
    destruct (Hbefore m') as [exc' Hexc]; [lia|]. exact (Hlast exc' Hexc). }
  by rewrite Hfailed.
Qed.

Lemma attempt_body_empty_audio posted data :
  attempt_body posted true = inr data
  <-> data = []
      /\ exists response body,
           posted = Responds response
           /\ http_error response = None /\ json_body response = inr body.
Proof.
  unfold attempt_body, _raise_for_status.
  destruct posted as [msg|[status body]]; simpl.
  - split; [discriminate|]. by intros (_ & r & b & [=] & _).
  - destruct status as [exc|]; simpl.
    + split; [discriminate|]. by intros (_ & r & b & [= <-] & [=] & _).
    + destruct body as [msg|body]; simpl.
      * split; [discriminate|]. by intros (_ & r & b & [= <-] & _ & [=]).
      * split.
        { intros [= <-]. split; [done|]. by eexists _, _. }
        { by intros [-> _]. }
Qed.

(** X13. The connectivity test looks at the status and at nothing else of the
    answer: [test_connection] returns (the empty list) exactly when one of
    the allowed attempts gets a response with a good status whose body is
    JSON of any shape, also one that [transcribe] would refuse as not a
    list. *)
Theorem test_connection_accepts_any_json config post :
  (exists m response body,
      1 <= m <= Z.max (max_retries config) 1
      /\ post m = Responds response
      /\ http_error response = None /\ json_body response = inr body)
  <-> snd (test_connection config post) = inr [].
Proof.
  unfold test_connection.
  destruct (post_with_retries_spec config post true) as (m' & Hm' & Hfail & Hlast & ->).
  simpl. split.
  - intros (m & response & body & Hm & Hpost & Hstatus & Hbody).
    assert (Hgood : attempt_body (post m) true = inr []).
    { apply attempt_body_empty_audio. split; [done|]. by exists response, body. }
    destruct (attempt_body (post m') true) as [exc|data] eqn:Hm'body.
    + specialize (Hlast exc eq_refl). subst m'.
      destruct (Z.eq_dec m (Z.max (max_retries config) 1)) as [->|Hne]; [congruence|].
      destruct (Hfail m) as [exc' Hexc']; [lia|]. congruence.
    + apply attempt_body_empty_audio in Hm'body as [-> _]. reflexivity.
  - destruct (attempt_body (post m') true) as [exc|data] eqn:Hm'body; [discriminate|].
    intros _. apply attempt_body_empty_audio in Hm'body as (_ & response & body & H1 & H2 & H3).
    by exists m', response, body.
Qed.

End RetryFacts.

(* ===================================================================== *)
(** * Facts about the configuration dictionaries *)
(* ===================================================================== *)

Section ConfigFacts.

Import Config.

Lemma merge_dicts_cons defaults key v rest :
  _merge_dicts defaults ((key, v) :: rest)
  = _merge_dicts (merge_item defaults key v) rest.
Proof.
  unfold _merge_dicts, merge_item. simpl.
  destruct v; try reflexivity.
Qed.

Lemma dict_get_set d key v key' :
  dict_get (dict_set d key v) key'
  = if String.eqb key key' then Some v else dict_get d key'.
Proof.
  induction d as [|[k v0] d IH]; simpl.
  - reflexivity.
  - destruct (String.eqb_spec k key) as [->|Hne]; simpl.
    + destruct (String.eqb key key'); reflexivity.
    + rewrite IH. destruct (String.eqb_spec k key') as [->|Hne'].
      * destruct (String.eqb_spec key key') as [->|_]; [done|reflexivity].
      * reflexivity.
Qed.

Lemma keys_dict_set d key v :
  keys (dict_set d key v)
  = if bool_decide (key ∈ keys d) then keys d else keys d ++ [key].
Proof.
  induction d as [|[k v0] d IH]; simpl.
  - reflexivity.
  - destruct (String.eqb_spec k key) as [->|Hne]; simpl.
    + rewrite bool_decide_eq_true_2 by apply list_elem_of_here. reflexivity.
    + unfold keys in *. rewrite IH.
      destruct (decide (key ∈ map fst d)) as [Hin|Hnin].
      * rewrite !bool_decide_eq_true_2;
          [reflexivity|by apply list_elem_of_further|exact Hin].
      * rewrite !bool_decide_eq_false_2; [reflexivity| |exact Hnin].
        intros [Heq|Hin]%elem_of_cons; [by apply Hne|by apply Hnin].
Qed.

Lemma keys_merge_item d key v :
  keys (merge_item d key v)
  = if bool_decide (key ∈ keys d) then keys d else keys d ++ [key].
Proof.
  unfold merge_item.
  destruct v; try apply keys_dict_set.
  destruct (dict_get d key) as [[]|]; apply keys_dict_set.
Qed.

Lemma dict_get_None d key : dict_get d key = None <-> key ∉ keys d.
Proof.
  induction d as [|[k v0] d IH]; simpl.
  - split; [intros _; apply not_elem_of_nil|done].
  - destruct (String.eqb_spec k key) as [->|Hne].
    + split; [done|]. intros Hnin. destruct Hnin. apply list_elem_of_here.
    + rewrite IH. unfold keys. split.
      * intros Hnin [Heq|Hin]%elem_of_cons; [by apply Hne|by apply Hnin].
      * intros Hnin Hin. apply Hnin. by apply list_elem_of_further.
Qed.

Lemma dict_get_merge_item d key v key' :
  key <> key' -> dict_get (merge_item d key v) key' = dict_get d key'.
Proof.
  intros Hne. unfold merge_item.
  assert (Hset : forall w, dict_get (dict_set d key w) key' = dict_get d key').
  { intros w. rewrite dict_get_set. by destruct (String.eqb_spec key key'). }
  destruct v; try apply Hset.
  destruct (dict_get d key) as [[]|]; apply Hset.
Qed.

Lemma dict_get_merge_item_eq d key v :
  dict_get (merge_item d key v) key
  = match v, dict_get d key with
    | VDict items, Some (VDict dv) => Some (VDict (_merge_dicts dv items))
    | _, _ => Some v
    end.
Proof.
  unfold merge_item.
  destruct v; try (rewrite dict_get_set, String.eqb_refl; reflexivity).
  destruct (dict_get d key) as [[]|]; rewrite dict_get_set, String.eqb_refl; reflexivity.
Qed.

Lemma dict_get_merge_skip overrides : forall defaults key,
  key ∉ keys overrides ->
  dict_get (_merge_dicts defaults overrides) key = dict_get defaults key.
Proof.
  induction overrides as [|[k v] rest IH]; intros defaults key Hnin; [done|].
  apply not_elem_of_cons in Hnin as [Hne Hnin].
  rewrite merge_dicts_cons, IH by exact Hnin.
  apply dict_get_merge_item. intros ->. by apply Hne.
Qed.

Lemma dict_get_merge_dicts defaults overrides key :
  NoDup (keys overrides) ->
  dict_get (_merge_dicts defaults overrides) key
  = match dict_get overrides key with
    | None => dict_get defaults key
    | Some (VDict items) =>
        match dict_get defaults key with
        | Some (VDict d) => Some (VDict (_merge_dicts d items))
        | _ => Some (VDict items)
        end
    | Some v => Some v
    end.
Proof.
  revert defaults.
  induction overrides as [|[k v] rest IH]; intros defaults Hnd; [done|].
  apply NoDup_cons in Hnd as [Hk Hnd].
  rewrite merge_dicts_cons. simpl.
  destruct (String.eqb_spec k key) as [->|Hne].
  - rewrite dict_get_merge_skip by exact Hk.
    rewrite dict_get_merge_item_eq.
    destruct v; try reflexivity.
  - rewrite IH by exact Hnd.
    rewrite !(dict_get_merge_item _ k v key Hne). reflexivity.
Qed.

(** X15. Looking a key up in [_merge_dicts(defaults, overrides)]: a key the
    overrides do not have keeps its default; a key they give a value that
    is not a table takes that value; and a key they give a table takes the
    table, merged in the same way with the default if that is a table too. *)
Theorem merge_dicts_lookup defaults overrides key :
  NoDup (keys overrides) ->
  let merged := _merge_dicts defaults overrides in
  (dict_get overrides key = None -> dict_get merged key = dict_get defaults key)
  /\ (forall v, dict_get overrides key = Some v -> kind_of v <> KDict ->
        dict_get merged key = Some v)
  /\ (forall items, dict_get overrides key = Some (VDict items) ->
        dict_get merged key
        = Some (VDict match dict_get defaults key with
                      | Some (VDict d) => _merge_dicts d items
                      | _ => items
                      end)).
Proof.
  intros Hnd merged. subst merged.
  rewrite dict_get_merge_dicts by exact Hnd.
  split; [|split].
  - by intros ->.
  - intros v -> Hkind. by destruct v.
  - intros items ->. by destruct (dict_get defaults key) as [[]|].
Qed.

Lemma merge_dicts_keeps_keys overrides : forall defaults key,
  key ∈ keys defaults \/ key ∈ keys overrides ->
  key ∈ keys (_merge_dicts defaults overrides).
Proof.
  induction overrides as [|[k v] rest IH]; intros defaults key Hin.
  - destruct Hin as [Hin|Hin]; [exact Hin|by apply elem_of_nil in Hin].
  - rewrite merge_dicts_cons. apply IH.
    rewrite keys_merge_item.
    destruct (decide (k ∈ keys defaults)) as [Hk|Hk].
    + rewrite bool_decide_eq_true_2 by exact Hk.
      destruct Hin as [Hin|Hin]; [by left|].
      apply elem_of_cons in Hin as [->|Hin]; [by left|by right].
    + rewrite bool_decide_eq_false_2 by exact Hk.
      destruct Hin as [Hin|Hin]; [left; apply elem_of_app; by left|].
      apply elem_of_cons in Hin as [->|Hin]; [|by right].
      left. apply elem_of_app. right. apply list_elem_of_here.
Qed.

(** X16. [_merge_dicts] loses no key and moves none: the result lists the keys
    of the defaults in their order, then the keys only the overrides have,
    in theirs. *)
Theorem merge_dicts_keys defaults overrides :
  NoDup (keys overrides) ->
  keys (_merge_dicts defaults overrides)
  = keys defaults ++ filter (fun k => k ∉ keys defaults) (keys overrides).
Proof.
  revert defaults.
  induction overrides as [|[k v] rest IH]; intros defaults Hnd.
  - simpl. by rewrite app_nil_r.
  - apply NoDup_cons in Hnd as [Hk Hnd].
    rewrite merge_dicts_cons, IH by exact Hnd.
    rewrite keys_merge_item. simpl.
    destruct (decide (k ∈ keys defaults)) as [Hin|Hnin].
    + rewrite bool_decide_eq_true_2 by exact Hin.
      rewrite filter_cons_False by (intros Hc; by apply Hc). reflexivity.
    + rewrite bool_decide_eq_false_2 by exact Hnin.
      rewrite filter_cons_True by exact Hnin.
      rewrite <- app_assoc. simpl. f_equal. f_equal.
      clear IH Hnd. unfold keys in Hk.
      induction rest as [|[k' v'] rest IH]; [done|]. simpl in *.
      apply not_elem_of_cons in Hk as [Hk' Hrest].
      destruct (decide (k' ∈ keys defaults)) as [Hin|Hnin'].
      * rewrite !filter_cons_False; [by apply IH| |]; intros Hc; apply Hc;
          [exact Hin|apply elem_of_app; by left].
      * rewrite !filter_cons_True; [by rewrite IH|exact Hnin'|].
        intros [Hd|Hs]%elem_of_app; [by apply Hnin'|].
        apply list_elem_of_singleton in Hs. congruence.
Qed.

(** X17. A configuration file need not be complete: an option it gives
    replaces the default, an option it leaves out keeps it, and nothing of
    a section is lost because the file has a table of that name. *)
Theorem file_options_override_defaults defaults data section name :
  NoDup (keys data) ->
  (forall items, dict_get data section = Some (VDict items) -> NoDup (keys items)) ->
  (forall v, dict_get data section = Some v -> kind_of v = KDict) ->
  lookup2 (_merge_dicts defaults data) section name
  = match lookup2 data section name with
    | None => lookup2 defaults section name
    | Some (VDict items) =>
        match lookup2 defaults section name with
        | Some (VDict d) => Some (VDict (_merge_dicts d items))
        | _ => Some (VDict items)
        end
    | Some v => Some v
    end.
Proof.
  intros Hnd Hnd2 Htable. unfold lookup2.
  rewrite dict_get_merge_dicts by exact Hnd.
  destruct (dict_get data section) as [v|] eqn:Hdata.
  - specialize (Htable v eq_refl).
    destruct v as [| | | | | |items]; try discriminate.
    specialize (Hnd2 items eq_refl).
    destruct (dict_get defaults section) as [[| | | | | |d]|] eqn:Hdef;
      try (by destruct (dict_get items name) as [[]|]).
    by rewrite dict_get_merge_dicts.
  - reflexivity.
Qed.

(* ----------------------------------------------------------------------- *)

Lemma str_split1_sound sep s : forall a b,
  str_split1 sep s = Some (a, b) ->
  s = (a ++ String sep b)%string /\ str_contains sep a = false.
Proof.
  induction s as [|c s IH]; intros a b; simpl; [discriminate|].
  destruct (Ascii.eqb_spec c sep) as [->|Hne].
  - intros [= <- <-]. by split.
  - destruct (str_split1 sep s) as [[a' b']|]; [|discriminate].
    intros [= <- <-]. destruct (IH a' b' eq_refl) as [-> Hno]. simpl.
    split; [done|]. by destruct (Ascii.eqb_spec c sep).
Qed.

Lemma str_split1_complete sep a b :
  str_contains sep a = false ->
  str_split1 sep (a ++ String sep b) = Some (a, b).
Proof.
  induction a as [|c a IH]; simpl.
  - intros _. by rewrite Ascii.eqb_refl.
  - intros [Hc Hno]%orb_false_elim. rewrite Hc, IH by exact Hno. reflexivity.
Qed.

Lemma str_split1_Some sep s a b :
  str_split1 sep s = Some (a, b)
  <-> s = (a ++ String sep b)%string /\ str_contains sep a = false.
Proof.
  split; [apply str_split1_sound|].
  intros [-> Hno]. by apply str_split1_complete.
Qed.

Lemma str_split1_None sep s : str_split1 sep s = None <-> str_contains sep s = false.
Proof.
  induction s as [|c s IH]; simpl; [done|].
  destruct (Ascii.eqb_spec c sep) as [->|Hne]; simpl; [done|].
  destruct (str_split1 sep s) as [[a b]|]; [|done].
  split; [discriminate|]. intros Hno. by apply IH in Hno.
Qed.

(** X14. [_split_key] cuts a key at its first dot: it answers [(section,
    option)] exactly for the keys [section + "." + option] with both parts
    non-empty and no dot in the section (the option may have dots), and it
    reports a key that is not in section.option format exactly when the key
    has no dot at all. *)
Theorem split_key_spec key :
  (forall section name,
     _split_key key = inr (section, name)
     <-> key = (section ++ "." ++ name)%string
         /\ str_contains "." section = false
         /\ section <> EmptyString /\ name <> EmptyString)
  /\ (_split_key key = inl (ValueError "Key must be in section.option format")
      <-> str_contains "." key = false).
Proof.
  unfold _split_key. split.
  - intros section name.
    destruct (str_split1 "." key) as [[a b]|] eqn:Hs.
    + apply str_split1_Some in Hs as [-> Hno].
      destruct a as [|c a]; simpl.
      * split; [discriminate|]. intros (Heq & Hno' & Hne & _).
        destruct section; [done|]. simpl in *. injection Heq as <- _.
        discriminate.
      * destruct b as [|c' b]; simpl.
        { split; [discriminate|]. intros (Heq & Hno' & _ & Hne).
          assert (Hs : str_split1 "." (String c a ++ ".") = Some (section, name)).
          { apply str_split1_Some. by split. }
          assert (Hs' : str_split1 "." (String c a ++ ".") = Some (String c a, EmptyString)).
          { apply str_split1_Some. by split. }
          rewrite Hs in Hs'. by injection Hs' as _ ->. }
        { split.
          - intros [= <- <-]. by repeat split.
          - intros (Heq & Hno' & _ & _).
            assert (Hs : str_split1 "." (String c a ++ String "." (String c' b))
                         = Some (section, name)).
            { apply str_split1_Some. by split. }
            assert (Hs' : str_split1 "." (String c a ++ String "." (String c' b))
                          = Some (String c a, String c' b)).
            { apply str_split1_Some. by split. }
            rewrite Hs in Hs'. by injection Hs' as -> ->. }
    + split; [discriminate|]. intros (Heq & Hno & _ & _).
      assert (Hs' : str_split1 "." key = Some (section, name)).
      { apply str_split1_Some. by split. }
      congruence.
  - destruct (str_split1 "." key) as [[a b]|] eqn:Hs.
    + assert (Hyes : str_contains "." key <> false).
      { intros Hno. apply str_split1_None in Hno. congruence. }
      split; [|done].
      destruct (str_empty a || str_empty b); discriminate.
    + apply str_split1_None in Hs. by split.
Qed.

(* ----------------------------------------------------------------------- *)

Section EnvFacts.

Context `{Builtins}.

Lemma coerce_kind v target c :
  _coerce v target = inr c -> kind_of c = coerced_kind (kind_of target).
Proof.
  unfold _coerce. destruct target; try by intros [= <-].
  - destruct (_bool (VStr v)); [discriminate|by intros [= <-]].
  - destruct (int_of_str v); [by intros [= <-]|discriminate].
  - destruct (float_of_str v); [by intros [= <-]|discriminate].
Qed.

Lemma coerce_raises v target e :
  _coerce v target = inl e -> exists msg, e = ValueError msg.
Proof.
  unfold _coerce, _bool. destruct target; simpl; try discriminate.
  - repeat case_bool_decide; try discriminate. intros [= <-]. by eexists.
  - destruct (int_of_str v); [discriminate|]. intros [= <-]. by eexists.
  - destruct (float_of_str v); [discriminate|]. intros [= <-]. by eexists.
Qed.

Lemma dict_get_Some_keys d key v : dict_get d key = Some v -> key ∈ keys d.
Proof.
  intros Hget. destruct (decide (key ∈ keys d)) as [|Hnin]; [done|].
  apply dict_get_None in Hnin. congruence.
Qed.

Lemma lookup2_set config section options name v s n :
  dict_get config section = Some (VDict options) ->
  lookup2 (dict_set config section (VDict (dict_set options name v))) s n
  = if (String.eqb section s && String.eqb name n)%bool then Some v
    else lookup2 config s n.
Proof.
  intros Hsec. unfold lookup2. rewrite dict_get_set.
  destruct (String.eqb_spec section s) as [<-|Hne]; simpl; [|reflexivity].
  rewrite dict_get_set, Hsec. reflexivity.
Qed.

(** What one environment variable does, when it does anything. *)
Lemma override_cases config env_key env_value :
  override config env_key env_value = inr config
  \/ override config env_key env_value = inl TypeError
  \/ exists section name options current coerced,
       env_target env_key = Some (section, name)
       /\ dict_get config section = Some (VDict options)
       /\ dict_get options name = Some current
       /\ _coerce env_value current = inr coerced
       /\ override config env_key env_value
          = inr (dict_set config section (VDict (dict_set options name coerced))).
Proof.
  unfold override.
  destruct (env_target env_key) as [[section name]|] eqn:Ht; [|by left].
  destruct (dict_get config section) as [[| | | | | |options]|] eqn:Hsec;
    try (by left); try (by right; left).
  destruct (dict_get options name) as [current|] eqn:Hcur; [|by left].
  destruct (_coerce env_value current) as [e|coerced] eqn:Hco.
  - apply coerce_raises in Hco as [msg ->]. by left.
  - right. right. by exists section, name, options, current, coerced.
Qed.

Lemma same_shape_refl config : same_shape config config.
Proof.
  split; [done|]. intros section name.
  destruct (lookup2 config section name) as [v|]; [|done].
  exists v. by split; [|left].
Qed.

Lemma coerced_kind_idemp k : coerced_kind (coerced_kind k) = coerced_kind k.
Proof. by destruct k. Qed.

Lemma same_shape_trans c1 c2 c3 :
  same_shape c1 c2 -> same_shape c2 c3 -> same_shape c1 c3.
Proof.
  intros [Hk1 H1] [Hk2 H2]. split; [congruence|].
  intros section name. specialize (H1 section name). specialize (H2 section name).
  destruct (lookup2 c1 section name) as [v|].
  - destruct H1 as (v' & Hv' & Hrel). rewrite Hv' in H2.
    destruct H2 as (v'' & Hv'' & Hrel'). exists v''. split; [done|].
    destruct Hrel as [->|Hk]; [done|].
    destruct Hrel' as [->|Hk']; [by right|].
    right. by rewrite Hk', Hk, coerced_kind_idemp.
  - by rewrite H1 in H2.
Qed.

Lemma override_shape config env_key env_value config' :
  override config env_key env_value = inr config' -> same_shape config config'.
Proof.
  intros Hov.
  destruct (override_cases config env_key env_value)
    as [Hsame|[Hty|(section & name & options & current & coerced
                    & Ht & Hsec & Hcur & Hco & Heq)]].
  - rewrite Hsame in Hov. injection Hov as <-. apply same_shape_refl.
  - congruence.
  - rewrite Heq in Hov. injection Hov as <-. split.
    + rewrite keys_dict_set.
      by rewrite bool_decide_eq_true_2 by (by eapply dict_get_Some_keys).
    + intros s n. rewrite (lookup2_set _ _ _ _ _ _ _ Hsec).
      destruct (String.eqb_spec section s) as [<-|Hne]; simpl.
      * destruct (String.eqb_spec name n) as [<-|Hne'].
        { unfold lookup2. rewrite Hsec, Hcur. exists coerced.
          split; [done|]. right. by eapply coerce_kind. }
        { destruct (lookup2 config section n) as [v|]; [|done].
          exists v. by split; [|left]. }
      * destruct (lookup2 config s n) as [v|]; [|done].
        exists v. by split; [|left].
Qed.

(** X18. Environment variables change values, never the shape: whatever the
    environment holds, [_apply_env_overrides] returns a dictionary with the
    same sections in the same order and, in them, the same options; and an
    option that was a bool, an int, a float or a string is still one of the
    same type (anything else named by a variable becomes a string). *)
Theorem env_overrides_keep_the_shape environ config config' :
  _apply_env_overrides environ config = inr config' ->
  keys config' = keys config
  /\ forall section name,
       match lookup2 config section name with
       | None => lookup2 config' section name = None
       | Some v =>
           exists v', lookup2 config' section name = Some v'
             /\ (v' = v \/ kind_of v' = coerced_kind (kind_of v))
       end.
Proof.
  change (_apply_env_overrides environ config = inr config' -> same_shape config config').
  revert config. induction environ as [|[k v] rest IH]; intros config; simpl.
  - intros [= <-]. apply same_shape_refl.
  - destruct (override config k v) as [e|c1] eqn:Hov; [discriminate|].
    intros Hrest. eapply same_shape_trans; [by eapply override_shape|by apply IH].
Qed.

Lemma apply_env_overrides_keeps_options environ : forall config config' section name,
  _apply_env_overrides environ config = inr config' ->
  is_Some (lookup2 config section name) ->
  is_Some (lookup2 config' section name).
Proof.
  induction environ as [|[k v] rest IH]; intros config config' section name; simpl.
  - by intros [= <-].
  - destruct (override config k v) as [e|c1] eqn:Hov; [discriminate|].
    intros Hrest [x Hx]. apply (IH c1 config' section name Hrest).
    apply override_shape in Hov as [_ Hshape].
    specialize (Hshape section name). rewrite Hx in Hshape.
    destruct Hshape as (x' & -> & _). by eexists.
Qed.

Lemma override_unprefixed config env_key env_value :
  String.prefix "OMNIVOCAL_" env_key = false ->
  override config env_key env_value = inr config.
Proof. intros Hp. unfold override, env_target. by rewrite Hp. Qed.

Lemma apply_env_overrides_inert environ config :
  Forall (fun kv => String.prefix "OMNIVOCAL_" kv.1 = false) environ ->
  _apply_env_overrides environ config = inr config.
Proof.
  induction 1 as [|[k v] rest Hk _ IH]; [done|]. simpl.
  by rewrite override_unprefixed.
Qed.

Lemma apply_env_overrides_app env1 env2 : forall config,
  _apply_env_overrides (env1 ++ env2) config
  = match _apply_env_overrides env1 config with
    | inl e => inl e
    | inr config' => _apply_env_overrides env2 config'
    end.
Proof.
  induction env1 as [|[k v] rest IH]; intros config; [done|]. simpl.
  destruct (override config k v); [done|apply IH].
Qed.

(** X19. Only the variables whose name starts with [OMNIVOCAL_] count: the
    rest of the environment can be left out without changing the result. *)
Theorem only_prefixed_variables_count environ config :
  _apply_env_overrides
    (filter (fun kv => String.prefix "OMNIVOCAL_" kv.1 = true) environ) config
  = _apply_env_overrides environ config.
Proof.
  revert config. induction environ as [|[k v] rest IH]; intros config; [done|].
  destruct (String.prefix "OMNIVOCAL_" k) eqn:Hp.
  - rewrite filter_cons_True by exact Hp. simpl.
    destruct (override config k v); [done|apply IH].
  - rewrite filter_cons_False by (simpl; congruence). simpl.
    rewrite override_unprefixed by exact Hp. apply IH.
Qed.

(** X20. One variable [OMNIVOCAL_<SECTION>_<OPTION>] that names an existing
    option, in an environment whose other variables lack the prefix: if its
    value can be coerced to the type of the option's present value, the
    option takes the coerced value and every other option is as it was; if
    it cannot, the variable is skipped and the configuration is returned
    unchanged. *)
Theorem env_variable_sets_its_option before after config env_key env_value
    section name current :
  Forall (fun kv => String.prefix "OMNIVOCAL_" kv.1 = false) before ->
  Forall (fun kv => String.prefix "OMNIVOCAL_" kv.1 = false) after ->
  env_target env_key = Some (section, name) ->
  lookup2 config section name = Some current ->
  let environ := before ++ (env_key, env_value) :: after in
  match _coerce env_value current with
  | inr coerced =>
      exists config',
        _apply_env_overrides environ config = inr config'
        /\ lookup2 config' section name = Some coerced
        /\ forall s n, (s, n) <> (section, name) ->
             lookup2 config' s n = lookup2 config s n
  | inl _ => _apply_env_overrides environ config = inr config
  end.
Proof.
  intros Hbefore Hafter Ht Hcur environ. subst environ.
  rewrite apply_env_overrides_app, apply_env_overrides_inert by exact Hbefore.
  simpl. unfold override. rewrite Ht.
  unfold lookup2 in Hcur.
  destruct (dict_get config section) as [[| | | | | |options]|] eqn:Hsec;
    try discriminate.
  rewrite Hcur.
  destruct (_coerce env_value current) as [e|coerced] eqn:Hco.
  - apply coerce_raises in Hco as [msg ->].
    by apply apply_env_overrides_inert.
  - rewrite apply_env_overrides_inert by exact Hafter.
    eexists. split; [reflexivity|]. split.
    + rewrite (lookup2_set _ _ _ _ _ _ _ Hsec). by rewrite !String.eqb_refl.
    + intros s n Hne. rewrite (lookup2_set _ _ _ _ _ _ _ Hsec).
      destruct (String.eqb_spec section s) as [<-|]; [|done].
      destruct (String.eqb_spec name n) as [<-|]; [|done].
      done.
Qed.

Lemma from_dict_loop_raises classes data e :
  from_dict_loop classes data = inl e -> e = TypeError.
Proof.
  induction classes as [|[section_name section_type] rest IH]; simpl; [discriminate|].
  destruct section_type as [| | | | | |fields]; try by intros [= <-].
  destruct (dataclass_init fields _) as [e1|instance] eqn:Hinit.
  - intros [= <-]. unfold dataclass_init in Hinit.
    destruct (default _ _) as [| | | | | |kwargs]; try by injection Hinit as <-.
    destruct (forallb _ _); [discriminate|by injection Hinit as <-].
  - destruct (from_dict_loop rest data) as [e2|kwargs]; [|discriminate].
    intros [= <-]. by apply IH.
Qed.

Lemma from_dict_loop_unknown classes data section fields options name :
  dict_get classes section = Some (VDict fields) ->
  dict_get data section = Some (VDict options) ->
  name ∈ keys options -> name ∉ keys fields ->
  from_dict_loop classes data = inl TypeError.
Proof.
  intros Hclass Hdata Hin Hnin.
  induction classes as [|[section_name section_type] rest IH]; simpl in *; [discriminate|].
  destruct (String.eqb_spec section_name section) as [->|Hne].
  - injection Hclass as ->. rewrite Hdata. simpl.
    destruct (forallb _ _) eqn:Hall; [|reflexivity].
    rewrite forallb_forall in Hall.
    apply list_elem_of_In in Hin. specialize (Hall name Hin).
    by apply bool_decide_eq_true in Hall.
  - destruct section_type as [| | | | | |fs]; try reflexivity.
    destruct (dataclass_init fs _) as [e1|instance] eqn:Hinit.
    + f_equal. apply (from_dict_loop_raises [(section_name, VDict fs)] data).
      simpl. by rewrite Hinit.
    + by rewrite (IH Hclass).
Qed.

Lemma apply_env_overrides_raises environ config e :
  _apply_env_overrides environ config = inl e -> e = TypeError.
Proof.
  revert config. induction environ as [|[k v] rest IH]; intros config; simpl;
    [discriminate|].
  destruct (override_cases config k v) as [->|[->|(? & ? & ? & ? & ? & _ & _ & _ & _ & ->)]].
  - apply IH.
  - by intros [= <-].
  - apply IH.
Qed.

(** X21. An option the dataclasses do not know is fatal: when the file has, in
    one of the six sections, an option that is not a field of that section,
    [load_config] raises [TypeError] whatever else the file and the
    environment hold, because the merge keeps the option, the environment
    cannot remove it, and the section's constructor refuses it. *)
Theorem unknown_option_breaks_load data environ section fields options name :
  NoDup (keys data) ->
  dict_get _default_config_dict section = Some (VDict fields) ->
  dict_get data section = Some (VDict options) ->
  NoDup (keys options) ->
  name ∈ keys options -> name ∉ keys fields ->
  load_config data environ = inl TypeError.
Proof.
  intros Hnd Hclass Hdata Hnd2 Hin Hnin. unfold load_config.
  destruct (_apply_env_overrides environ _) as [e|merged] eqn:Henv.
  - f_equal. by eapply apply_env_overrides_raises.
  - assert (Hkept : is_Some (lookup2 (_merge_dicts _default_config_dict data)
                               section name)).
    { unfold lookup2. rewrite dict_get_merge_dicts, Hdata, Hclass by exact Hnd.
      destruct (dict_get (_merge_dicts fields options) name) as [v|] eqn:Hget;
        [by eexists|].
      apply dict_get_None in Hget. destruct Hget.
      apply merge_dicts_keeps_keys. by right. }
    apply (apply_env_overrides_keeps_options _ _ _ _ _ Henv) in Hkept as [v' Hv'].
    unfold lookup2 in Hv'.
    destruct (dict_get merged section) as [[| | | | | |options']|] eqn:Hsec;
      try discriminate.
    eapply from_dict_loop_unknown; [exact Hclass|exact Hsec| |exact Hnin].
    by eapply dict_get_Some_keys.
Qed.

End EnvFacts.

End ConfigFacts.

(* ===================================================================== *)
(** * Facts about the [once] command *)
(* ===================================================================== *)

Section OnceFacts.

Import Cli.

Context `{Classifier V}.

(** The recording part of [_command_once] ends in one of three ways. *)
Lemma command_once_cases no_vad arg_dir rc vc timestamp start evs fs fs1 out :
  _command_once (V := V) no_vad arg_dir rc vc timestamp start evs fs = Some (fs1, out) ->
  match out with
  | Return code _ => code = 1 /\ fs1 = fs
  | Recorded file_path => is_Some (fs1 !! file_path)
  | Propagated e => fs1 = fs
  end.
Proof.
  unfold _command_once.
  destruct (record_once _ _ _ _ _ _) as [[fs' [p|e]]|] eqn:Hrec; [| |discriminate].
  - apply record_once_effect in Hrec as [pcm ->].
    intros [= <- <-]. rewrite lookup_insert_eq. by eexists.
  - apply record_once_effect in Hrec as ->.
    destruct e; intros [= <- <-]; done.
Qed.

(** X22. [main] returns 0 from the [once] command only when everything has
    been done: the recording was made and transcribed, the text was piped to
    the clipboard command if copying was asked for ([--auto] or
    [ui.auto_copy]) and the clipboard is enabled, and the temporary
    recording has been deleted (unless the deletion itself failed, which is
    ignored). *)
Theorem exit_zero_means_done env no_vad auto arg_dir language rc vc
    clipboard notifications ui timestamp start evs fs fs' t :
  main_once (V := V) env no_vad auto arg_dir language rc vc clipboard notifications ui
    timestamp start evs fs = Some (fs', t, Exit 0) ->
  exists fs1 file_path text segments,
    _command_once (V := V) no_vad arg_dir rc vc timestamp start evs fs
      = Some (fs1, Recorded file_path)
    /\ client_transcribe env (fs1 !! file_path) language = Transcript text segments
    /\ fs' = (if unlink_raises env file_path then fs1 else delete file_path fs1)
    /\ (auto || auto_copy ui = true -> clipboard_enabled clipboard = true ->
        ({| argv := [default (clipboard_command clipboard)
                       (which env (clipboard_command clipboard))];
            input := Some text |}, Completed) ∈ t).
Proof.
  unfold main_once, _command_once_whole, _transcribe_file.
  destruct (_command_once _ _ _ _ _ _ _ _) as [[fs1 [code msg|file_path|e]]|] eqn:Hrec;
    [| | |discriminate].
  - apply command_once_cases in Hrec as [-> _]. discriminate.
  - destruct (client_transcribe env (fs1 !! file_path) language)
      as [text segments|exc|exc] eqn:Htr; simpl; try discriminate.
    destruct (auto || auto_copy ui) eqn:Hcopy.
    + destruct (copy_to_clipboard env text clipboard) as [t2 [e|[]]] eqn:Hclip;
        simpl; [by destruct (error_is_Exception e)|].
      intros [= <- <-].
      exists fs1, file_path, text, segments.
      split; [reflexivity|]. split; [exact Htr|]. split; [reflexivity|].
      intros _ Hen. unfold copy_to_clipboard in Hclip. rewrite Hen in Hclip.
      simpl in Hclip.
      destruct (subprocess_run env _) eqn:Hrun; try discriminate.
      injection Hclip as <-.
      do 2 (apply elem_of_app; right). apply list_elem_of_here.
    + simpl. intros [= <- <-].
      exists fs1, file_path, text, segments.
      split; [reflexivity|]. split; [exact Htr|]. split; [reflexivity|].
      discriminate.
  - simpl. by destruct (is_Exception e).
Qed.



End OnceFacts.


Section Witnesses.

Import Examples.

(** C1 on a run: silence, speech, two silent blocks against a 40 ms threshold,
    then a late speech block before the loop looks. *)
Lemma C1_witness :
  let self := recorder [Some false; Some true; Some false; Some false; Some true] in
  let R := run self (seconds 0) (initial self) in
  let pre := [Deliver quiet; Poll true (seconds 1)] in
  let between := [Deliver quiet; Poll true (seconds 2)] in
  (recording_finished (st (R pre)) = false
   ∧ verdicts self (vad_obj (st (R pre))) (loud :: blocks_of between ++ [quiet])
     = [Speech; Silence; Silence]
   ∧ reaches self (accumulate [d20ms]) = false
   ∧ reaches self (accumulate [d20ms; d20ms]) = true)
  ∧ ctl (R (pre ++ Deliver loud :: between)) = Waiting
  ∧ recording_finished (st (R (pre ++ Deliver loud :: between))) = false
  ∧ recording_finished (st (R (pre ++ Deliver loud :: between ++ [Deliver quiet]))) = true
  ∧ ctl (R (pre ++ Deliver loud :: between
              ++ [Deliver quiet; Deliver loud; Poll true (seconds 3)]))
    = LoopDone BySilence.
Proof.
  intros self R pre between.
  assert (H1 : recording_finished (st (R pre)) = false) by reflexivity.
  assert (H2 : verdicts self (vad_obj (st (R pre))) (loud :: blocks_of between ++ [quiet])
               = Speech :: replicate (length (blocks_of between ++ [quiet])) Silence)
    by reflexivity.
  assert (H3 : Forall2 (fun b x => block_seconds self b = Ok x)
                 (blocks_of between) [d20ms]) by (repeat constructor).
  assert (H4 : block_seconds self quiet = Ok d20ms) by reflexivity.
  assert (H5 : forall n, (0 < n <= length [d20ms])%nat ->
                 reaches self (accumulate (take n [d20ms])) = false).
  { intros n Hn. simpl in Hn. assert (n = 1%nat) as -> by lia. reflexivity. }
  assert (H6 : reaches self (accumulate ([d20ms] ++ [d20ms])) = true) by reflexivity.
  destruct (C1_stop_on_trailing_silence self (seconds 0) pre loud between quiet
              [d20ms] d20ms H1 H2 H3 H4 H5 H6) as [Hbefore Hafter].
  split; [repeat split; reflexivity|].
  destruct (Hbefore between (seconds 2) (reflexivity _)) as (Hdown & _ & _).
  destruct (Hafter [] true (seconds 3)) as (Hup & _ & _ & _).
  split; [reflexivity|]. split; [exact Hdown|]. split; [exact Hup|]. reflexivity.
Defined.

(** C2 on a run whose clock passes 180 s at the third turn of the loop. *)
Lemma C2_witness :
  let self := recorder [Some false; None; Some false] in
  let evs := [Deliver quiet; Poll true (seconds 1); Deliver loud;
              Poll true (seconds 179); Deliver quiet; Poll true (seconds 180)] in
  let rs := run self (seconds 0) (initial self) evs in
  (Forall (fun vd => vd ≠ Speech) (verdicts self (vad self) (blocks_of evs))
   ∧ Forall undisturbed evs)
  ∧ recording_finished (st rs) = false
  ∧ ctl rs = LoopDone ByTimeout
  ∧ buffered (st rs) = [quiet; loud; quiet].
Proof.
  intros self evs.
  assert (H1 : Forall (fun vd => vd ≠ Speech) (verdicts self (vad self) (blocks_of evs)))
    by (repeat constructor; discriminate).
  assert (H2 : Forall undisturbed evs) by (repeat constructor).
  split; [exact (conj H1 H2)|].
  exact (C2_no_speech_runs_to_timeout self (seconds 0) evs H1 H2).
Defined.

(** C3 on a run of silence and faults. *)
Lemma C3_witness :
  let self := recorder [Some false; None; Some false; Some false] in
  let evs := [Deliver quiet; Deliver quiet; Poll true (seconds 1); Deliver loud;
              Deliver quiet; Poll true (seconds 2)] in
  let rs := run self (seconds 0) (initial self) evs in
  Forall (fun vd => vd ≠ Speech) (verdicts self (vad self) (blocks_of evs))
  ∧ silence_duration (st rs) = Py.zero
  ∧ has_detected_speech (st rs) = false
  ∧ recording_finished (st rs) = false
  ∧ ctl rs ≠ LoopDone BySilence.
Proof.
  intros self evs.
  assert (H1 : Forall (fun vd => vd ≠ Speech) (verdicts self (vad self) (blocks_of evs)))
    by (repeat constructor; discriminate).
  split; [exact H1|].
  destruct (C3_silence_counter_discipline self (initial_state self) quiet (seconds 0) evs)
    as (_ & _ & _ & Hlead).
  exact (Hlead H1).
Defined.

(** C4 on a fault during leading silence. *)
Lemma C4_witness :
  let self := recorder [Some false; None] in
  let vo := Some [Some false; Some false] in
  let other := with_vad self vo in
  let evs := [Deliver quiet] in
  (verdicts self (vad self) (blocks_of evs ++ [loud]) = [Silence] ++ [Fault]
   ∧ verdicts other (vad other) (blocks_of evs ++ [loud]) = [Silence] ++ [Silence]
   ∧ Forall (fun vd => vd ≠ Speech) [Silence])
  ∧ view (st (run self (seconds 0) (initial self) (evs ++ [Deliver loud])))
    = view (st (run self (seconds 0) (initial self) evs))
  ∧ view (st (run self (seconds 0) (initial self) (evs ++ [Deliver loud])))
    = view (st (run other (seconds 0) (initial other) (evs ++ [Deliver loud]))).
Proof.
  intros self vo other evs.
  assert (H1 : verdicts self (vad self) (blocks_of evs ++ [loud]) = [Silence] ++ [Fault])
    by reflexivity.
  assert (H2 : verdicts other (vad other) (blocks_of evs ++ [loud]) = [Silence] ++ [Silence])
    by reflexivity.
  assert (H3 : Forall (fun vd => vd ≠ Speech) [Silence])
    by (repeat constructor; discriminate).
  split; [exact (conj H1 (conj H2 H3))|].
  destruct (C4_fault_changes_nothing self vo (seconds 0) evs loud [Silence] H1 H2)
    as (Hsame & _ & _ & Hquiet).
  split; [exact Hsame|exact (Hquiet H3)].
Defined.

(** C6 on a run that times out before any block arrives. *)
Lemma C6_witness :
  let self := recorder [] in
  let evs := [Poll true (seconds 1); Poll true (seconds 180)] in
  (block_size (sample_rate (recording_config self)) = Ok 320
   ∧ stopped (ctl (run self (seconds 0) (initial self) evs)) = true
   ∧ frames (st (run self (seconds 0) (initial self) evs)) = [])
  ∧ _record_to_path self "/tmp/omnivocal/out.wav" (seconds 0) evs ∅
    = Some (∅, Raise (AudioError "No audio captured"))
  ∧ record_once self None "20240101T000000" (seconds 0) evs ∅
    = Some (∅, Raise (AudioError "No audio captured")).
Proof.
  intros self evs.
  assert (H1 : block_size (sample_rate (recording_config self)) = Ok 320) by reflexivity.
  assert (H2 : stopped (ctl (run self (seconds 0) (initial self) evs)) = true)
    by reflexivity.
  assert (H3 : frames (st (run self (seconds 0) (initial self) evs)) = []) by reflexivity.
  split; [exact (conj H1 (conj H2 H3))|].
  exact (C6_no_audio_captured self "/tmp/omnivocal/out.wav" None "20240101T000000"
           (seconds 0) evs ∅ 320 H1 H2 H3).
Defined.

(** C7 on a recording without VAD, interrupted after two blocks. *)
Lemma C7_witness :
  let vc := {| enabled := true; silence_ms_to_stop := 1200; aggressiveness := 2 |} in
  let self := Recorder_init recording
                {| enabled := negb true; silence_ms_to_stop := 1200; aggressiveness := 2 |} in
  let evs1 := [Deliver loud; Poll true (seconds 1); Deliver loud] in
  (block_size (sample_rate recording) = Ok 320
   ∧ ctl (run self (seconds 0) (initial self) evs1) = Waiting)
  ∧ _command_once true None recording vc "20240101T000000" (seconds 0)
      (evs1 ++ Interrupt :: [Deliver quiet]) ∅
    = Some (∅, Return 1 "Recording interrupted").
Proof.
  intros vc self evs1.
  assert (H1 : block_size (sample_rate recording) = Ok 320) by reflexivity.
  assert (H2 : ctl (run self (seconds 0) (initial self) evs1) = Waiting) by reflexivity.
  split; [exact (conj H1 H2)|].
  destruct (C7_interrupt_discards_recording true None recording vc "20240101T000000"
              (seconds 0) evs1 [Deliver quiet] ∅ 320 H1 H2) as (_ & _ & Hcmd).
  exact Hcmd.
Defined.



(** C5 on 1.0, 1.5, 0.5, minus infinity and 0.0. *)
Lemma C5_witness :
  let data := [Np.one; S754_finite false 12582912 (-23); S754_finite false 8388608 (-24);
               S754_infinity true; S754_zero false] in
  Forall float32_number data
  /\ _float_to_pcm16 data = ToPCM16 data
  /\ pcm16_value (S754_finite false 8388608 (-24)) = 16383
  /\ _float_to_pcm16 data !! 4%nat = Some "255"%byte
  /\ _float_to_pcm16 data !! 5%nat = Some "063"%byte.
Proof.
  intros data.
  assert (H1 : Forall float32_number data) by (repeat constructor).
  split; [exact H1|].
  destruct (C5_float_to_pcm16_encoding data) as (_ & _ & _ & Hspec).
  destruct (Hspec H1) as [Heq _].
  split; [exact Heq|]. repeat split.
Defined.

(** C9 at 48 kHz. *)
Lemma C9_witness :
  (0 < 48000 < 2 ^ 53 /\ 48000 mod 50 = 0)
  /\ exists b, block_size 48000 = Ok b /\ b * 50 = 48000.
Proof.
  assert (H1 : 0 < 48000 < 2 ^ 53) by (split; reflexivity).
  assert (H2 : 48000 mod 50 = 0) by reflexivity.
  split; [exact (conj H1 H2)|].
  exact (C9_block_size_20ms 48000 H1 H2).
Defined.

(** The scenario of the specification's section 8: 16 kHz mono, VAD on with
    the default 1200 ms; 50 blocks of speech, then silence. After 59 silent
    blocks the flag is down; the 60th raises it, and the next turn of the
    loop ends the capture with all 110 blocks (2.2 s) in the buffer. *)
Example one_second_of_speech_then_silence :
  let self := {| recording_config := recording;
                 vad_config := {| enabled := true; silence_ms_to_stop := 1200;
                                  aggressiveness := 2 |};
                 vad := Some (repeat (Some true) 50 ++ repeat (Some false) 60) |} in
  let R := run self (seconds 0) (initial self) in
  let talk := repeat (Deliver loud) 50 in
  recording_finished (st (R (talk ++ repeat (Deliver quiet) 59))) = false
  /\ recording_finished (st (R (talk ++ repeat (Deliver quiet) 60))) = true
  /\ ctl (R (talk ++ repeat (Deliver quiet) 60 ++ [Poll true (seconds 3)]))
     = LoopDone BySilence
  /\ length (buffered (st (R (talk ++ repeat (Deliver quiet) 60 ++ [Poll true (seconds 3)]))))
     = 110%nat.
Proof. vm_compute. repeat split. Qed.

(** C1, as stated, fails. Speech, then two silent blocks that reach the
    40 ms threshold and raise the flag; before the loop takes its next turn
    the callback, which has swallowed its own [CallbackStop], is handed a
    block of speech (frame k) and one more silent block. Every frame after
    frame k is silent and the silence after it adds up to 20 ms, short of
    the threshold: the counter was reset by frame k and the test of line 101
    fails on it. The loop, still waiting until then, leaves on silence at
    its next turn all the same. *)
Lemma C1_counterexample :
  let self := recorder [Some true; Some false; Some false; Some true; Some false] in
  let R := run self (seconds 0) (initial self) in
  let evs := [Deliver loud; Deliver quiet; Deliver quiet; Deliver loud; Deliver quiet] in
  verdicts self (vad self) (blocks_of evs) = [Speech; Silence; Silence; Speech; Silence]
  ∧ recording_finished (st (R (take 3 evs))) = true
  ∧ block_seconds self quiet = Ok d20ms
  ∧ silence_duration (st (R evs)) = accumulate [d20ms]
  ∧ reaches self (silence_duration (st (R evs))) = false
  ∧ ctl (R evs) = Waiting
  ∧ in_time self (seconds 0) (seconds 1) = true
  ∧ ctl (R (evs ++ [Poll true (seconds 1)])) = LoopDone BySilence.
Proof.
  intros self R evs.
  repeat split; reflexivity.
Qed.

(** C4, as stated, fails: after speech, a block that faults leaves the
    counter at 0.0 while the same block classified as silence advances it by
    the block's 0.02 s. *)
Lemma C4_counterexample :
  let self := recorder [Some true; None] in
  let other := with_vad self (Some [Some true; Some false]) in
  let evs := [Deliver loud; Deliver quiet] in
  verdicts self (vad self) (blocks_of evs) = [Speech; Fault]
  ∧ verdicts other (vad other) (blocks_of evs) = [Speech; Silence]
  ∧ silence_duration (st (run self (seconds 0) (initial self) evs)) = Py.zero
  ∧ silence_duration (st (run other (seconds 0) (initial other) evs)) = d20ms
  ∧ silence_duration (st (run self (seconds 0) (initial self) evs))
    ≠ silence_duration (st (run other (seconds 0) (initial other) evs)).
Proof.
  intros self other evs.
  repeat split; try reflexivity.
  vm_compute. discriminate.
Qed.

(** C7, as stated, fails: with a block in the buffer, Ctrl+C ends
    [record_once] with [KeyboardInterrupt]; no path is returned and no file
    exists afterwards. *)
Lemma C7_counterexample :
  let self := recorder [Some true] in
  let evs := [Deliver loud; Interrupt] in
  buffered (st (run self (seconds 0) (initial self) [Deliver loud])) = [loud]
  ∧ record_once self None "20240101T000000" (seconds 0) evs ∅
    = Some (∅, Raise KeyboardInterrupt)
  ∧ (forall fs' path,
       record_once self None "20240101T000000" (seconds 0) evs ∅ ≠ Some (fs', Ok path)).
Proof.
  intros self evs.
  split; [reflexivity|]. split; [reflexivity|].
  intros fs' path. vm_compute. discriminate.
Qed.

(** C9, as stated, fails: at 11025 Hz the block is 220 samples, which is
    not 20 ms (220 * 50 = 11000). *)
Lemma C9_counterexample :
  block_size 11025 = Ok 220 ∧ 220 * 50 ≠ 11025.
Proof. split; [reflexivity|discriminate]. Qed.

End Witnesses.

(* ===================================================================== *)
(** * The further properties on concrete data *)
(* ===================================================================== *)

Import Examples MoreExamples.

(** A run in which the stop flag is up and the loop has ended, continued
    with speech, a turn of the loop and an interrupt. *)
Lemma run_never_goes_back_witness :
  let self := recorder [Some true; Some false; Some false; Some true] in
  let rs := run self (seconds 0) (initial self)
              [Deliver loud; Deliver quiet; Deliver quiet; Poll true (seconds 1)] in
  let rs' := run self (seconds 0) rs [Deliver loud; Poll true (seconds 2); Interrupt] in
  (has_detected_speech (st rs) = true
   /\ recording_finished (st rs) = true
   /\ ctl rs <> Waiting)
  /\ has_detected_speech (st rs') = true
  /\ recording_finished (st rs') = true
  /\ ctl rs' <> Waiting.
Proof.
  intros self rs rs'.
  assert (H1 : has_detected_speech (st rs) = true) by reflexivity.
  assert (H2 : recording_finished (st rs) = true) by reflexivity.
  assert (H3 : ctl rs <> Waiting) by (vm_compute; discriminate).
  split; [exact (conj H1 (conj H2 H3))|].
  destruct (run_never_goes_back self (seconds 0) rs
              [Deliver loud; Poll true (seconds 2); Interrupt]) as (Hd & Hf & Hc).
  exact (conj (Hd H1) (conj (Hf H2) (Hc H3))).
Defined.

(** Speech, a classifier fault and more speech, with the loop looking in
    between and once past the limit. *)
Lemma speech_without_pause_is_never_cut_witness :
  let self := recorder [Some true; None; Some true] in
  let evs := [Deliver loud; Poll true (seconds 1); Deliver quiet; Deliver loud;
              Poll true (seconds 180)] in
  (Forall (fun vd => vd ≠ Silence) (verdicts self (vad self) (blocks_of evs))
   /\ Forall undisturbed evs)
  /\ silence_duration (st (run self (seconds 0) (initial self) evs)) = Py.zero
  /\ recording_finished (st (run self (seconds 0) (initial self) evs)) = false
  /\ ctl (run self (seconds 0) (initial self) evs) = LoopDone ByTimeout.
Proof.
  intros self evs.
  assert (H1 : Forall (fun vd => vd ≠ Silence) (verdicts self (vad self) (blocks_of evs)))
    by (repeat constructor; discriminate).
  assert (H2 : Forall undisturbed evs) by (repeat constructor).
  split; [exact (conj H1 H2)|].
  exact (speech_without_pause_is_never_cut self (seconds 0) evs H1 H2).
Defined.

(** The device disappears after one block. *)
Lemma stream_error_is_audio_error_witness :
  let vc := {| enabled := true; silence_ms_to_stop := 1200; aggressiveness := 2 |} in
  let self := Recorder_init recording
                {| enabled := negb true; silence_ms_to_stop := 1200; aggressiveness := 2 |} in
  let e := PortAudioError "Device unavailable" in
  (block_size (sample_rate recording) = Ok 320
   /\ (forall e', ctl (run self (seconds 0) (initial self) [Deliver loud]) <> Raised e')
   /\ is_Exception e = true /\ e <> CallbackStop)
  /\ _command_once true None recording vc "20240101T000000" (seconds 0)
       ([Deliver loud] ++ MainRaise e :: [Deliver loud]) ∅
     = Some (∅, Return 1 "Recording failed: Failed to capture audio: Device unavailable").
Proof.
  intros vc self e.
  assert (H1 : block_size (sample_rate recording) = Ok 320) by reflexivity.
  assert (H2 : forall e', ctl (run self (seconds 0) (initial self) [Deliver loud])
                          <> Raised e') by (intros e'; discriminate).
  assert (H3 : is_Exception e = true) by reflexivity.
  assert (H4 : e <> CallbackStop) by discriminate.
  split; [exact (conj H1 (conj H2 (conj H3 H4)))|].
  destruct (stream_error_is_audio_error true None recording vc "20240101T000000"
              (seconds 0) [Deliver loud] [Deliver loud] e ∅ 320 wav_path H1 H2 H3 H4)
    as [_ Hcmd].
  exact Hcmd.
Defined.

(** Two empty blocks arrive and the stream goes inactive. *)
Lemma no_audio_iff_no_samples_witness :
  let self := recorder [] in
  let evs := [Deliver []; Deliver []; Poll false (seconds 1)] in
  (block_size (sample_rate (recording_config self)) = Ok 320
   /\ stopped (ctl (run self (seconds 0) (initial self) evs)) = true
   /\ length (frames (st (run self (seconds 0) (initial self) evs))) = 2%nat
   /\ Np.size (Np.concatenate (blocks_of evs)) = 0%nat)
  /\ _record_to_path self wav_path (seconds 0) evs ∅
     = Some (∅, Raise (AudioError "No audio captured")).
Proof.
  intros self evs.
  assert (H1 : block_size (sample_rate (recording_config self)) = Ok 320) by reflexivity.
  assert (H2 : stopped (ctl (run self (seconds 0) (initial self) evs)) = true)
    by reflexivity.
  assert (H3 : length (frames (st (run self (seconds 0) (initial self) evs))) = 2%nat)
    by reflexivity.
  assert (H4 : Np.size (Np.concatenate (blocks_of evs)) = 0%nat) by reflexivity.
  split; [exact (conj H1 (conj H2 (conj H3 H4)))|].
  destruct (no_audio_iff_no_samples self wav_path (seconds 0) evs ∅ 320 H1 H2)
    as [_ Hzero].
  exact (Hzero H4).
Defined.

(** One block of two frames, then the stream goes inactive: four bytes. *)
Lemma artifact_is_whole_frames_witness :
  let self := recorder [Some true] in
  let evs := [Deliver two_frames; Poll false (seconds 1)] in
  (0 < sample_rate (recording_config self)
   /\ Forall (Forall (fun row => Z.of_nat (length row) = channels (recording_config self)))
     (blocks_of evs)
   /\ _record_to_path self wav_path (seconds 0) evs ∅
      = Some (<[wav_path := two_frames_wav]> ∅, Ok tt))
  /\ exists w, (<[wav_path := two_frames_wav]> (∅ : filesystem)) !! wav_path = Some w
       /\ Z.of_nat (length (wav_frames w)) = sampwidth w * nchannels w * 2.
Proof.
  intros self evs.
  assert (H1 : Forall (Forall (fun row => Z.of_nat (length row)
                                          = channels (recording_config self)))
                 (blocks_of evs)) by (repeat constructor).
  assert (H2 : _record_to_path self wav_path (seconds 0) evs ∅
               = Some (<[wav_path := two_frames_wav]> ∅, Ok tt)) by reflexivity.
  assert (H0 : 0 < sample_rate (recording_config self)) by reflexivity.
  split; [exact (conj H0 (conj H1 H2))|].
  exact (artifact_is_whole_frames self wav_path (seconds 0) evs ∅
           (<[wav_path := two_frames_wav]> ∅) H0 H1 H2).
Defined.

(** 44.1 kHz: 882 samples; 11.025 kHz: 220. *)
Lemma block_size_is_floor_of_fiftieth_witness :
  (0 <= 44100 < 2 ^ 52 /\ 0 <= 11025 < 2 ^ 52)
  /\ block_size 44100 = Ok 882 /\ block_size 11025 = Ok 220.
Proof.
  assert (H1 : 0 <= 44100 < 2 ^ 52) by (split; [discriminate|reflexivity]).
  assert (H2 : 0 <= 11025 < 2 ^ 52) by (split; [discriminate|reflexivity]).
  split; [exact (conj H1 H2)|].
  exact (conj (block_size_is_floor_of_fiftieth 44100 H1)
              (block_size_is_floor_of_fiftieth 11025 H2)).
Defined.

(** 0.5 and -0.5: 16383 and -16383. *)
Lemma float_to_pcm16_is_odd_witness :
  valid_binary Np.prec Np.emax (S754_finite false 8388608 (-24)) = true
  /\ exists lo hi lo' hi',
       _float_to_pcm16 [S754_finite false 8388608 (-24)] = [lo; hi]
       /\ _float_to_pcm16 [S754_finite true 8388608 (-24)] = [lo'; hi']
       /\ Np.int16_of_bytes lo' hi' = - Np.int16_of_bytes lo hi.
Proof.
  assert (H1 : valid_binary Np.prec Np.emax (S754_finite false 8388608 (-24)) = true)
    by reflexivity.
  split; [exact H1|].
  exact (float_to_pcm16_is_odd (S754_finite false 8388608 (-24)) H1).
Defined.

(** Three attempts allowed, the third accepted. *)
Lemma first_accepted_attempt_wins_witness :
  (1 <= 3 <= Z.max (Api.max_retries (chutes 3)) 1
   /\ (forall i, 1 <= i < 3 ->
         exists exc, Api.attempt_body (flaky_server i) false = inl exc)
   /\ Api.attempt_body (flaky_server 3) false
      = inr [Api.JDict [("text", Api.JStr "hello")]])
  /\ Api._post_with_retries (chutes 3) flaky_server false
     = ([Api.Post 1; Api.Sleep 2; Api.Post 2; Api.Sleep 4; Api.Post 3],
        inr [Api.JDict [("text", Api.JStr "hello")]]).
Proof.
  assert (H1 : 1 <= 3 <= Z.max (Api.max_retries (chutes 3)) 1)
    by (split; discriminate).
  assert (H2 : forall i, 1 <= i < 3 ->
            exists exc, Api.attempt_body (flaky_server i) false = inl exc).
  { intros i Hi. assert (Hc : i = 1 \/ i = 2) by lia.
    destruct Hc as [-> | ->]; eexists; reflexivity. }
  assert (H3 : Api.attempt_body (flaky_server 3) false
               = inr [Api.JDict [("text", Api.JStr "hello")]]) by reflexivity.
  split; [exact (conj H1 (conj H2 H3))|].
  exact (first_accepted_attempt_wins (chutes 3) flaky_server false 3
           [Api.JDict [("text", Api.JStr "hello")]] H1 H2 H3).
Defined.

(** Two attempts allowed, both refused. *)
Lemma retries_exhausted_witness :
  ((forall i, 1 <= i < Z.max (Api.max_retries (chutes 2)) 1 ->
      exists exc, Api.attempt_body (flaky_server i) false = inl exc)
   /\ Api.attempt_body (flaky_server (Z.max (Api.max_retries (chutes 2)) 1)) false
      = inl (Api.ChutesAPIError "API request failed: 503 Server Error"))
  /\ Api._post_with_retries (chutes 2) flaky_server false
     = ([Api.Post 1; Api.Sleep 2; Api.Post 2],
        inl (Api.ChutesAPIError
               "Failed to contact Chutes API after 2 attempts: API request failed: 503 Server Error")).
Proof.
  assert (H1 : forall i, 1 <= i < Z.max (Api.max_retries (chutes 2)) 1 ->
            exists exc, Api.attempt_body (flaky_server i) false = inl exc).
  { intros i Hi. change (Z.max (Api.max_retries (chutes 2)) 1) with 2 in Hi.
    assert (Hc : i = 1) by lia. rewrite Hc. eexists; reflexivity. }
  assert (H2 : Api.attempt_body (flaky_server (Z.max (Api.max_retries (chutes 2)) 1)) false
               = inl (Api.ChutesAPIError "API request failed: 503 Server Error"))
    by reflexivity.
  split; [exact (conj H1 H2)|].
  exact (retries_exhausted (chutes 2) flaky_server false
           (Api.ChutesAPIError "API request failed: 503 Server Error") H1 H2).
Defined.

(** The defaults merged with [partial_file]. *)
Lemma merge_dicts_lookup_witness :
  (NoDup (Config.keys partial_file)
   /\ Config.dict_get partial_file "chutes" = None
   /\ Config.dict_get partial_file "vad"
      = Some (Config.VDict [("silence_ms_to_stop", Config.VInt 800)]))
  /\ Config.dict_get (Config._merge_dicts Config._default_config_dict partial_file) "chutes"
     = Config.dict_get Config._default_config_dict "chutes"
  /\ Config.dict_get (Config._merge_dicts Config._default_config_dict partial_file) "vad"
     = Some vad_800.
Proof.
  assert (H1 : NoDup (Config.keys partial_file))
    by (apply (bool_decide_unpack _); exact I).
  assert (H2 : Config.dict_get partial_file "chutes" = None) by reflexivity.
  assert (H3 : Config.dict_get partial_file "vad"
               = Some (Config.VDict [("silence_ms_to_stop", Config.VInt 800)]))
    by reflexivity.
  split; [exact (conj H1 (conj H2 H3))|].
  destruct (merge_dicts_lookup Config._default_config_dict partial_file "chutes" H1)
    as (Hnone & _ & _).
  destruct (merge_dicts_lookup Config._default_config_dict partial_file "vad" H1)
    as (_ & _ & Htable).
  exact (conj (Hnone H2) (Htable _ H3)).
Defined.

Lemma merge_dicts_keys_witness :
  NoDup (Config.keys partial_file)
  /\ Config.keys (Config._merge_dicts Config._default_config_dict partial_file)
     = ["chutes"; "recording"; "vad"; "clipboard"; "notifications"; "ui"; "profile"]%string.
Proof.
  assert (H1 : NoDup (Config.keys partial_file))
    by (apply (bool_decide_unpack _); exact I).
  split; [exact H1|].
  exact (merge_dicts_keys Config._default_config_dict partial_file H1).
Defined.

Lemma file_options_override_defaults_witness :
  (NoDup (Config.keys partial_file)
   /\ (forall items, Config.dict_get partial_file "vad" = Some (Config.VDict items) ->
         NoDup (Config.keys items))
   /\ (forall v, Config.dict_get partial_file "vad" = Some v ->
         Config.kind_of v = Config.KDict))
  /\ Config.lookup2 (Config._merge_dicts Config._default_config_dict partial_file)
       "vad" "silence_ms_to_stop" = Some (Config.VInt 800)
  /\ Config.lookup2 (Config._merge_dicts Config._default_config_dict partial_file)
       "vad" "aggressiveness" = Some (Config.VInt 2).
Proof.
  assert (H1 : NoDup (Config.keys partial_file))
    by (apply (bool_decide_unpack _); exact I).
  assert (H2 : forall items,
            Config.dict_get partial_file "vad" = Some (Config.VDict items) ->
            NoDup (Config.keys items)).
  { intros items Heq. injection Heq as <-. apply (bool_decide_unpack _). exact I. }
  assert (H3 : forall v, Config.dict_get partial_file "vad" = Some v ->
            Config.kind_of v = Config.KDict).
  { intros v Heq. injection Heq as <-. reflexivity. }
  split; [exact (conj H1 (conj H2 H3))|].
  exact (conj (file_options_override_defaults Config._default_config_dict partial_file
                 "vad" "silence_ms_to_stop" H1 H2 H3)
              (file_options_override_defaults Config._default_config_dict partial_file
                 "vad" "aggressiveness" H1 H2 H3)).
Defined.

(** The defaults under [environment]. *)
Lemma env_overrides_keep_the_shape_witness :
  Config._apply_env_overrides environment Config._default_config_dict
    = inr (Config.dict_set Config._default_config_dict "vad" vad_800)
  /\ Config.keys (Config.dict_set Config._default_config_dict "vad" vad_800)
     = Config.keys Config._default_config_dict.
Proof.
  assert (H1 : Config._apply_env_overrides environment Config._default_config_dict
               = inr (Config.dict_set Config._default_config_dict "vad" vad_800))
    by reflexivity.
  split; [exact H1|].
  destruct (env_overrides_keep_the_shape environment Config._default_config_dict
              (Config.dict_set Config._default_config_dict "vad" vad_800) H1)
    as [Hkeys _].
  exact Hkeys.
Defined.

Lemma env_variable_sets_its_option_witness :
  (Forall (fun kv => String.prefix "OMNIVOCAL_" kv.1 = false) [("HOME", "/root")]%string
   /\ Config.env_target "OMNIVOCAL_VAD_SILENCE_MS_TO_STOP"
      = Some ("vad", "silence_ms_to_stop")%string
   /\ Config.lookup2 Config._default_config_dict "vad" "silence_ms_to_stop"
      = Some (Config.VInt 1200))
  /\ exists config',
       Config._apply_env_overrides environment Config._default_config_dict = inr config'
       /\ Config.lookup2 config' "vad" "silence_ms_to_stop" = Some (Config.VInt 800)
       /\ forall s n, (s, n) <> ("vad", "silence_ms_to_stop")%string ->
            Config.lookup2 config' s n = Config.lookup2 Config._default_config_dict s n.
Proof.
  assert (H1 : Forall (fun kv => String.prefix "OMNIVOCAL_" kv.1 = false)
                 [("HOME", "/root")]%string) by (repeat constructor).
  assert (H1' : Forall (fun kv : string * string => String.prefix "OMNIVOCAL_" kv.1 = false)
                  []) by constructor.
  assert (H2 : Config.env_target "OMNIVOCAL_VAD_SILENCE_MS_TO_STOP"
               = Some ("vad", "silence_ms_to_stop")%string) by reflexivity.
  assert (H3 : Config.lookup2 Config._default_config_dict "vad" "silence_ms_to_stop"
               = Some (Config.VInt 1200)) by reflexivity.
  split; [exact (conj H1 (conj H2 H3))|].
  exact (env_variable_sets_its_option [("HOME", "/root")]%string [] Config._default_config_dict
           "OMNIVOCAL_VAD_SILENCE_MS_TO_STOP" " 800 " "vad" "silence_ms_to_stop"
           (Config.VInt 1200) H1 H1' H2 H3).
Defined.

Lemma unknown_option_breaks_load_witness :
  (NoDup (Config.keys misspelt_file)
   /\ Config.dict_get Config._default_config_dict "vad"
      = Some (Config.VDict [("enabled", Config.VBool true);
                            ("silence_ms_to_stop", Config.VInt 1200);
                            ("aggressiveness", Config.VInt 2)])
   /\ Config.dict_get misspelt_file "vad"
      = Some (Config.VDict [("silence_ms", Config.VInt 800)]))
  /\ Config.load_config misspelt_file environment = inl Config.TypeError.
Proof.
  assert (H1 : NoDup (Config.keys misspelt_file))
    by (apply (bool_decide_unpack _); exact I).
  assert (H2 : Config.dict_get Config._default_config_dict "vad"
               = Some (Config.VDict [("enabled", Config.VBool true);
                                     ("silence_ms_to_stop", Config.VInt 1200);
                                     ("aggressiveness", Config.VInt 2)])) by reflexivity.
  assert (H3 : Config.dict_get misspelt_file "vad"
               = Some (Config.VDict [("silence_ms", Config.VInt 800)])) by reflexivity.
  assert (H4 : NoDup (Config.keys [("silence_ms", Config.VInt 800)]%string))
    by (apply (bool_decide_unpack _); exact I).
  assert (H5 : "silence_ms"%string ∈ Config.keys [("silence_ms", Config.VInt 800)]%string)
    by (apply (bool_decide_unpack _); exact I).
  assert (H6 : "silence_ms"%string
               ∉ Config.keys [("enabled", Config.VBool true);
                              ("silence_ms_to_stop", Config.VInt 1200);
                              ("aggressiveness", Config.VInt 2)]%string)
    by (apply (bool_decide_unpack _); exact I).
  split; [exact (conj H1 (conj H2 H3))|].
  exact (unknown_option_breaks_load misspelt_file environment "vad" _ _ "silence_ms"
           H1 H2 H3 H4 H5 H6).
Defined.

(** A run of [ovstt once]: one block, the stream ends, the service answers
    "hello". *)
Lemma exit_zero_means_done_witness :
  let vc := {| enabled := true; silence_ms_to_stop := 1200; aggressiveness := 2 |} in
  let evs := [Deliver two_frames; Poll false (seconds 1)] in
  let env := machine (Cli.Transcript "hello" ["hello"%string]) in
  let copied := ({| Cli.argv := ["/usr/bin/wl-copy"%string]; Cli.input := Some "hello"%string |},
                 Cli.Completed) in
  Cli.main_once (V := list (option bool)) env false false None None recording vc
    clipboard notifications ui "20240101T000000" (seconds 0) evs ∅
  = Some (∅,
          [({| Cli.argv := ["notify-send"; "Omnivocal"; "Recording started"]%string;
               Cli.input := None |}, Cli.FileNotFoundError);
           ({| Cli.argv := ["notify-send"; "Omnivocal"; "Transcribing audio"]%string;
               Cli.input := None |}, Cli.FileNotFoundError);
           ({| Cli.argv := ["notify-send"; "Omnivocal"; "Transcription complete"]%string;
               Cli.input := None |}, Cli.FileNotFoundError);
           copied],
          Cli.Exit 0)
  /\ exists fs1 file_path text segments,
       _command_once (V := list (option bool)) false None recording vc
         "20240101T000000" (seconds 0) evs ∅ = Some (fs1, Recorded file_path)
       /\ Cli.client_transcribe env (fs1 !! file_path) None = Cli.Transcript text segments
       /\ (∅ : filesystem)
          = (if Cli.unlink_raises env file_path then fs1 else delete file_path fs1).
Proof.
  intros vc evs env copied.
  assert (H1 : Cli.main_once (V := list (option bool)) env false false None None
                 recording vc clipboard notifications ui "20240101T000000" (seconds 0) evs ∅
    = Some (∅,
          [({| Cli.argv := ["notify-send"; "Omnivocal"; "Recording started"]%string;
               Cli.input := None |}, Cli.FileNotFoundError);
           ({| Cli.argv := ["notify-send"; "Omnivocal"; "Transcribing audio"]%string;
               Cli.input := None |}, Cli.FileNotFoundError);
           ({| Cli.argv := ["notify-send"; "Omnivocal"; "Transcription complete"]%string;
               Cli.input := None |}, Cli.FileNotFoundError);
           copied],
          Cli.Exit 0)) by (vm_compute; reflexivity).
  split; [exact H1|].
  destruct (exit_zero_means_done env false false None None recording vc clipboard
              notifications ui "20240101T000000" (seconds 0) evs ∅ ∅ _ H1)
    as (fs1 & file_path & text & segments & Hrec & Htr & Hfs & _).
  exact (ex_intro _ fs1 (ex_intro _ file_path (ex_intro _ text (ex_intro _ segments
           (conj Hrec (conj Htr Hfs)))))).
Defined.

